(** * REVA paper abstract extraction pipeline: model of [extract_abstracts.py]

    The development embeds the text normalizer ([PaperExtractor.clean_text]),
    the two extractors ([extract_from_scopus], [extract_from_doi]), the
    per-record policy ([process_paper]) and the batch controller ([main])
    and states the properties of the specification over them.

    Conventions.
    - A Python [str] is a [string]; every [ascii] stands for the code point
      of the same number (0..255).  Code points above 255 behave under
      [clean_text] like the characters 128..255 kept here: they are either
      Unicode white space or removed by the third substitution.
    - A pandas cell is a [cell]: a string or the missing value [NaN].
    - Exceptions, logging calls, HTTP requests, file writes and sleeps are
      recorded in an event trace carried by the monad [M]. *)

From Stdlib Require Import List String Ascii Bool Arith NArith ZArith Lia DecimalString.
Import ListNotations.

Set Warnings "-register-all".

Local Open Scope string_scope.
Local Open Scope list_scope.
Local Open Scope nat_scope.

(* ================================================================== *)
(** * Part I: definitions                                              *)
(* ================================================================== *)

(** ** Characters and the classes used by the regular expressions *)

Module Chars.

Definition code (c : ascii) : nat := nat_of_ascii c.

Definition in_range (lo hi : nat) (c : ascii) : bool :=
  (lo <=? code c) && (code c <=? hi).

(** [\s] of a [str] pattern, which is also what [str.strip()] removes:
    TAB, LF, VT, FF, CR, the separators FS, GS, RS, US, the space, and in
    the Latin-1 block NEL (0x85) and NBSP (0xA0). *)
Definition is_space (c : ascii) : bool :=
  in_range 9 13 c || in_range 28 32 c || (code c =? 133) || (code c =? 160).

(** [a-zA-Z0-9] *)
Definition is_alnum (c : ascii) : bool :=
  in_range 97 122 c || in_range 65 90 c || in_range 48 57 c.

(** [.,;:()\-] *)
Definition is_kept_punct (c : ascii) : bool :=
  existsb (Ascii.eqb c) ["."; ","; ";"; ":"; "("; ")"; "-"]%char.

(** The complement of the class [[^a-zA-Z0-9\s.,;:()\-]]. *)
Definition allowed (c : ascii) : bool :=
  is_alnum c || is_space c || is_kept_punct c.

Definition lt_sign : ascii := "<"%char.
Definition gt_sign : ascii := ">"%char.
Definition space : ascii := " "%char.

End Chars.

(** ** Text Normalizer: [PaperExtractor.clean_text] *)

Module Normalizer.
Import Chars.

(** Position of the first [>] of [l], if any. *)
Fixpoint index_gt (l : list ascii) : option nat :=
  match l with
  | [] => None
  | c :: l' => if Ascii.eqb c gt_sign then Some 0 else option_map S (index_gt l')
  end.

(** [re.sub(r'<[^>]+>', '', text)], scanning from the left.  At a [<] the
    pattern matches when the first [>] after it exists and is at least one
    character away; the match (the [<], the [k+1] characters of the body
    and the [>]) is dropped and the scan goes on behind it.  [skip] counts
    the characters of the current match still to drop. *)
Fixpoint remove_tags_from (skip : nat) (l : list ascii) : list ascii :=
  match l with
  | [] => []
  | c :: l' =>
      match skip with
      | S k => remove_tags_from k l'
      | O =>
          if Ascii.eqb c lt_sign then
            match index_gt l' with
            | Some (S k) => remove_tags_from (S (S k)) l'
            | _ => c :: remove_tags_from 0 l'
            end
          else c :: remove_tags_from 0 l'
      end
  end.

Definition remove_tags (l : list ascii) : list ascii := remove_tags_from 0 l.

(** [re.sub(r'\s+', ' ', text)]: every maximal run of white space becomes
    one space.  [in_run] tells that the previous character was white space,
    so that the run has already been replaced. *)
Fixpoint collapse_from (in_run : bool) (l : list ascii) : list ascii :=
  match l with
  | [] => []
  | c :: l' =>
      if is_space c
      then (if in_run then collapse_from true l' else space :: collapse_from true l')
      else c :: collapse_from false l'
  end.

Definition collapse_ws (l : list ascii) : list ascii := collapse_from false l.

(** [re.sub(r'[^a-zA-Z0-9\s.,;:()\-]', '', text)] *)
Definition remove_special (l : list ascii) : list ascii := filter allowed l.

(** [text.strip()] *)
Fixpoint lstrip (l : list ascii) : list ascii :=
  match l with
  | [] => []
  | c :: l' => if is_space c then lstrip l' else l
  end.

Fixpoint rstrip (l : list ascii) : list ascii :=
  match l with
  | [] => []
  | c :: l' =>
      match rstrip l' with
      | [] => if is_space c then [] else [c]
      | r => c :: r
      end
  end.

Definition strip (l : list ascii) : list ascii := rstrip (lstrip l).

(** The four statements after the guard, on the characters of the text. *)
Definition clean_chars (l : list ascii) : list ascii :=
  strip (remove_special (collapse_ws (remove_tags l))).

(** [clean_text(self, text)].  The argument is [None] or a [str]; the
    guard [if not text] answers both [None] and the empty string. *)
Definition clean_text (text : option string) : string :=
  match text with
  | None => ""
  | Some "" => ""
  | Some s => string_of_list_ascii (clean_chars (list_ascii_of_string s))
  end.

(** *** Shapes of texts, for the statements *)

(** White space other than the blank does not survive the second
    substitution. *)
Definition blank_only (c : ascii) : Prop := is_space c = true -> c = space.

Definition starts_clean (l : list ascii) : Prop :=
  match l with
  | [] => True
  | c :: _ => is_space c = false
  end.

(** No two neighbouring characters are both white space. *)
Fixpoint no_double_space (l : list ascii) : bool :=
  match l with
  | c :: ((d :: _) as l') => negb (is_space c && is_space d) && no_double_space l'
  | _ => true
  end.

(** What every result of [clean_chars] looks like. *)
Record normal_form (l : list ascii) : Prop := {
  nf_allowed : Forall (fun c => allowed c = true) l;
  nf_blank : Forall blank_only l;
  nf_head : starts_clean l;
  nf_tail : rstrip l = l
}.

End Normalizer.

(** ** Python and pandas values *)

(** A cell of a [DataFrame] column of strings: a [str], or the missing
    value [NaN] that [read_excel], [read_csv] and an unmatched left join
    put in an empty position. *)
Inductive cell : Type :=
| NaN
| Str (s : string).

Module Cell.

Definition eqb (a b : cell) : bool :=
  match a, b with
  | NaN, NaN => true
  | Str x, Str y => String.eqb x y
  | _, _ => false
  end.

(** [bool(x)]: only the empty string is false; [float('nan')] is true. *)
Definition truthy (c : cell) : bool :=
  match c with
  | NaN => true
  | Str "" => false
  | Str _ => true
  end.

(** [Series.notna()] *)
Definition notna (c : cell) : bool :=
  match c with NaN => false | Str _ => true end.

(** The cell holds a text of at least one character. *)
Definition nonempty (c : cell) : bool :=
  match c with
  | NaN => false
  | Str "" => false
  | Str _ => true
  end.

(** [str(x)], as an f-string and [requests] render the value. *)
Definition to_str (c : cell) : string :=
  match c with NaN => "nan" | Str s => s end.

End Cell.

(** [bool(x)] for [x : Optional[str]]. *)
Definition opt_truthy (a : option string) : bool :=
  match a with
  | None => false
  | Some "" => false
  | Some _ => true
  end.

(** The [str] held by a value that passed the test [if x:]. *)
Definition text_value (a : option string) : string :=
  match a with Some s => s | None => "" end.

(** [x or ''] *)
Definition or_empty (a : option string) : string :=
  if opt_truthy a then match a with Some s => s | None => "" end else "".

(** ** Parsed HTML: the tree BeautifulSoup builds *)

Inductive node : Type :=
| Text (s : string)
| Elem (tag : string) (attrs : list (string * string)) (children : list node).

Module Soup.
Import Chars.

(** [tag.get(key, default)] on the attribute dictionary. *)
Fixpoint attr_get (attrs : list (string * string)) (key default : string) : string :=
  match attrs with
  | [] => default
  | (k, v) :: rest => if String.eqb k key then v else attr_get rest key default
  end.

Fixpoint attr_find (attrs : list (string * string)) (key : string) : option string :=
  match attrs with
  | [] => None
  | (k, v) :: rest => if String.eqb k key then Some v else attr_find rest key
  end.

(** The white-space separated tokens of a [class] attribute. *)
Fixpoint tokens_from (cur : string) (l : list ascii) : list string :=
  match l with
  | [] => match cur with "" => [] | _ => [cur] end
  | c :: l' =>
      if is_space c
      then match cur with "" => tokens_from "" l' | _ => cur :: tokens_from "" l' end
      else tokens_from (cur ++ String c "")%string l'
  end.

Definition class_tokens (v : string) : list string :=
  tokens_from "" (list_ascii_of_string v).

(** What [find(name, {attr: value})] looks for.  [class] is multi-valued:
    one of its tokens has to be the value; any other attribute has to be
    the value itself. *)
Record selector : Type := Selector {
  sel_tag : string;
  sel_attr : string;
  sel_value : string
}.

Definition matches (sel : selector) (tag : string) (attrs : list (string * string)) : bool :=
  String.eqb tag (sel_tag sel) &&
  match attr_find attrs (sel_attr sel) with
  | None => false
  | Some v =>
      if String.eqb (sel_attr sel) "class"
      then existsb (String.eqb (sel_value sel)) (class_tokens v)
      else String.eqb v (sel_value sel)
  end.

(** First matching element of the subtree of [n], [n] included, in
    document order. *)
Fixpoint find_node (sel : selector) (n : node) : option node :=
  match n with
  | Text _ => None
  | Elem tag attrs children =>
      if matches sel tag attrs then Some n
      else
        (fix find_list (l : list node) : option node :=
           match l with
           | [] => None
           | x :: l' =>
               match find_node sel x with
               | Some r => Some r
               | None => find_list l'
               end
           end) children
  end.

(** [soup.find(...)] and [tag.find(...)]: first match among the
    descendants. *)
Fixpoint find (sel : selector) (nodes : list node) : option node :=
  match nodes with
  | [] => None
  | x :: rest =>
      match find_node sel x with
      | Some r => Some r
      | None => find sel rest
      end
  end.

Definition children_of (n : node) : list node :=
  match n with Text _ => [] | Elem _ _ ch => ch end.

Definition attrs_of (n : node) : list (string * string) :=
  match n with Text _ => [] | Elem _ a _ => a end.

(** [tag.get_text()]: the strings of the subtree, concatenated. *)
Fixpoint get_text (n : node) : string :=
  match n with
  | Text s => s
  | Elem _ _ children =>
      (fix texts (l : list node) : string :=
         match l with
         | [] => ""
         | x :: l' => (get_text x ++ texts l')%string
         end) children
  end.

Definition sel_abstract_section : selector := Selector "section" "id" "abstractSection".
Definition sel_abstract_div : selector := Selector "div" "class" "abstract".
Definition sel_meta_description : selector := Selector "meta" "name" "description".
Definition sel_keyword_span : selector := Selector "span" "class" "keyword".

End Soup.

(** ** Decoded JSON: the value [response.json()] returns

    An object is the list of the entries of the dictionary, each key
    once; a number is kept as an integer, of which only its being zero
    matters here. *)

Inductive json : Type :=
| JNull
| JBool (b : bool)
| JNum (z : Z)
| JStr (s : string)
| JArr (items : list json)
| JObj (fields : list (string * json)).

(** ** Exceptions, trace events and the monad of effectful code *)

Inductive exn : Type :=
| RequestException (detail : string)   (* connection error, timeout, bad URL *)
| HTTPError (status : nat)             (* raise_for_status() *)
| ParserError (detail : string)        (* BeautifulSoup(...) *)
| JSONDecodeError                      (* response.json() *)
| AttributeError (detail : string)     (* .get on a value that is no dict *)
| TypeError (detail : string)          (* re.sub on a value that is no str *)
| OSError (detail : string)            (* file system *)
| IndexError (detail : string)         (* position outside the frame *)
| OtherException (detail : string).

Inductive outcome (A : Type) : Type :=
| Ok (a : A)
| Raise (e : exn).
Arguments Ok {A} a.
Arguments Raise {A} e.

Inductive level : Type := DEBUG | INFO | WARNING | ERROR.

Inductive scope : Type := InDocument | InSection.

Inductive message : Type :=
| MsgScopusError (url : string) (e : exn)      (* "Error extracting from Scopus URL ..." *)
| MsgCrossRefFailed (doi : string) (e : exn)   (* "CrossRef API failed for DOI ..." *)
| MsgPaperStatus (k n : nat) (status : string) (* "Paper k/n: <status>" *)
| MsgPaperFailed (k n : nat)                   (* "Paper k/n: Failed" *)
| MsgCheckpointSaved (k : nat)                 (* "Checkpoint saved at k papers" *)
| MsgProcessingError (k : nat) (e : exn).      (* "Error processing paper k: ..." *)

Inductive event : Type :=
| EvGet (url : string) (timeout : nat)         (* session.get(url, timeout=...) *)
| EvFind (where_ : scope) (sel : Soup.selector)(* soup.find / section.find *)
| EvScopus (url : string)                      (* extract_from_scopus entered *)
| EvDoi (doi : string)                         (* extract_from_doi entered *)
| EvLog (lvl : level) (msg : message)          (* logging.<lvl>(msg) *)
| EvProcess (i : nat)                          (* process_paper(df.iloc[i]) called *)
| EvToCsv (i : nat) (rows : list (string * string * string)) (* to_csv(CHECKPOINT_FILE) *)
| EvSleep (seconds : nat).                     (* time.sleep *)

(** A computation yields its trace and either a value or the exception it
    raised. *)
Definition M (A : Type) : Type := (list event * outcome A)%type.

Module Eff.

Definition ret {A} (a : A) : M A := ([], Ok a).

Definition raise {A} (e : exn) : M A := ([], Raise e).

Definition emit (ev : event) : M unit := ([ev], Ok tt).

Definition lift {A} (o : outcome A) : M A := ([], o).

Definition bind {A B} (m : M A) (f : A -> M B) : M B :=
  match m with
  | (t, Raise e) => (t, Raise e)
  | (t, Ok a) => let '(t', r) := f a in (t ++ t', r)
  end.

(** [try: body  except Exception as e: handler(e)] *)
Definition try_except {A} (body : M A) (handler : exn -> M A) : M A :=
  match body with
  | (t, Raise e) => let '(t', r) := handler e in (t ++ t', r)
  | (t, Ok a) => (t, Ok a)
  end.

Definition trace {A} (m : M A) : list event := fst m.
Definition result {A} (m : M A) : outcome A := snd m.

End Eff.

(** Kinds of events, for the statements about traces. *)
Module Trace.

Definition is_find (ev : event) : Prop :=
  match ev with EvFind _ _ => True | _ => False end.

(** No [extract_from_doi] call and no request to the metadata API (the
    only request with the timeout 10). *)
Definition no_fallback_event (ev : event) : Prop :=
  match ev with
  | EvDoi _ => False
  | EvGet _ 10 => False
  | _ => True
  end.

(** Events of the extractors, as opposed to those of the loop of [main]. *)
Definition extractor_event (ev : event) : Prop :=
  match ev with
  | EvProcess _ => False
  | EvToCsv _ _ => False
  | EvSleep _ => False
  | _ => True
  end.

End Trace.

Notation "x <- m ;; k" := (Eff.bind m (fun x => k))
  (at level 61, m at next level, right associativity).
Notation "m ;;; k" := (Eff.bind m (fun _ => k))
  (at level 61, right associativity).
Notation "' pat <- m ;; k" := (Eff.bind m (fun x => match x with pat => k end))
  (at level 61, pat pattern, m at next level, right associativity).

(** ** The outside world *)

(** What a request returns: the status code, the tree
    [BeautifulSoup(response.content, 'html.parser')] builds from the body
    and the value [response.json()] decodes from it (either may raise). *)
Record Response : Type := {
  status_code : nat;
  soup_of : outcome (list node);
  json_of : outcome json
}.

(** The network ([session.get(url, timeout=t)] returns a response or raises)
    and the file system ([to_csv] after record [i] succeeds or raises). *)
Record World : Type := {
  session_get : string -> nat -> outcome Response;
  to_csv_fault : nat -> option exn
}.

(** [response.raise_for_status()]: an [HTTPError] for the client and
    server error codes. *)
Definition http_error (r : Response) : bool :=
  (400 <=? status_code r) && (status_code r <? 600).

Definition raise_for_status (r : Response) : M unit :=
  if http_error r
  then Eff.raise (HTTPError (status_code r))
  else Eff.ret tt.

(** ** Field Extractor: [PaperExtractor.extract_from_scopus] *)

Module FieldExtractor.
Import Soup.

Definition find_in (where_ : scope) (sel : selector) (nodes : list node) : M (option node) :=
  Eff.emit (EvFind where_ sel) ;;; Eff.ret (find sel nodes).

Definition text_of (n : node) : string := Normalizer.clean_text (Some (get_text n)).

(** Lines 64-90: the three abstract strategies and the keyword lookup. *)
Definition scan (soup : list node) : M (option string * option string) :=
  (* Strategy 1: Look for abstract section *)
  let abstract := None in
  abstract_section <- find_in InDocument sel_abstract_section soup ;;
  abstract <-
    match abstract_section with
    | Some section =>
        abstract_text <- find_in InSection sel_abstract_div (children_of section) ;;
        match abstract_text with
        | Some d => Eff.ret (Some (text_of d))
        | None => Eff.ret abstract
        end
    | None => Eff.ret abstract
    end ;;
  (* Strategy 2: Try alternative selectors *)
  abstract <-
    (if negb (opt_truthy abstract) then
       abstract_div <- find_in InDocument sel_abstract_div soup ;;
       match abstract_div with
       | Some d => Eff.ret (Some (text_of d))
       | None => Eff.ret abstract
       end
     else Eff.ret abstract) ;;
  (* Strategy 3: Look for meta tags *)
  abstract <-
    (if negb (opt_truthy abstract) then
       meta_abstract <- find_in InDocument sel_meta_description soup ;;
       match meta_abstract with
       | Some m => Eff.ret (Some (Normalizer.clean_text (Some (attr_get (attrs_of m) "content" ""))))
       | None => Eff.ret abstract
       end
     else Eff.ret abstract) ;;
  (* Extract keywords *)
  let keywords := None in
  keywords_section <- find_in InDocument sel_keyword_span soup ;;
  let keywords :=
    match keywords_section with
    | Some k => Some (text_of k)
    | None => keywords
    end in
  Eff.ret (abstract, keywords).

(** The [try] block (lines 59-90). *)
Definition scopus_try (w : World) (url : string) : M (option string * option string) :=
  Eff.emit (EvGet url 15) ;;;
  response <- Eff.lift (session_get w url 15) ;;
  raise_for_status response ;;;
  soup <- Eff.lift (soup_of response) ;;
  scan soup.

Definition extract_from_scopus (w : World) (url : string)
  : M (option string * option string) :=
  Eff.emit (EvScopus url) ;;;
  Eff.try_except
    (scopus_try w url)
    (fun e =>
       Eff.emit (EvLog ERROR (MsgScopusError url e)) ;;;
       Eff.ret (None, None)).

(** *** The strategies one by one, for the statements about [scan] *)

Definition strategy_a (soup : list node) : option string :=
  match find sel_abstract_section soup with
  | Some section => option_map text_of (find sel_abstract_div (children_of section))
  | None => None
  end.

Definition strategy_b (soup : list node) : option string :=
  option_map text_of (find sel_abstract_div soup).

Definition strategy_c (soup : list node) : option string :=
  option_map (fun m => Normalizer.clean_text (Some (attr_get (attrs_of m) "content" "")))
             (find sel_meta_description soup).

Definition keyword_lookup (soup : list node) : option string :=
  option_map text_of (find sel_keyword_span soup).

(** A strategy succeeds when it yields a text that is not empty. *)
Definition success (a : option string) : option string :=
  if opt_truthy a then a else None.

(** The specification's wording: the strategies in their order, the first
    success wins. *)
Fixpoint first_success (strategies : list (option string)) : option string :=
  match strategies with
  | [] => None
  | s :: rest => if opt_truthy s then s else first_success rest
  end.

Inductive strategy : Type := StrategyA | StrategyB | StrategyC | KeywordLookup.

Definition selector_eqb (x y : selector) : bool :=
  String.eqb (sel_tag x) (sel_tag y)
  && String.eqb (sel_attr x) (sel_attr y)
  && String.eqb (sel_value x) (sel_value y).

(** The lookup in the whole document that opens each strategy. *)
Definition strategy_of (ev : event) : list strategy :=
  match ev with
  | EvFind InDocument sel =>
      if selector_eqb sel sel_abstract_section then [StrategyA]
      else if selector_eqb sel sel_abstract_div then [StrategyB]
      else if selector_eqb sel sel_meta_description then [StrategyC]
      else if selector_eqb sel sel_keyword_span then [KeywordLookup]
      else []
  | _ => []
  end.

Definition strategies_tried (t : list event) : list strategy :=
  flat_map strategy_of t.

(** The order the specification prescribes, given what (a) and (b)
    yield. *)
Definition prescribed_order (a b : option string) : list strategy :=
  StrategyA
    :: (if opt_truthy a then []
        else StrategyB :: (if opt_truthy b then [] else [StrategyC]))
    ++ [KeywordLookup].

End FieldExtractor.

(** ** Fallback Metadata Client: [PaperExtractor.extract_from_doi] *)

Module FallbackClient.

(** [d.get(key, default)]; a value that is no dictionary has no [get]. *)
Fixpoint fields_get (fields : list (string * json)) (key : string) : option json :=
  match fields with
  | [] => None
  | (k, v) :: rest => if String.eqb k key then Some v else fields_get rest key
  end.

Definition dict_get (d : json) (key : string) (default : json) : M json :=
  match d with
  | JObj fields =>
      Eff.ret (match fields_get fields key with Some v => v | None => default end)
  | _ => Eff.raise (AttributeError "get")
  end.

(** [bool(x)] of a decoded JSON value. *)
Definition json_truthy (v : json) : bool :=
  match v with
  | JNull => false
  | JBool b => b
  | JNum z => negb (Z.eqb z 0)
  | JStr "" => false
  | JStr _ => true
  | JArr [] => false
  | JArr _ => true
  | JObj [] => false
  | JObj _ => true
  end.

(** [self.clean_text(abstract)] on a true value: [re.sub] takes a [str]
    only. *)
Definition clean_value (v : json) : M string :=
  match v with
  | JStr s => Eff.ret (Normalizer.clean_text (Some s))
  | _ => Eff.raise (TypeError "expected string or bytes-like object")
  end.

Definition api_url (doi : string) : string :=
  ("https://api.crossref.org/works/" ++ doi)%string.

(** The [try] block answers [Some r] when it executes [return r] and
    [None] when control leaves it at its end. *)
Definition doi_try (w : World) (doi : string)
  : M (option (option string * option string)) :=
  Eff.emit (EvGet (api_url doi) 10) ;;;
  response <- Eff.lift (session_get w (api_url doi) 10) ;;
  raise_for_status response ;;;
  data <- Eff.lift (json_of response) ;;
  message <- dict_get data "message" (JObj []) ;;
  abstract <- dict_get message "abstract" (JStr "") ;;
  if json_truthy abstract then
    cleaned <- clean_value abstract ;;
    Eff.ret (Some (Some cleaned, @None string))
  else Eff.ret None.

Definition extract_from_doi (w : World) (doi : string)
  : M (option string * option string) :=
  Eff.emit (EvDoi doi) ;;;
  returned <-
    Eff.try_except
      (doi_try w doi)
      (fun e =>
         Eff.emit (EvLog DEBUG (MsgCrossRefFailed doi e)) ;;;
         Eff.ret None) ;;
  match returned with
  | Some r => Eff.ret r
  | None => Eff.ret (None, None)
  end.

End FallbackClient.

(** ** Paper Processor: [PaperExtractor.process_paper] *)

Inductive status : Type := Failed | SuccessScopus | SuccessDOI.

Definition status_text (s : status) : string :=
  match s with
  | Failed => "Failed"
  | SuccessScopus => "Success - Scopus"
  | SuccessDOI => "Success - DOI"
  end.

(** The dictionary [result]. *)
Record Result : Type := {
  r_Abstract : string;
  r_Keywords : string;
  r_Status : status
}.

(** A row of the working frame, [df.iloc[i]]. *)
Record Row : Type := {
  Link : cell;
  DOI : cell;
  Abstract : cell;
  Keywords : cell
}.

Module PaperProcessor.

(** Lines 125-132.  [Some r] stands for the statement [return result]
    with the dictionary [r], [None] for leaving the block. *)
Definition try_scopus (w : World) (scopus_url : cell) : M (option Result) :=
  if Cell.truthy scopus_url then
    '(abstract, keywords) <-
       FieldExtractor.extract_from_scopus w (Cell.to_str scopus_url) ;;
    if opt_truthy abstract then
      Eff.ret (Some {| r_Abstract := text_value abstract;
                       r_Keywords := or_empty keywords;
                       r_Status := SuccessScopus |})
    else Eff.ret None
  else Eff.ret None.

(** Lines 134-141. *)
Definition try_doi (w : World) (doi : cell) : M (option Result) :=
  if Cell.truthy doi then
    '(abstract, keywords) <-
       FallbackClient.extract_from_doi w (Cell.to_str doi) ;;
    if opt_truthy abstract then
      Eff.ret (Some {| r_Abstract := text_value abstract;
                       r_Keywords := or_empty keywords;
                       r_Status := SuccessDOI |})
    else Eff.ret None
  else Eff.ret None.

Definition process_paper (w : World) (row : Row) : M Result :=
  let scopus_url := Link row in
  let doi := DOI row in
  let result := {| r_Abstract := ""; r_Keywords := ""; r_Status := Failed |} in
  (* Try Scopus URL first *)
  returned <- try_scopus w scopus_url ;;
  match returned with
  | Some r => Eff.ret r
  | None =>
      (* Fallback to DOI *)
      returned <- try_doi w doi ;;
      match returned with
      | Some r => Eff.ret r
      | None => Eff.ret result
      end
  end.

(** An outcome of one of the two successful branches. *)
Definition success_shaped (r : Result) : Prop :=
  r_Status r <> Failed /\ r_Abstract r <> "".

End PaperProcessor.

(** ** Batch Run Controller: [main] *)

(** A row of the sheet [read_excel] loads. *)
Record Paper : Type := {
  p_Link : cell;
  p_DOI : cell
}.

(** The lines of the checkpoint file below its header: the text of the
    columns [Link], [Abstract], [Keywords]. *)
Definition csv : Type := list (string * string * string).

(** A row of [checkpoint_df]. *)
Record CheckpointRow : Type := {
  c_Link : cell;
  c_Abstract : cell;
  c_Keywords : cell
}.

(** The final state of a run: the frame written to the output file, the
    printed statistics, the checkpoint file and the trace. *)
Record Report : Type := {
  output : list Row;
  printed_total : nat;
  printed_success_count : nat;
  printed_success_rate : string;
  checkpoint_left : option csv;
  run_trace : list event
}.

(** The state of the loop: the frame [df], the checkpoint file and the
    trace so far. *)
Record Store : Type := {
  df : list Row;
  checkpoint_file : option csv;
  events : list event
}.

Module Controller.

Definition BATCH_SIZE : nat := 50.
Definition rate_limit : nat := 2.

(** *** Reading and writing the checkpoint *)

(** The texts [read_csv] reads as a missing value (its default list; the
    empty field is the first). *)
Definition na_values : list string :=
  [""; "#N/A"; "#N/A N/A"; "#NA"; "-1.#IND"; "-1.#QNAN"; "-NaN"; "-nan";
   "1.#IND"; "1.#QNAN"; "<NA>"; "N/A"; "NA"; "NULL"; "NaN"; "None"; "n/a";
   "nan"; "null"].

Definition read_cell (field : string) : cell :=
  if existsb (String.eqb field) na_values then NaN else Str field.

Definition read_csv (file : csv) : list CheckpointRow :=
  map (fun '(l, a, k) =>
         {| c_Link := read_cell l; c_Abstract := read_cell a; c_Keywords := read_cell k |})
      file.

(** [to_csv] writes a missing value as the empty field. *)
Definition write_cell (c : cell) : string :=
  match c with NaN => "" | Str s => s end.

(** [df[['Link', 'Abstract', 'Keywords']].to_csv(..., index=False)]: one
    line for every row of the frame. *)
Definition to_csv (frame : list Row) : csv :=
  map (fun r => (write_cell (Link r), write_cell (Abstract r), write_cell (Keywords r)))
      frame.

(** *** Resuming *)

Definition with_columns (p : Paper) (a k : cell) : Row :=
  {| Link := p_Link p; DOI := p_DOI p; Abstract := a; Keywords := k |}.

Definition matching (key : cell) (checkpoint_df : list CheckpointRow) : list CheckpointRow :=
  filter (fun c => Cell.eqb (c_Link c) key) checkpoint_df.

(** [df.merge(checkpoint_df, on='Link', how='left')]: the rows of [df] in
    their order, each once for every row of the checkpoint with its key
    and once with missing values when there is none. *)
Definition merge_left (papers : list Paper) (checkpoint_df : list CheckpointRow) : list Row :=
  flat_map
    (fun p =>
       match matching (p_Link p) checkpoint_df with
       | [] => [with_columns p NaN NaN]
       | ms => map (fun c => with_columns p (c_Abstract c) (c_Keywords c)) ms
       end)
    papers.

(** [df['Abstract'] = df_merged['Abstract']] and the same for
    [Keywords]: row [i] of [df] takes the values at index [i] of the
    merged frame. *)
Definition assign_columns (papers : list Paper) (df_merged : list Row) : list Row :=
  map (fun '(p, m) => with_columns p (Abstract m) (Keywords m)) (combine papers df_merged).

(** [df['Abstract'].notna().sum()] *)
Definition count_notna (frame : list Row) : nat :=
  List.length (filter (fun r => Cell.notna (Abstract r)) frame).

(** Lines 164-175: the frame and [start_index] the loop starts with. *)
Definition resume (papers : list Paper) (file : option csv) : list Row * nat :=
  match file with
  | Some f =>
      let checkpoint_df := read_csv f in
      let df_merged := merge_left papers checkpoint_df in
      let frame := assign_columns papers df_merged in
      (frame, count_notna frame)
  | None =>
      (map (fun p => with_columns p (Str "") (Str "")) papers, 0)
  end.

(** *** Iterating *)

Definition record (ev : event) (st : Store) : Store :=
  {| df := df st; checkpoint_file := checkpoint_file st; events := events st ++ [ev] |}.

Definition record_all (evs : list event) (st : Store) : Store :=
  {| df := df st; checkpoint_file := checkpoint_file st; events := events st ++ evs |}.

Fixpoint update_at (i : nat) (f : Row -> Row) (frame : list Row) : list Row :=
  match frame, i with
  | [], _ => []
  | r :: rest, O => f r :: rest
  | r :: rest, S i' => r :: update_at i' f rest
  end.

(** [df.at[i, 'Abstract'] = v] *)
Definition set_Abstract (i : nat) (v : string) (st : Store) : Store :=
  {| df := update_at i (fun r => {| Link := Link r; DOI := DOI r;
                                    Abstract := Str v; Keywords := Keywords r |}) (df st);
     checkpoint_file := checkpoint_file st; events := events st |}.

(** [df.at[i, 'Keywords'] = v] *)
Definition set_Keywords (i : nat) (v : string) (st : Store) : Store :=
  {| df := update_at i (fun r => {| Link := Link r; DOI := DOI r;
                                    Abstract := Abstract r; Keywords := Str v |}) (df st);
     checkpoint_file := checkpoint_file st; events := events st |}.

(** [to_csv(CHECKPOINT_FILE)] replaces the file. *)
Definition save_checkpoint (i : nat) (st : Store) : Store :=
  {| df := df st; checkpoint_file := Some (to_csv (df st));
     events := events st ++ [EvToCsv i (to_csv (df st))] |}.

(** The [except Exception as e] clause of the loop. *)
Definition on_exception (i : nat) (e : exn) (st : Store) : Store :=
  record (EvLog ERROR (MsgProcessingError (i + 1) e)) st.

(** One turn of the loop (lines 184-207) for the index [i].  [proc] is
    the call [extractor.process_paper]; [fault i] is the exception
    [to_csv] raises after record [i], if it raises (the file is then left
    as it was).  [df.iloc[i]] raises outside the frame, which the range of
    the loop excludes.  The frame is updated in place: what has been
    written back stays when a later statement of the turn raises. *)
Definition loop_body (proc : Row -> M Result) (fault : nat -> option exn)
           (i : nat) (st : Store) : Store :=
  let total := List.length (df st) in
  match nth_error (df st) i with
  | None => on_exception i (IndexError "iloc") st
  | Some row =>
      let st := record (EvProcess i) st in
      match proc row with
      | (t, Raise e) => on_exception i e (record_all t st)
      | (t, Ok result) =>
          let st := record_all t st in
          let st := set_Abstract i (r_Abstract result) st in
          let st := set_Keywords i (r_Keywords result) st in
          (* Log progress *)
          let st :=
            if String.prefix "Success" (status_text (r_Status result))
            then record (EvLog INFO (MsgPaperStatus (i + 1) total (status_text (r_Status result)))) st
            else record (EvLog WARNING (MsgPaperFailed (i + 1) total)) st in
          (* Save checkpoint every BATCH_SIZE papers *)
          if (i + 1) mod BATCH_SIZE =? 0 then
            match fault i with
            | Some e => on_exception i e st
            | None =>
                let st := save_checkpoint i st in
                let st := record (EvLog INFO (MsgCheckpointSaved (i + 1))) st in
                (* Rate limiting *)
                record (EvSleep rate_limit) st
            end
          else
            (* Rate limiting *)
            record (EvSleep rate_limit) st
      end
  end.

(** [for i in range(start_index, len(df))] *)
Definition iterate (proc : Row -> M Result) (fault : nat -> option exn)
           (start_index : nat) (st : Store) : Store :=
  fold_left (fun st i => loop_body proc fault i st)
            (seq start_index (List.length (df st) - start_index)) st.

(** *** Finalizing *)

(** [df['Abstract'].astype(bool).sum()] *)
Definition success_count (frame : list Row) : nat :=
  List.length (filter (fun r => Cell.truthy (Abstract r)) frame).

Definition two_digits (n : N) : string :=
  ((if (n <? 10)%N then "0" else "") ++ NilZero.string_of_uint (N.to_uint n))%string.

(** Rounding of the quotient [num / den] (with [0 < den]) to the nearest
    integer, ties to the even one. *)
Definition round_half_even (num den : Z) : Z :=
  let q := (num / den)%Z in
  let r := (num mod den)%Z in
  if (2 * r <? den)%Z then q
  else if (den <? 2 * r)%Z then (q + 1)%Z
  else if Z.even q then q else (q + 1)%Z.

(** A non-negative [float] (IEEE 754 binary64) in its normal range: the
    pair [(m, e)] stands for [m * 2 ^ e], with [m] of at most 53 bits. *)
Definition float64 : Type := (Z * Z)%type.

(** The [float] nearest to [num / den] (with [0 <= num], [0 < den]), ties
    to the even mantissa: the exponent is chosen so that the quotient
    scaled by it lies between [2 ^ 52] and [2 ^ 53].  The numbers of
    [main] are far from the ends of the exponent range. *)
Definition to_float64 (num den : Z) : float64 :=
  if (num =? 0)%Z then (0, 0)%Z
  else
    let d := (Z.log2 num - Z.log2 den)%Z in
    let above :=
      if (0 <=? d)%Z then (den * 2 ^ d <=? num)%Z else (den <=? num * 2 ^ (- d))%Z in
    let e := ((if above then d else d - 1) - 52)%Z in
    (round_half_even (num * 2 ^ Z.max 0 (- e)) (den * 2 ^ Z.max 0 e), e).

(** [count / total] of two integers: the true division. *)
Definition float_div (count total : nat) : float64 :=
  to_float64 (Z.of_nat count) (Z.of_nat total).

(** [x * k] for an integer [k]. *)
Definition float_mul (x : float64) (k : Z) : float64 :=
  let '(m, e) := x in
  to_float64 (m * k * 2 ^ Z.max 0 e) (2 ^ Z.max 0 (- e)).

(** The number of hundredths [f"{x:.2f}"] prints: the exact value of the
    [float], rounded to two decimals, ties to even. *)
Definition hundredths (x : float64) : Z :=
  let '(m, e) := x in
  round_half_even (m * 100 * 2 ^ Z.max 0 e) (2 ^ Z.max 0 (- e)).

(** [success_rate = (success_count / len(df)) * 100] printed as
    [f"{success_rate:.2f}"]; the quotient by zero is [nan]. *)
Definition format_rate (count total : nat) : string :=
  match total with
  | O => "nan"
  | _ =>
      let success_rate := float_mul (float_div count total) 100 in
      let h := Z.to_N (hundredths success_rate) in
      (NilZero.string_of_uint (N.to_uint (h / 100)) ++ "." ++ two_digits (h mod 100))%string
  end.

(** [main], for any behaviour of the call [extractor.process_paper] and of
    the checkpoint write, so that the [except] clause of the loop is
    specified for every exception the call can raise. *)
Definition main_with (proc : Row -> M Result) (fault : nat -> option exn)
           (papers : list Paper) (file : option csv) : Report :=
  let '(frame, start_index) := resume papers file in
  let st := iterate proc fault start_index
              {| df := frame; checkpoint_file := file; events := [] |} in
  let count := success_count (df st) in
  {| output := df st;
     printed_total := List.length (df st);
     printed_success_count := count;
     printed_success_rate := format_rate count (List.length (df st));
     checkpoint_left := None;       (* os.remove(CHECKPOINT_FILE) when it exists *)
     run_trace := events st |}.

(** [main] in a world [w]. *)
Definition main (w : World) (papers : list Paper) (file : option csv) : Report :=
  main_with (PaperProcessor.process_paper w) (to_csv_fault w) papers file.

(** *** Reading the trace *)

(** The two events of the loop the claims count. *)
Inductive milestone : Type :=
| Processed (i : nat)
| Written (i : nat).

Definition milestone_of (ev : event) : list milestone :=
  match ev with
  | EvProcess i => [Processed i]
  | EvToCsv i _ => [Written i]
  | _ => []
  end.

Definition milestones (t : list event) : list milestone := flat_map milestone_of t.

(** The positions handed to the Paper Processor, in the order of the
    calls. *)
Definition processed_indices (t : list event) : list nat :=
  flat_map (fun m => match m with Processed i => [i] | Written _ => [] end) (milestones t).

(** The positions after which the checkpoint was written. *)
Definition checkpoint_writes (t : list event) : list nat :=
  flat_map (fun m => match m with Written i => [i] | Processed _ => [] end) (milestones t).

Fixpoint count_until_write (ms : list milestone) : option nat :=
  match ms with
  | [] => None
  | Written _ :: _ => Some 0
  | Processed _ :: rest => option_map S (count_until_write rest)
  end.

(** Number of records processed before the first checkpoint write of the
    trace, if there is one. *)
Definition processed_before_first_write (t : list event) : option nat :=
  count_until_write (milestones t).

(** *** Notions used by the statements *)

(** Number of records whose abstract holds a text. *)
Definition count_nonempty (frame : list Row) : nat :=
  List.length (filter (fun r => Cell.nonempty (Abstract r)) frame).

(** The link values of the checkpoint are pairwise different. *)
Fixpoint distinct_links (ck : list CheckpointRow) : bool :=
  match ck with
  | [] => true
  | c :: rest =>
      negb (existsb (fun c' => Cell.eqb (c_Link c') (c_Link c)) rest)
      && distinct_links rest
  end.

(** The entry of the checkpoint with a given link. *)
Definition lookup (key : cell) (ck : list CheckpointRow) : option CheckpointRow :=
  List.find (fun c => Cell.eqb (c_Link c) key) ck.

(** The row a record becomes when the checkpoint is joined to it. *)
Definition joined (ck : list CheckpointRow) (p : Paper) : Row :=
  match lookup (p_Link p) ck with
  | Some c => with_columns p (c_Abstract c) (c_Keywords c)
  | None => with_columns p NaN NaN
  end.

(** The first [k] rows hold an abstract and no later row does. *)
Fixpoint covers_first (k : nat) (frame : list Row) : bool :=
  match frame, k with
  | [], O => true
  | [], S _ => false
  | r :: rest, O => negb (Cell.nonempty (Abstract r)) && covers_first 0 rest
  | r :: rest, S k' => Cell.nonempty (Abstract r) && covers_first k' rest
  end.

(** [to_csv] does not raise after record [i]. *)
Definition no_fault (fault : nat -> option exn) (i : nat) : bool :=
  match fault i with None => true | Some _ => false end.

(** The checkpoint is due after record [i] and can be written. *)
Definition writes_at (fault : nat -> option exn) (i : nat) : bool :=
  ((i + 1) mod BATCH_SIZE =? 0) && no_fault fault i.

(** What a turn without exception in the Paper Processor adds to the
    milestones of the trace. *)
Definition step_marks (fault : nat -> option exn) (i : nat) : list milestone :=
  Processed i :: (if writes_at fault i then [Written i] else []).

(** The event, if a checkpoint write, holds one line for each of the [n]
    records, with the links [links] in their order. *)
Definition whole_frame (n : nat) (links : list string) (ev : event) : Prop :=
  match ev with
  | EvToCsv _ rows =>
      List.length rows = n /\ map (fun line => fst (fst line)) rows = links
  | _ => True
  end.

(** A cell [read_csv] can yield: not the empty text. *)
Definition known (c : cell) : Prop := c <> Str "".

(** The row holds a text (possibly empty), not the missing value. *)
Definition holds_text (r : Row) : Prop := Cell.notna (Abstract r) = true.

(** The frame after the write-back of a result at [i]. *)
Definition written_back (i : nat) (res : Result) (frame : list Row) : list Row :=
  df (set_Keywords i (r_Keywords res)
        (set_Abstract i (r_Abstract res)
           {| df := frame; checkpoint_file := None; events := [] |})).

Definition progress_event (i total : nat) (res : Result) : event :=
  if String.prefix "Success" (status_text (r_Status res))
  then EvLog INFO (MsgPaperStatus (i + 1) total (status_text (r_Status res)))
  else EvLog WARNING (MsgPaperFailed (i + 1) total).

(** The row after the write-back of a result. *)
Definition filled (row : Row) (res : Result) : Row :=
  {| Link := Link row; DOI := DOI row;
     Abstract := Str (r_Abstract res); Keywords := Str (r_Keywords res) |}.

(** The loop over a list of positions. *)
Definition run_over (proc : Row -> M Result) (fault : nat -> option exn)
           (idxs : list nat) (st : Store) : Store :=
  fold_left (fun st i => loop_body proc fault i st) idxs st.

(** The state the loop starts in. *)
Definition initial (papers : list Paper) (file : option csv) : Store :=
  {| df := fst (resume papers file); checkpoint_file := file; events := [] |}.

Definition is_error_log (ev : event) : bool :=
  match ev with EvLog ERROR _ => true | _ => false end.

(** Both output fields of the row are empty: the empty text or the
    missing value. *)
Definition fields_empty (r : Row) : bool :=
  negb (Cell.nonempty (Abstract r)) && negb (Cell.nonempty (Keywords r)).

End Controller.

(** ** What makes the [try] blocks raise *)

Module Failure.
Import FieldExtractor FallbackClient.

(** Failures of [extract_from_scopus]: the request raises, the status is
    an error status, or the body cannot be parsed. *)
Inductive scopus_failure (w : World) (url : string) : exn -> Prop :=
| ScopusRequest e :
    session_get w url 15 = Raise e ->
    scopus_failure w url e
| ScopusStatus response :
    session_get w url 15 = Ok response ->
    http_error response = true ->
    scopus_failure w url (HTTPError (status_code response))
| ScopusParse response e :
    session_get w url 15 = Ok response ->
    http_error response = false ->
    soup_of response = Raise e ->
    scopus_failure w url e.

(** The decoded body of a successful request to the metadata API. *)
Definition api_data (w : World) (doi : string) (data : json) : Prop :=
  exists response,
    session_get w (api_url doi) 10 = Ok response
    /\ http_error response = false
    /\ json_of response = Ok data.

(** Failures of [extract_from_doi]: the request raises, the status is an
    error status, the body is no JSON, or the data has not the expected
    shape. *)
Inductive doi_failure (w : World) (doi : string) : exn -> Prop :=
| DoiRequest e :
    session_get w (api_url doi) 10 = Raise e ->
    doi_failure w doi e
| DoiStatus response :
    session_get w (api_url doi) 10 = Ok response ->
    http_error response = true ->
    doi_failure w doi (HTTPError (status_code response))
| DoiMalformed response e :
    session_get w (api_url doi) 10 = Ok response ->
    http_error response = false ->
    json_of response = Raise e ->
    doi_failure w doi e
| DoiNoDict data :
    api_data w doi data ->
    (forall fields, data <> JObj fields) ->
    doi_failure w doi (AttributeError "get")
| DoiMessageNoDict fields message :
    api_data w doi (JObj fields) ->
    fields_get fields "message" = Some message ->
    (forall inner, message <> JObj inner) ->
    doi_failure w doi (AttributeError "get")
| DoiAbstractNoText fields inner abstract :
    api_data w doi (JObj fields) ->
    fields_get fields "message" = Some (JObj inner) ->
    fields_get inner "abstract" = Some abstract ->
    json_truthy abstract = true ->
    (forall s, abstract <> JStr s) ->
    doi_failure w doi (TypeError "expected string or bytes-like object").

(** The field is missing: no [message], or no [abstract] in it. *)
Inductive doi_field_missing (w : World) (doi : string) : Prop :=
| NoMessage fields :
    api_data w doi (JObj fields) ->
    fields_get fields "message" = None ->
    doi_field_missing w doi
| NoAbstract fields inner :
    api_data w doi (JObj fields) ->
    fields_get fields "message" = Some (JObj inner) ->
    fields_get inner "abstract" = None ->
    doi_field_missing w doi.

End Failure.

(** ** Concrete runs *)

Module Scenario.

(** A page with an abstract section and a keyword element. *)
Definition page_a : list node :=
  [Elem "html" []
     [Elem "body" []
        [Elem "section" [("id", "abstractSection")]
           [Elem "div" [("class", "main abstract")]
              [Text "Deep "; Elem "i" [] [Text "learning"]; Text "  works!"]];
         Elem "span" [("class", "keyword")] [Text "AI; ML"]]]].

Definition api_answer : json :=
  JObj [("status", JStr "ok");
        ("message", JObj [("abstract", JStr "<jats:p>Fallback text</jats:p>")])].

(** The link [http://a] answers with [page_a], the DOI [10.1/b] is known
    to the metadata API, and every other request fails. *)
Definition world3 : World :=
  {| session_get := fun url _ =>
       if String.eqb url "http://a" then
         Ok {| status_code := 200; soup_of := Ok page_a; json_of := Raise JSONDecodeError |}
       else if String.eqb url (FallbackClient.api_url "10.1/b") then
         Ok {| status_code := 200; soup_of := Ok []; json_of := Ok api_answer |}
       else Raise (RequestException "unreachable");
     to_csv_fault := fun _ => None |}.

(** The three records of the end-to-end scenario. *)
Definition papers3 : list Paper :=
  [ {| p_Link := Str "http://a"; p_DOI := NaN |};
    {| p_Link := Str "http://bad-b"; p_DOI := Str "10.1/b" |};
    {| p_Link := Str "http://bad-c"; p_DOI := NaN |} ].

(** A record whose link and whose DOI would both succeed. *)
Definition row_both : Row :=
  {| Link := Str "http://a"; DOI := Str "10.1/b"; Abstract := Str ""; Keywords := Str "" |}.

(** Every link answers with [page_a]. *)
Definition world_ok : World :=
  {| session_get := fun _ _ =>
       Ok {| status_code := 200; soup_of := Ok page_a; json_of := Raise JSONDecodeError |};
     to_csv_fault := fun _ => None |}.

(** As [world_ok], but the checkpoint cannot be written after the record
    at index 49 (the file is locked). *)
Definition world_locked : World :=
  {| session_get := session_get world_ok;
     to_csv_fault := fun i => if i =? 49 then Some (OSError "Permission denied") else None |}.

Definition link_of (i : nat) : string :=
  ("http://scopus/" ++ NilZero.string_of_uint (Nat.to_uint i))%string.

(** [n] records with pairwise different links and no DOI. *)
Definition papers_upto (n : nat) : list Paper :=
  map (fun i => {| p_Link := Str (link_of i); p_DOI := Str "" |}) (seq 0 n).

(** The checkpoint file a run leaves when the first [k] of [n] records
    have an abstract. *)
Definition checkpoint_upto (k n : nat) : csv :=
  map (fun i => (link_of i, if i <? k then "Deep learning works" else "",
                 if i <? k then "AI; ML" else ""))
      (seq 0 n).

(** A checkpoint of the three records in which the first has no abstract
    and the second has one. *)
Definition checkpoint_gap : csv :=
  [("http://a", "", ""); ("http://bad-b", "Fallback text", "ML"); ("http://bad-c", "", "")].

(** A processor that raises on the record with the link of index 1 and
    is [process_paper] on every other record. *)
Definition proc_flaky (row : Row) : M Result :=
  if Cell.eqb (Link row) (Str (link_of 1))
  then Eff.raise (OtherException "boom")
  else PaperProcessor.process_paper world_ok row.

(** A record with neither link nor DOI. *)
Definition row_bare : Row :=
  {| Link := Str ""; DOI := Str ""; Abstract := Str ""; Keywords := Str "" |}.

(** A page with a keyword element and no abstract. *)
Definition page_keywords_only : list node :=
  [Elem "html" []
     [Elem "body" [] [Elem "span" [("class", "keyword")] [Text "AI; ML"]]]].

(** The link [http://k] answers with [page_keywords_only]; otherwise as
    [world3]. *)
Definition world_keywords : World :=
  {| session_get := fun url t =>
       if String.eqb url "http://k" then
         Ok {| status_code := 200; soup_of := Ok page_keywords_only;
               json_of := Raise JSONDecodeError |}
       else session_get world3 url t;
     to_csv_fault := fun _ => None |}.

Definition row_keywords : Row :=
  {| Link := Str "http://k"; DOI := Str "10.1/b"; Abstract := Str ""; Keywords := Str "" |}.

Definition row_fallback : Row :=
  {| Link := Str "http://bad-b"; DOI := Str "10.1/b"; Abstract := Str ""; Keywords := Str "" |}.

(** A frame of three records after a run in which the second record
    failed. *)
Definition frame3 : list Row :=
  [ {| Link := Str "http://a"; DOI := NaN;
       Abstract := Str "Deep learning works"; Keywords := Str "AI; ML" |};
    {| Link := Str "http://bad-c"; DOI := NaN; Abstract := Str ""; Keywords := Str "" |};
    {| Link := Str "http://bad-b"; DOI := Str "10.1/b";
       Abstract := Str "Fallback text"; Keywords := Str "" |} ].

Definition papers_of_frame3 : list Paper :=
  [ {| p_Link := Str "http://a"; p_DOI := NaN |};
    {| p_Link := Str "http://bad-c"; p_DOI := NaN |};
    {| p_Link := Str "http://bad-b"; p_DOI := Str "10.1/b" |} ].

(** A checkpoint left by a run over other records. *)
Definition checkpoint_stale : csv :=
  [("http://other/1", "Some abstract", "kw"); ("http://other/2", "", "")].

(** A page whose only trace of an abstract is its description. *)
Definition page_meta_only : list node :=
  [Elem "html" []
     [Elem "head" []
        [Elem "meta" [("name", "description"); ("content", "A <b>short</b>  summary!")] []];
      Elem "body" [] [Elem "section" [("id", "abstractSection")] [Text "n/a"]]]].


(** A sheet that lists the work with the link [http://a] twice, and the
    frame of a run over it in which the third record failed. *)
Definition papers_twice : list Paper :=
  [ {| p_Link := Str "http://a"; p_DOI := NaN |};
    {| p_Link := Str "http://a"; p_DOI := NaN |};
    {| p_Link := Str "http://bad-c"; p_DOI := NaN |} ].

Definition frame_twice : list Row :=
  [ {| Link := Str "http://a"; DOI := NaN;
       Abstract := Str "Deep learning works"; Keywords := Str "AI; ML" |};
    {| Link := Str "http://a"; DOI := NaN;
       Abstract := Str "Deep learning works"; Keywords := Str "AI; ML" |};
    {| Link := Str "http://bad-c"; DOI := NaN; Abstract := Str ""; Keywords := Str "" |} ].

(** The checkpoint file with the lines [to_csv] writes for that frame. *)
Definition checkpoint_twice : csv :=
  [("http://a", "Deep learning works", "AI; ML");
   ("http://a", "Deep learning works", "AI; ML");
   ("http://bad-c", "", "")].

(** A sheet of 51 records that lists [http://a] twice and then 49 links
    that cannot be reached, and the checkpoint file of a run over it. *)
Definition papers_51 : list Paper :=
  {| p_Link := Str "http://a"; p_DOI := NaN |}
    :: {| p_Link := Str "http://a"; p_DOI := NaN |}
    :: map (fun i => {| p_Link := Str (link_of i); p_DOI := Str "" |}) (seq 2 49).

Definition checkpoint_51 : csv :=
  ("http://a", "Deep learning works", "AI; ML")
    :: ("http://a", "Deep learning works", "AI; ML")
    :: map (fun i => (link_of i, "", "")) (seq 2 49).

(** A record of the metadata API without an abstract. *)
Definition api_answer_bare : json :=
  JObj [("status", JStr "ok");
        ("message", JObj [("title", JArr [JStr "A title"])])].

(** The link [http://m] answers with the status 300 and [page_a] as its
    body; the metadata API knows the DOI [10.1/t], without an abstract;
    every other request fails. *)
Definition world_gaps : World :=
  {| session_get := fun url _ =>
       if String.eqb url "http://m" then
         Ok {| status_code := 300; soup_of := Ok page_a; json_of := Raise JSONDecodeError |}
       else if String.eqb url (FallbackClient.api_url "10.1/t") then
         Ok {| status_code := 200; soup_of := Ok []; json_of := Ok api_answer_bare |}
       else Raise (RequestException "unreachable");
     to_csv_fault := fun _ => None |}.


End Scenario.

(** ** Further notions, for the properties beyond the claims *)

Module Notions.
Import Chars Normalizer Controller.

(** The character is white space or outside the allow-set. *)
Definition vanishing (c : ascii) : bool := is_space c || negb (allowed c).

Definition is_lt (c : ascii) : bool := Ascii.eqb c lt_sign.
Definition is_gt (c : ascii) : bool := Ascii.eqb c gt_sign.

(** The requests of a trace, each with its timeout, in their order. *)
Definition requests (t : list event) : list (string * nat) :=
  flat_map (fun ev => match ev with EvGet u s => [(u, s)] | _ => [] end) t.

(** The dictionary [process_paper] returns for a row. *)
Definition outcome_of (w : World) (row : Row) : Result :=
  match Eff.result (PaperProcessor.process_paper w row) with
  | Ok r => r
  | Raise _ => {| r_Abstract := ""; r_Keywords := ""; r_Status := Failed |}
  end.

(** The requests the two tiers make for a row: the link first, when there
    is one, and the metadata API only when the first tier has not
    succeeded and there is a DOI. *)
Definition tier_requests (w : World) (row : Row) : list (string * nat) :=
  (if Cell.truthy (Link row) then [(Cell.to_str (Link row), 15)] else [])
  ++ (match r_Status (outcome_of w row) with
      | SuccessScopus => []
      | _ =>
          if Cell.truthy (DOI row)
          then [(FallbackClient.api_url (Cell.to_str (DOI row)), 10)]
          else []
      end).

(** The cell comes back from the checkpoint file as it was written. *)
Definition roundtrips (c : cell) : bool :=
  match c with
  | NaN => true
  | Str s => negb (existsb (String.eqb s) na_values)
  end.

(** A row as [read_csv] returns it after [to_csv] has written it. *)
Definition reread (r : Row) : Row :=
  {| Link := Link r; DOI := DOI r;
     Abstract := read_cell (write_cell (Abstract r));
     Keywords := read_cell (write_cell (Keywords r)) |}.

(** Number of records whose abstract is the missing value. *)
Definition count_missing (frame : list Row) : nat :=
  List.length (filter (fun r => negb (Cell.notna (Abstract r))) frame).

Definition is_sleep (ev : event) : bool :=
  match ev with EvSleep _ => true | _ => false end.

(** The pauses of a trace, with their lengths. *)
Definition sleeps (t : list event) : list nat :=
  flat_map (fun ev => match ev with EvSleep s => [s] | _ => [] end) t.

(** The checkpoint is due after record [i] and cannot be written. *)
Definition write_fails (fault : nat -> option exn) (i : nat) : bool :=
  ((i + 1) mod BATCH_SIZE =? 0) && negb (no_fault fault i).

(** The frame when the records [lo], ..., [hi - 1] have their results
    and the others are as they were. *)
Definition processed_between (w : World) (lo hi : nat) (frame : list Row) : list Row :=
  map (fun '(i, row) =>
         if (lo <=? i) && (i <? hi) then filled row (outcome_of w row) else row)
      (combine (seq 0 (List.length frame)) frame).

(** The checkpoint files a trace writes, each with the index of the
    record after which it is written. *)
Definition written_files (t : list event) : list (nat * csv) :=
  flat_map (fun ev => match ev with EvToCsv i rows => [(i, rows)] | _ => [] end) t.

(** The value is absent or a result of the Text Normalizer. *)
Definition normalized (o : option string) : Prop :=
  match o with
  | None => True
  | Some x => exists s, x = clean_text (Some s)
  end.

(** The events one turn of the loop adds for the record at [i], in a run
    of [main] that started at [start] with the frame [frame]: the call,
    the events of the Paper Processor, the progress line, and then either
    the pause, or the checkpoint with its line and the pause, or the error
    of a checkpoint that cannot be written. *)
Definition turn_events (w : World) (start : nat) (frame : list Row) (i : nat) : list event :=
  match nth_error frame i with
  | None => []
  | Some row =>
      EvProcess i
        :: Eff.trace (PaperProcessor.process_paper w row)
        ++ progress_event i (List.length frame) (outcome_of w row)
        :: (if (i + 1) mod BATCH_SIZE =? 0 then
              match to_csv_fault w i with
              | Some e => [EvLog ERROR (MsgProcessingError (i + 1) e)]
              | None =>
                  [EvToCsv i (to_csv (processed_between w start (S i) frame));
                   EvLog INFO (MsgCheckpointSaved (i + 1));
                   EvSleep rate_limit]
              end
            else [EvSleep rate_limit])
  end.

(** A row of the checkpoint as [read_csv] returns it after [to_csv] has
    written the row [r]. *)
Definition reread_entry (r : Row) : CheckpointRow :=
  {| c_Link := read_cell (write_cell (Link r));
     c_Abstract := read_cell (write_cell (Abstract r));
     c_Keywords := read_cell (write_cell (Keywords r)) |}.

(** No entry of the checkpoint has the link of a record. *)
Definition unrelated (papers : list Paper) (ck : list CheckpointRow) : bool :=
  forallb (fun p => negb (existsb (fun c => Cell.eqb (c_Link c) (p_Link p)) ck)) papers.

End Notions.

(* ================================================================== *)
(** * Part II: properties                                              *)
(* ================================================================== *)

(** ** Text Normalizer *)

Module NormalizerFacts.
Import Chars Normalizer.


Lemma space_is_space : is_space space = true.
Proof. reflexivity. Qed.

Lemma space_allowed : allowed space = true.
Proof. reflexivity. Qed.

Lemma lt_not_allowed : allowed lt_sign = false.
Proof. reflexivity. Qed.

Lemma no_double_space_cons (c d : ascii) (l : list ascii) :
  no_double_space (c :: d :: l)
  = negb (is_space c && is_space d) && no_double_space (d :: l).
Proof. reflexivity. Qed.

(** *** Tags *)

Lemma remove_tags_no_lt (l : list ascii) :
  Forall (fun c => Ascii.eqb c lt_sign = false) l -> remove_tags l = l.
Proof.
  unfold remove_tags.
  induction 1 as [| c l Hc _ IH]; simpl.
  - reflexivity.
  - rewrite Hc, IH. reflexivity.
Qed.

Lemma allowed_not_lt (c : ascii) : allowed c = true -> Ascii.eqb c lt_sign = false.
Proof.
  intros Ha. destruct (Ascii.eqb c lt_sign) eqn:E; [| reflexivity].
  apply Ascii.eqb_eq in E. subst c. rewrite lt_not_allowed in Ha. discriminate.
Qed.

(** *** White-space runs *)

Lemma collapse_length (b : bool) (l : list ascii) :
  List.length (collapse_from b l) <= List.length l.
Proof.
  revert b. induction l as [| c l IH]; intros b; simpl.
  - lia.
  - destruct (is_space c).
    + destruct b; simpl; specialize (IH true); lia.
    + simpl. specialize (IH false). lia.
Qed.

Lemma collapse_blank (b : bool) (l : list ascii) :
  Forall blank_only (collapse_from b l).
Proof.
  revert b. induction l as [| c l IH]; intros b; simpl.
  - constructor.
  - destruct (is_space c) eqn:E.
    + destruct b; [apply IH |].
      constructor; [intros _; reflexivity | apply IH].
    + constructor; [| apply IH].
      unfold blank_only. rewrite E. discriminate.
Qed.

Lemma collapse_allowed (b : bool) (l : list ascii) :
  Forall (fun c => allowed c = true) l ->
  Forall (fun c => allowed c = true) (collapse_from b l).
Proof.
  intros H. revert b. induction H as [| c l Hc _ IH]; intros b; simpl.
  - constructor.
  - destruct (is_space c).
    + destruct b; [apply IH |]. constructor; [apply space_allowed | apply IH].
    + constructor; [exact Hc | apply IH].
Qed.

Lemma collapse_starts_clean (l : list ascii) :
  starts_clean l -> starts_clean (collapse_from false l).
Proof.
  destruct l as [| c l]; simpl; [trivial |].
  intros E. rewrite E. simpl. exact E.
Qed.

Lemma collapse_true_starts_clean (l : list ascii) :
  starts_clean (collapse_from true l).
Proof.
  induction l as [| c l IH]; simpl; [trivial |].
  destruct (is_space c) eqn:E; [exact IH | simpl; exact E].
Qed.

Lemma collapse_no_double (b : bool) (l : list ascii) :
  no_double_space (collapse_from b l) = true.
Proof.
  revert b. induction l as [| c l IH]; intros b; [reflexivity |].
  simpl. destruct (is_space c) eqn:E.
  - destruct b; [apply IH |].
    pose proof (collapse_true_starts_clean l) as Hs.
    pose proof (IH true) as Hn.
    destruct (collapse_from true l) as [| d r]; [reflexivity |].
    simpl in Hs. rewrite no_double_space_cons, Hs, Hn.
    rewrite andb_false_r. reflexivity.
  - pose proof (IH false) as Hn.
    destruct (collapse_from false l) as [| d r]; [reflexivity |].
    rewrite no_double_space_cons. rewrite E, Hn. reflexivity.
Qed.

(** A text whose white space is single blanks is left as it is. *)
Lemma collapse_fixed (b : bool) (l : list ascii) :
  Forall blank_only l ->
  no_double_space l = true ->
  (b = true -> starts_clean l) ->
  collapse_from b l = l.
Proof.
  intros Hb. revert b. induction Hb as [| c l Hc _ IH]; intros b Hn Hs; [reflexivity |].
  simpl. destruct (is_space c) eqn:E.
  - destruct b.
    + specialize (Hs eq_refl). simpl in Hs. congruence.
    + rewrite (Hc E). f_equal. apply IH.
      * destruct l; [reflexivity |]. rewrite no_double_space_cons in Hn.
        apply andb_prop in Hn. tauto.
      * intros _. destruct l as [| d l']; [exact I |].
        rewrite no_double_space_cons in Hn. apply andb_prop in Hn.
        destruct Hn as [Hn _]. rewrite E in Hn. simpl in Hn.
        simpl. destruct (is_space d); [discriminate | reflexivity].
  - f_equal. apply IH.
    + destruct l; [reflexivity |]. rewrite no_double_space_cons in Hn.
      apply andb_prop in Hn. tauto.
    + discriminate.
Qed.

(** The converse: a text the second substitution leaves alone has no two
    neighbouring white-space characters. *)
Lemma collapse_fixed_inv (b : bool) (l : list ascii) :
  collapse_from b l = l -> no_double_space l = true.
Proof.
  revert b. induction l as [| c l IH]; intros b H; [reflexivity |].
  simpl in H. destruct (is_space c) eqn:E.
  - destruct b.
    + pose proof (collapse_length true l) as Hl. rewrite H in Hl. simpl in Hl. lia.
    + injection H as _ H.
      destruct l as [| d l']; [reflexivity |].
      rewrite no_double_space_cons. rewrite (IH true H), E.
      destruct (is_space d) eqn:Ed; [| reflexivity].
      simpl in H. rewrite Ed in H.
      pose proof (collapse_length true l') as Hl. rewrite H in Hl. simpl in Hl. lia.
  - injection H as H.
    destruct l as [| d l']; [reflexivity |].
    rewrite no_double_space_cons. rewrite (IH false H), E. reflexivity.
Qed.

(** *** Stripping *)

Lemma lstrip_starts_clean (l : list ascii) : starts_clean (lstrip l).
Proof.
  induction l as [| c l IH]; simpl; [trivial |].
  destruct (is_space c) eqn:E; [exact IH | simpl; exact E].
Qed.

Lemma lstrip_fixed (l : list ascii) : starts_clean l -> lstrip l = l.
Proof. destruct l as [| c l]; simpl; [trivial |]. intros E. rewrite E. reflexivity. Qed.

Lemma lstrip_Forall (P : ascii -> Prop) (l : list ascii) :
  Forall P l -> Forall P (lstrip l).
Proof.
  induction 1 as [| c l Hc H IH]; simpl; [constructor |].
  destruct (is_space c); [exact IH | constructor; assumption].
Qed.

Lemma rstrip_nil_iff (l : list ascii) :
  rstrip l = [] <-> forallb is_space l = true.
Proof.
  induction l as [| c l IH]; simpl; [tauto |].
  destruct (rstrip l) as [| d r] eqn:E.
  - destruct (is_space c); simpl.
    + tauto.
    + split; discriminate.
  - split; [discriminate |].
    intros H. apply andb_prop in H. destruct H as [_ H].
    apply IH in H. discriminate.
Qed.

Lemma rstrip_cons (c : ascii) (l : list ascii) :
  rstrip l <> [] -> rstrip (c :: l) = c :: rstrip l.
Proof. simpl. destruct (rstrip l); [congruence | reflexivity]. Qed.

Lemma rstrip_single (c : ascii) : is_space c = false -> rstrip [c] = [c].
Proof. simpl. intros ->. reflexivity. Qed.

Lemma rstrip_idempotent (l : list ascii) : rstrip (rstrip l) = rstrip l.
Proof.
  induction l as [| c l IH]; [reflexivity |].
  simpl. destruct (rstrip l) as [| d r] eqn:E.
  - destruct (is_space c) eqn:Ec; [reflexivity | apply rstrip_single; exact Ec].
  - rewrite rstrip_cons; rewrite IH; [reflexivity | discriminate].
Qed.

Lemma rstrip_Forall (P : ascii -> Prop) (l : list ascii) :
  Forall P l -> Forall P (rstrip l).
Proof.
  induction 1 as [| c l Hc H IH]; simpl; [constructor |].
  destruct (rstrip l) as [| d r].
  - destruct (is_space c); repeat constructor; assumption.
  - constructor; assumption.
Qed.

Lemma rstrip_starts_clean (l : list ascii) :
  starts_clean l -> starts_clean (rstrip l).
Proof.
  destruct l as [| c l]; simpl; [trivial |].
  intros E. destruct (rstrip l); [rewrite E |]; simpl; exact E.
Qed.

Lemma collapse_all_space (b : bool) (l : list ascii) :
  forallb is_space (collapse_from b l) = forallb is_space l.
Proof.
  revert b. induction l as [| c l IH]; intros b; [reflexivity |].
  simpl. destruct (is_space c) eqn:E.
  - destruct b; simpl; rewrite ?space_is_space; apply IH.
  - simpl. rewrite E. reflexivity.
Qed.

Lemma rstrip_fixed_cases (c : ascii) (l : list ascii) :
  rstrip (c :: l) = c :: l ->
  (l = [] /\ is_space c = false) \/ (rstrip l = l /\ rstrip l <> []).
Proof.
  simpl. destruct (rstrip l) as [| d r] eqn:E.
  - destruct (is_space c) eqn:Ec; [discriminate |].
    intros H. injection H as H. left. split; [symmetry; exact H | reflexivity].
  - intros H. injection H as H. right. split; [exact H | discriminate].
Qed.

Lemma rstrip_collapse (b : bool) (l : list ascii) :
  rstrip l = l -> rstrip (collapse_from b l) = collapse_from b l.
Proof.
  revert b. induction l as [| c l IH]; intros b H; [reflexivity |].
  apply rstrip_fixed_cases in H. destruct H as [[-> Ec] | [Hl Hne]].
  - simpl. rewrite Ec. apply rstrip_single. exact Ec.
  - assert (Hx : forall b', rstrip (collapse_from b' l) <> []).
    { intros b' Hnil. apply rstrip_nil_iff in Hnil.
      rewrite collapse_all_space in Hnil. apply rstrip_nil_iff in Hnil.
      contradiction. }
    simpl. destruct (is_space c).
    + destruct b; [apply IH; exact Hl |].
      rewrite rstrip_cons by apply Hx. rewrite IH by exact Hl. reflexivity.
    + rewrite rstrip_cons by apply Hx. rewrite IH by exact Hl. reflexivity.
Qed.

(** *** The four steps together *)

Lemma filter_fixed (l : list ascii) :
  Forall (fun c => allowed c = true) l -> remove_special l = l.
Proof.
  unfold remove_special. induction 1 as [| c l Hc _ IH]; simpl; [reflexivity |].
  rewrite Hc, IH. reflexivity.
Qed.

Lemma filter_Forall (P : ascii -> Prop) (l : list ascii) :
  Forall P l -> Forall P (remove_special l).
Proof.
  unfold remove_special. induction 1 as [| c l Hc _ IH]; simpl; [constructor |].
  destruct (allowed c); [constructor |]; assumption.
Qed.

Lemma filter_allowed (l : list ascii) :
  Forall (fun c => allowed c = true) (remove_special l).
Proof.
  unfold remove_special. apply Forall_forall. intros c Hc.
  apply filter_In in Hc. tauto.
Qed.

(** The result of the normalizer holds allowed characters only, its white
    space is blanks, and it neither starts nor ends with one. *)
Lemma clean_chars_normal_form (l : list ascii) : normal_form (clean_chars l).
Proof.
  unfold clean_chars, strip. constructor.
  - apply rstrip_Forall, lstrip_Forall, filter_allowed.
  - apply rstrip_Forall, lstrip_Forall, filter_Forall, collapse_blank.
  - apply rstrip_starts_clean, lstrip_starts_clean.
  - apply rstrip_idempotent.
Qed.

(** On a text in that form only the second substitution can still act. *)
Lemma clean_chars_on_normal_form (l : list ascii) :
  normal_form l -> clean_chars l = collapse_ws l.
Proof.
  intros [Ha Hb Hh Ht]. unfold clean_chars, strip, collapse_ws.
  rewrite remove_tags_no_lt.
  2:{ eapply Forall_impl; [| exact Ha]. intros c. apply allowed_not_lt. }
  rewrite filter_fixed by (apply collapse_allowed; exact Ha).
  rewrite lstrip_fixed by (apply collapse_starts_clean; exact Hh).
  apply rstrip_collapse. exact Ht.
Qed.

Lemma clean_chars_twice (l : list ascii) :
  clean_chars (clean_chars l) = collapse_ws (clean_chars l).
Proof. apply clean_chars_on_normal_form, clean_chars_normal_form. Qed.

Lemma clean_chars_fixed_iff (l : list ascii) :
  clean_chars (clean_chars l) = clean_chars l
  <-> no_double_space (clean_chars l) = true.
Proof.
  rewrite clean_chars_twice. unfold collapse_ws. split.
  - apply collapse_fixed_inv.
  - intros H. apply collapse_fixed; [| exact H | discriminate].
    apply clean_chars_normal_form.
Qed.

Lemma clean_chars_thrice (l : list ascii) :
  clean_chars (clean_chars (clean_chars l)) = clean_chars (clean_chars l).
Proof.
  apply clean_chars_fixed_iff. rewrite clean_chars_twice.
  apply collapse_no_double.
Qed.

(** *** From characters to strings *)

Lemma clean_text_chars (s : string) :
  clean_text (Some s) = string_of_list_ascii (clean_chars (list_ascii_of_string s)).
Proof. destruct s; reflexivity. Qed.

Lemma chars_of_clean_text (s : string) :
  list_ascii_of_string (clean_text (Some s)) = clean_chars (list_ascii_of_string s).
Proof. rewrite clean_text_chars. apply list_ascii_of_string_of_list_ascii. Qed.

Lemma string_of_chars_inj (l l' : list ascii) :
  string_of_list_ascii l = string_of_list_ascii l' -> l = l'.
Proof.
  intros H. apply (f_equal list_ascii_of_string) in H.
  rewrite !list_ascii_of_string_of_list_ascii in H. exact H.
Qed.

Lemma clean_text_None_Some : clean_text None = clean_text (Some "").
Proof. reflexivity. Qed.

End NormalizerFacts.

(** ** Field Extractor and Fallback Metadata Client *)

Module ExtractorFacts.
Import Soup FieldExtractor FallbackClient Trace.

Lemma is_find_no_fallback (ev : event) : is_find ev -> no_fallback_event ev.
Proof. destruct ev; simpl; tauto. Qed.

Lemma is_find_extractor (ev : event) : is_find ev -> extractor_event ev.
Proof. destruct ev; simpl; tauto. Qed.

Lemma opt_truthy_some (s : string) :
  opt_truthy (Some s) = negb (String.eqb s "").
Proof. destruct s; reflexivity. Qed.

Lemma opt_truthy_text (a : option string) :
  opt_truthy a = true -> exists s, a = Some s /\ s <> "".
Proof.
  destruct a as [[| c s] |]; simpl; try discriminate.
  intros _. exists (String c s). split; [reflexivity | discriminate].
Qed.

Lemma or_empty_truthy (a : option string) :
  opt_truthy a = true -> or_empty a = text_value a.
Proof. unfold or_empty. intros ->. reflexivity. Qed.

(** *** [scan]: strategies in order, keywords on their own *)

Lemma scan_spec (soup : list node) :
  exists t abstract,
    scan soup = (t, Ok (abstract, keyword_lookup soup))
    /\ success abstract
       = first_success [strategy_a soup; strategy_b soup; strategy_c soup]
    /\ strategies_tried t = prescribed_order (strategy_a soup) (strategy_b soup)
    /\ Forall is_find t.
Proof.
  unfold scan, find_in, strategy_a, strategy_b, strategy_c, keyword_lookup,
    prescribed_order, success, text_of.
  repeat
    (cbn -[Normalizer.clean_text find get_text attr_get];
     match goal with
     | |- context [find ?s ?n] => destruct (find s n)
     | |- context [Normalizer.clean_text ?x] =>
         let r := fresh "r" in
         generalize (Normalizer.clean_text x); intros r; destruct r
     end);
    cbn; eexists; eexists; (split; [reflexivity |]);
    (split; [reflexivity |]); (split; [reflexivity |]);
    repeat constructor.
Qed.

#[local] Arguments scan : simpl never.

(** *** When the [try] blocks raise *)

Lemma scopus_try_cases (w : World) (url : string) :
  match session_get w url 15 with
  | Raise e => Eff.result (scopus_try w url) = Raise e
  | Ok response =>
      if http_error response
      then Eff.result (scopus_try w url) = Raise (HTTPError (status_code response))
      else match soup_of response with
           | Raise e => Eff.result (scopus_try w url) = Raise e
           | Ok soup => Eff.result (scopus_try w url) = Eff.result (scan soup)
           end
  end.
Proof.
  unfold scopus_try, raise_for_status.
  destruct (session_get w url 15) as [response | e]; [| reflexivity].
  cbn. destruct (http_error response); [reflexivity |].
  cbn. destruct (soup_of response) as [soup | e]; [| reflexivity].
  cbn -[scan]. destruct (scan soup) as [t r]. reflexivity.
Qed.

Lemma scopus_try_trace (w : World) (url : string) :
  Forall (fun ev => no_fallback_event ev /\ extractor_event ev)
         (Eff.trace (scopus_try w url)).
Proof.
  unfold scopus_try, raise_for_status.
  destruct (session_get w url 15) as [response | e]; [| repeat constructor].
  cbn. destruct (http_error response); [repeat constructor |].
  cbn. destruct (soup_of response) as [soup | e]; [| repeat constructor].
  cbn -[scan]. destruct (scan_spec soup) as (t & a & -> & _ & _ & Ht).
  cbn. constructor; [split; exact I |].
  eapply Forall_impl; [| exact Ht].
  intros ev Hev. split; [apply is_find_no_fallback | apply is_find_extractor]; exact Hev.
Qed.

(** [extract_from_scopus] always returns; what the [try] block raises is
    logged as an error and answered by [(None, None)]. *)
Lemma extract_from_scopus_total (w : World) (url : string) :
  exists t r,
    extract_from_scopus w url = (t, Ok r)
    /\ Forall (fun ev => no_fallback_event ev /\ extractor_event ev) t
    /\ (forall e, Eff.result (scopus_try w url) = Raise e ->
                  r = (None, None) /\ In (EvLog ERROR (MsgScopusError url e)) t)
    /\ (forall v, Eff.result (scopus_try w url) = Ok v -> r = v).
Proof.
  unfold extract_from_scopus.
  pose proof (scopus_try_trace w url) as Ht.
  destruct (scopus_try w url) as [t [v | e]]; cbn in *.
  - exists (EvScopus url :: t), v.
    split; [reflexivity |].
    split; [constructor; [split; exact I | exact Ht] |].
    split; [discriminate | congruence].
  - exists (EvScopus url :: t ++ [EvLog ERROR (MsgScopusError url e)]), (None, None).
    split; [reflexivity |].
    split.
    { constructor; [split; exact I |].
      apply Forall_app. split; [exact Ht | repeat constructor]. }
    split; [| discriminate].
    intros e' H. injection H as <-. split; [reflexivity |].
    right. apply in_or_app. right. left. reflexivity.
Qed.

Lemma doi_try_cases (w : World) (doi : string) :
  match session_get w (api_url doi) 10 with
  | Raise e => Eff.result (doi_try w doi) = Raise e
  | Ok response =>
      if http_error response
      then Eff.result (doi_try w doi) = Raise (HTTPError (status_code response))
      else match json_of response with
           | Raise e => Eff.result (doi_try w doi) = Raise e
           | Ok (JObj fields) =>
               match fields_get fields "message" with
               | None => Eff.result (doi_try w doi) = Ok None
               | Some (JObj inner) =>
                   match fields_get inner "abstract" with
                   | None => Eff.result (doi_try w doi) = Ok None
                   | Some (JStr s) =>
                       Eff.result (doi_try w doi)
                       = Ok (if String.eqb s "" then None
                             else Some (Some (Normalizer.clean_text (Some s)), None))
                   | Some v =>
                       Eff.result (doi_try w doi)
                       = if json_truthy v
                         then Raise (TypeError "expected string or bytes-like object")
                         else Ok None
                   end
               | Some _ => Eff.result (doi_try w doi) = Raise (AttributeError "get")
               end
           | Ok _ => Eff.result (doi_try w doi) = Raise (AttributeError "get")
           end
  end.
Proof.
  unfold doi_try, raise_for_status.
  destruct (session_get w (api_url doi) 10) as [response | e]; [| reflexivity].
  cbn. destruct (http_error response); [reflexivity |].
  cbn. destruct (json_of response) as [data | e]; [| reflexivity].
  destruct data as [| b | z | s | items | fields]; try reflexivity.
  cbn -[Normalizer.clean_text].
  destruct (fields_get fields "message") as [[| b | z | s | items | inner] |];
    try reflexivity.
  cbn -[Normalizer.clean_text].
  destruct (fields_get inner "abstract") as [[| b | z | s | items | inner'] |];
    try reflexivity.
  - destruct b; reflexivity.
  - cbn. destruct (Z.eqb z 0); reflexivity.
  - destruct s; reflexivity.
  - destruct items; reflexivity.
  - destruct inner'; reflexivity.
Qed.

Lemma doi_try_keywords (w : World) (doi : string) (v : option string * option string) :
  Eff.result (doi_try w doi) = Ok (Some v) -> snd v = None.
Proof.
  pose proof (doi_try_cases w doi) as Hc. intros H.
  destruct (session_get w (api_url doi) 10) as [response | e]; [| congruence].
  destruct (http_error response); [congruence |].
  destruct (json_of response) as [[| b | z | s | items | fields] | e]; try congruence.
  destruct (fields_get fields "message") as [[| b | z | s | items | inner] |];
    try congruence.
  destruct (fields_get inner "abstract") as [[| b | z | s | items | inner'] |];
    try congruence;
    try (destruct (json_truthy _); congruence).
  rewrite H in Hc. destruct (String.eqb s ""); [discriminate |].
  injection Hc as ->. reflexivity.
Qed.

Lemma doi_try_trace (w : World) (doi : string) :
  Eff.trace (doi_try w doi) = [EvGet (api_url doi) 10].
Proof.
  unfold doi_try, raise_for_status.
  destruct (session_get w (api_url doi) 10) as [response | e]; [| reflexivity].
  cbn. destruct (http_error response); [reflexivity |].
  cbn. destruct (json_of response) as [data | e]; [| reflexivity].
  destruct data as [| b | z | s | items | fields]; try reflexivity.
  cbn -[Normalizer.clean_text].
  destruct (fields_get fields "message") as [[| b | z | s | items | inner] |];
    try reflexivity.
  cbn -[Normalizer.clean_text].
  destruct (fields_get inner "abstract") as [v |]; [| reflexivity].
  cbn -[Normalizer.clean_text].
  destruct (json_truthy v); [| reflexivity].
  destruct v; reflexivity.
Qed.

(** [extract_from_doi] always returns; what the [try] block raises is
    logged at debug level and answered by [(None, None)]; keywords are
    never present. *)
Lemma extract_from_doi_total (w : World) (doi : string) :
  exists t r,
    extract_from_doi w doi = (t, Ok r)
    /\ Forall extractor_event t
    /\ snd r = None
    /\ (forall e, Eff.result (doi_try w doi) = Raise e ->
                  r = (None, None) /\ In (EvLog DEBUG (MsgCrossRefFailed doi e)) t)
    /\ (Eff.result (doi_try w doi) = Ok None -> r = (None, None))
    /\ (forall v, Eff.result (doi_try w doi) = Ok (Some v) -> r = v).
Proof.
  unfold extract_from_doi.
  pose proof (doi_try_keywords w doi) as Hk.
  pose proof (doi_try_trace w doi) as Ht.
  destruct (doi_try w doi) as [t [[v |] | e]]; cbn in *; subst t.
  - eexists; exists v.
    split; [reflexivity |]. split; [repeat constructor |].
    split; [apply Hk; reflexivity |].
    split; [discriminate |]. split; [discriminate | congruence].
  - eexists; exists (None, None).
    split; [reflexivity |]. split; [repeat constructor |].
    split; [reflexivity |].
    split; [discriminate |]. split; [reflexivity | discriminate].
  - eexists; exists (None, None).
    split; [reflexivity |]. split; [repeat constructor |].
    split; [reflexivity |].
    split; [| split; [reflexivity | discriminate]].
    intros e' H. injection H as <-. split; [reflexivity |].
    cbn. tauto.
Qed.

(** *** Which exceptions there are, and when something is logged *)

Lemma scopus_try_raises (w : World) (url : string) (e : exn) :
  Eff.result (scopus_try w url) = Raise e -> Failure.scopus_failure w url e.
Proof.
  pose proof (scopus_try_cases w url) as Hc. intros H.
  destruct (session_get w url 15) as [response | e'] eqn:Hg.
  - destruct (http_error response) eqn:Hs.
    + rewrite H in Hc. injection Hc as ->.
      apply Failure.ScopusStatus; assumption.
    + destruct (soup_of response) as [soup | e'] eqn:Hp.
      * destruct (scan_spec soup) as (t & a & Hscan & _).
        rewrite Hscan, H in Hc. discriminate.
      * rewrite H in Hc. injection Hc as ->.
        eapply Failure.ScopusParse; eassumption.
  - rewrite H in Hc. injection Hc as ->.
    apply Failure.ScopusRequest. exact Hg.
Qed.

Lemma scopus_try_no_log (w : World) (url : string) (lvl : level) (msg : message) :
  ~ In (EvLog lvl msg) (Eff.trace (scopus_try w url)).
Proof.
  unfold scopus_try, raise_for_status.
  destruct (session_get w url 15) as [response | e]; [| cbn; intuition discriminate].
  cbn. destruct (http_error response); [cbn; intuition discriminate |].
  cbn. destruct (soup_of response) as [soup | e]; [| cbn; intuition discriminate].
  cbn -[scan]. destruct (scan_spec soup) as (t & a & -> & _ & _ & Ht).
  cbn. intros [H | H]; [discriminate |].
  rewrite Forall_forall in Ht. apply (Ht _ H).
Qed.

(** An entry in the log of [extract_from_scopus] is the error line of an
    exception of the [try] block. *)
Lemma extract_from_scopus_log (w : World) (url : string) (lvl : level) (msg : message) :
  In (EvLog lvl msg) (Eff.trace (extract_from_scopus w url)) ->
  exists e, Eff.result (scopus_try w url) = Raise e
            /\ lvl = ERROR /\ msg = MsgScopusError url e.
Proof.
  unfold extract_from_scopus.
  pose proof (scopus_try_no_log w url lvl msg) as Hq.
  destruct (scopus_try w url) as [t [v | e]]; cbn in *.
  - intros [H | H]; [discriminate | contradiction].
  - intros [H | H]; [discriminate |].
    apply in_app_or in H. destruct H as [H | [H | []]]; [contradiction |].
    injection H as <- <-. exists e. auto.
Qed.

Lemma doi_try_raises (w : World) (doi : string) (e : exn) :
  Eff.result (doi_try w doi) = Raise e -> Failure.doi_failure w doi e.
Proof.
  pose proof (doi_try_cases w doi) as Hc. intros H.
  destruct (session_get w (api_url doi) 10) as [response | e'] eqn:Hg.
  2: { rewrite H in Hc. injection Hc as ->. apply Failure.DoiRequest. exact Hg. }
  destruct (http_error response) eqn:Hs.
  { rewrite H in Hc. injection Hc as ->. apply Failure.DoiStatus; assumption. }
  destruct (json_of response) as [data | e'] eqn:Hp.
  2: { rewrite H in Hc. injection Hc as ->.
       eapply Failure.DoiMalformed; eassumption. }
  assert (Hapi : Failure.api_data w doi data).
  { exists response. auto. }
  destruct data as [| b | z | s | items | fields];
    try (rewrite H in Hc; injection Hc as ->;
         apply (Failure.DoiNoDict _ _ _ Hapi); discriminate).
  destruct (fields_get fields "message") as [message |] eqn:Hm;
    [| rewrite H in Hc; discriminate].
  destruct message as [| b | z | s | items | inner];
    try (rewrite H in Hc; injection Hc as ->;
         apply (Failure.DoiMessageNoDict _ _ _ _ Hapi Hm); discriminate).
  destruct (fields_get inner "abstract") as [abstract |] eqn:Ha;
    [| rewrite H in Hc; discriminate].
  destruct abstract as [| b | z | s | items | inner'];
    try (rewrite H in Hc; destruct (json_truthy _) eqn:Et; [| discriminate];
         injection Hc as ->;
         apply (Failure.DoiAbstractNoText _ _ _ _ _ Hapi Hm Ha Et); discriminate).
  rewrite H in Hc. destruct (String.eqb s ""); discriminate.
Qed.

(** An entry in the log of [extract_from_doi] is the debug line of an
    exception of the [try] block. *)
Lemma extract_from_doi_log (w : World) (doi : string) (lvl : level) (msg : message) :
  In (EvLog lvl msg) (Eff.trace (extract_from_doi w doi)) ->
  exists e, Eff.result (doi_try w doi) = Raise e
            /\ lvl = DEBUG /\ msg = MsgCrossRefFailed doi e.
Proof.
  unfold extract_from_doi.
  pose proof (doi_try_trace w doi) as Ht.
  destruct (doi_try w doi) as [t [[v |] | e]]; cbn in *; subst t; cbn.
  - intros [H | [H | []]]; discriminate.
  - intros [H | [H | []]]; discriminate.
  - intros [H | [H | [H | []]]]; try discriminate.
    injection H as <- <-. exists e. auto.
Qed.

End ExtractorFacts.

(** ** Paper Processor *)

Module ProcessorFacts.
Import FieldExtractor FallbackClient PaperProcessor Trace ExtractorFacts.


Lemma try_scopus_total (w : World) (link : cell) :
  exists t o,
    try_scopus w link = (t, Ok o)
    /\ Forall (fun ev => no_fallback_event ev /\ extractor_event ev) t
    /\ (forall r, o = Some r -> success_shaped r).
Proof.
  unfold try_scopus. destruct (Cell.truthy link).
  - destruct (extract_from_scopus_total w (Cell.to_str link))
      as (t & [a k] & -> & Ht & _).
    cbn. destruct (opt_truthy a) eqn:Ea; cbn; rewrite app_nil_r.
    + eexists; eexists. split; [reflexivity |]. split; [exact Ht |].
      intros r [= <-]. apply opt_truthy_text in Ea. destruct Ea as (s & -> & Hs).
      split; cbn; [discriminate | exact Hs].
    + eexists; eexists. split; [reflexivity |]. split; [exact Ht | discriminate].
  - eexists; eexists. split; [reflexivity |]. split; [constructor | discriminate].
Qed.

Lemma try_doi_total (w : World) (doi : cell) :
  exists t o,
    try_doi w doi = (t, Ok o)
    /\ Forall extractor_event t
    /\ (forall r, o = Some r -> success_shaped r).
Proof.
  unfold try_doi. destruct (Cell.truthy doi).
  - destruct (extract_from_doi_total w (Cell.to_str doi))
      as (t & [a k] & -> & Ht & _).
    cbn. destruct (opt_truthy a) eqn:Ea; cbn; rewrite app_nil_r.
    + eexists; eexists. split; [reflexivity |]. split; [exact Ht |].
      intros r [= <-]. apply opt_truthy_text in Ea. destruct Ea as (s & -> & Hs).
      split; cbn; [discriminate | exact Hs].
    + eexists; eexists. split; [reflexivity |]. split; [exact Ht | discriminate].
  - eexists; eexists. split; [reflexivity |]. split; [constructor | discriminate].
Qed.

(** The branch taken when the first tier succeeds: the result of the
    first tier is returned and the trace is that of [extract_from_scopus]
    alone. *)
Lemma process_paper_primary (w : World) (row : Row)
      (t : list event) (abstract keywords : option string) :
  Cell.truthy (Link row) = true ->
  extract_from_scopus w (Cell.to_str (Link row)) = (t, Ok (abstract, keywords)) ->
  opt_truthy abstract = true ->
  process_paper w row
  = (t, Ok {| r_Abstract := text_value abstract;
              r_Keywords := or_empty keywords;
              r_Status := SuccessScopus |}).
Proof.
  intros Hl He Ha. unfold process_paper, try_scopus. rewrite Hl, He. cbn.
  rewrite Ha. cbn. rewrite !app_nil_r. reflexivity.
Qed.

(** [process_paper] always returns, and its status is [Failed] exactly
    when its abstract is empty. *)
Lemma process_paper_total (w : World) (row : Row) :
  exists t r,
    process_paper w row = (t, Ok r)
    /\ Forall extractor_event t
    /\ (r_Status r = Failed <-> r_Abstract r = "").
Proof.
  unfold process_paper.
  destruct (try_scopus_total w (Link row)) as (t1 & o1 & -> & Ht1 & Ho1).
  assert (Ht1' : Forall extractor_event t1).
  { eapply Forall_impl; [| exact Ht1]. intros ev H; apply H. }
  destruct o1 as [r1 |]; cbn.
  - eexists; eexists. split; [reflexivity |].
    split; [rewrite app_nil_r; exact Ht1' |].
    destruct (Ho1 r1 eq_refl) as [Hs Ha]. tauto.
  - destruct (try_doi_total w (DOI row)) as (t2 & o2 & -> & Ht2 & Ho2).
    destruct o2 as [r2 |]; cbn.
    + eexists; eexists. split; [reflexivity |].
      split; [rewrite app_nil_r; apply Forall_app; split; assumption |].
      destruct (Ho2 r2 eq_refl) as [Hs Ha]. tauto.
    + eexists; eexists. split; [reflexivity |].
      split; [rewrite app_nil_r; apply Forall_app; split; assumption |].
      cbn. tauto.
Qed.

(** Without a link and without a DOI nothing is fetched. *)
Lemma process_paper_nothing_to_try (w : World) (row : Row) :
  Cell.truthy (Link row) = false ->
  Cell.truthy (DOI row) = false ->
  process_paper w row
  = ([], Ok {| r_Abstract := ""; r_Keywords := ""; r_Status := Failed |}).
Proof.
  intros Hl Hd. unfold process_paper, try_scopus, try_doi.
  rewrite Hl, Hd. reflexivity.
Qed.

End ProcessorFacts.

(** ** Batch Run Controller: resuming *)

Module ResumeFacts.
Import Controller.

Lemma cell_eqb_eq (a b : cell) : Cell.eqb a b = true <-> a = b.
Proof.
  destruct a as [| x], b as [| y]; simpl; split; try congruence.
  - intros H. apply String.eqb_eq in H. congruence.
  - intros [= ->]. apply String.eqb_refl.
Qed.

(** [read_csv] never yields the empty text: the empty field is read as
    the missing value. *)
Lemma read_cell_not_empty (field : string) : read_cell field <> Str "".
Proof.
  unfold read_cell. destruct (existsb (String.eqb field) na_values) eqn:E.
  - discriminate.
  - intros [= ->]. discriminate.
Qed.


Lemma notna_nonempty (c : cell) : known c -> Cell.notna c = Cell.nonempty c.
Proof. unfold known. destruct c as [| [| a s]]; simpl; congruence. Qed.

Lemma read_csv_known (file : csv) :
  Forall (fun c => known (c_Abstract c)) (read_csv file).
Proof.
  unfold read_csv. apply Forall_forall. intros c Hc.
  apply in_map_iff in Hc. destruct Hc as ([[l a] k] & <- & _).
  apply read_cell_not_empty.
Qed.

Lemma merge_left_known (papers : list Paper) (ck : list CheckpointRow) :
  Forall (fun c => known (c_Abstract c)) ck ->
  Forall (fun r => known (Abstract r)) (merge_left papers ck).
Proof.
  intros Hck. apply Forall_forall. intros r Hr.
  unfold merge_left in Hr. apply in_flat_map in Hr. destruct Hr as (p & _ & Hr).
  destruct (matching (p_Link p) ck) as [| c ms] eqn:E.
  - destruct Hr as [<- | []]. discriminate.
  - apply in_map_iff in Hr. destruct Hr as (c' & <- & Hc').
    rewrite <- E in Hc'. apply filter_In in Hc'. destruct Hc' as [Hc' _].
    rewrite Forall_forall in Hck. exact (Hck c' Hc').
Qed.

Lemma assign_columns_known (papers : list Paper) (merged : list Row) :
  Forall (fun r => known (Abstract r)) merged ->
  Forall (fun r => known (Abstract r)) (assign_columns papers merged).
Proof.
  intros Hm. apply Forall_forall. intros r Hr.
  unfold assign_columns in Hr. apply in_map_iff in Hr.
  destruct Hr as ([p m] & <- & Hpm). apply in_combine_r in Hpm.
  rewrite Forall_forall in Hm. exact (Hm m Hpm).
Qed.

Lemma count_notna_nonempty (frame : list Row) :
  Forall (fun r => known (Abstract r)) frame ->
  count_notna frame = count_nonempty frame.
Proof.
  unfold count_notna, count_nonempty.
  induction 1 as [| r frame Hr _ IH]; [reflexivity |].
  simpl. rewrite (notna_nonempty _ Hr).
  destruct (Cell.nonempty (Abstract r)); simpl; congruence.
Qed.

Lemma flat_map_length_ge {A B : Type} (f : A -> list B) (l : list A) :
  (forall x, 1 <= List.length (f x)) ->
  List.length l <= List.length (flat_map f l).
Proof.
  intros Hf. induction l as [| x l IH]; [apply Nat.le_refl |].
  change (flat_map f (x :: l)) with (f x ++ flat_map f l).
  rewrite length_app. specialize (Hf x). simpl. lia.
Qed.

(** The left join keeps every row of [df]. *)
Lemma merge_left_length (papers : list Paper) (ck : list CheckpointRow) :
  List.length papers <= List.length (merge_left papers ck).
Proof.
  unfold merge_left. apply flat_map_length_ge. intros p.
  destruct (matching (p_Link p) ck); simpl; lia.
Qed.

Lemma assign_columns_length (papers : list Paper) (merged : list Row) :
  List.length papers <= List.length merged ->
  List.length (assign_columns papers merged) = List.length papers.
Proof.
  intros H. unfold assign_columns. rewrite length_map, length_combine. lia.
Qed.

Lemma assign_columns_links (papers : list Paper) (merged : list Row) :
  List.length papers <= List.length merged ->
  map Link (assign_columns papers merged) = map p_Link papers.
Proof.
  unfold assign_columns. revert merged.
  induction papers as [| p papers IH]; intros [| m merged] H; simpl in *;
    try reflexivity; try lia.
  f_equal. apply IH. lia.
Qed.

Lemma resume_length (papers : list Paper) (file : option csv) :
  List.length (fst (resume papers file)) = List.length papers.
Proof.
  destruct file as [f |]; simpl.
  - apply assign_columns_length, merge_left_length.
  - apply length_map.
Qed.

Lemma resume_links (papers : list Paper) (file : option csv) :
  map Link (fst (resume papers file)) = map p_Link papers.
Proof.
  destruct file as [f |]; simpl.
  - apply assign_columns_links, merge_left_length.
  - rewrite map_map. reflexivity.
Qed.

Lemma count_notna_le (frame : list Row) : count_notna frame <= List.length frame.
Proof. unfold count_notna. apply filter_length_le. Qed.

Lemma resume_start_le (papers : list Paper) (file : option csv) :
  snd (resume papers file) <= List.length papers.
Proof.
  destruct file as [f |]; simpl; [| lia].
  rewrite <- (resume_length papers (Some f)). apply count_notna_le.
Qed.

(** The resume index counts the records that hold an abstract after the
    merge. *)
Lemma resume_start_counts (papers : list Paper) (f : csv) :
  snd (resume papers (Some f)) = count_nonempty (fst (resume papers (Some f))).
Proof.
  simpl. apply count_notna_nonempty, assign_columns_known, merge_left_known,
           read_csv_known.
Qed.

Lemma resume_fresh (papers : list Paper) (i : nat) (row : Row) :
  nth_error (fst (resume papers None)) i = Some row ->
  Abstract row = Str "" /\ Keywords row = Str "".
Proof.
  simpl. intros H. apply nth_error_In, in_map_iff in H.
  destruct H as (p & <- & _). split; reflexivity.
Qed.

(** *** With pairwise different links in the checkpoint *)

Lemma matching_none (key : cell) (ck : list CheckpointRow) :
  existsb (fun c => Cell.eqb (c_Link c) key) ck = false -> matching key ck = [].
Proof.
  unfold matching. induction ck as [| c ck IH]; simpl; [reflexivity |].
  destruct (Cell.eqb (c_Link c) key); simpl; [discriminate | exact IH].
Qed.

Lemma matching_distinct (key : cell) (ck : list CheckpointRow) :
  distinct_links ck = true ->
  matching key ck = match lookup key ck with Some c => [c] | None => [] end.
Proof.
  unfold lookup. induction ck as [| c ck IH]; simpl; [reflexivity |].
  intros H. apply andb_prop in H. destruct H as [Hc Hd].
  unfold matching in *. simpl.
  destruct (Cell.eqb (c_Link c) key) eqn:E.
  - apply cell_eqb_eq in E. subst key.
    apply negb_true_iff in Hc. f_equal. apply (matching_none _ _ Hc).
  - apply IH. exact Hd.
Qed.

Lemma merge_left_cons (p : Paper) (papers : list Paper) (ck : list CheckpointRow) :
  merge_left (p :: papers) ck
  = match matching (p_Link p) ck with
    | [] => [with_columns p NaN NaN]
    | ms => map (fun c => with_columns p (c_Abstract c) (c_Keywords c)) ms
    end ++ merge_left papers ck.
Proof. reflexivity. Qed.

Lemma merge_left_distinct (papers : list Paper) (ck : list CheckpointRow) :
  distinct_links ck = true -> merge_left papers ck = map (joined ck) papers.
Proof.
  intros Hd.
  induction papers as [| p papers IH]; [reflexivity |].
  rewrite merge_left_cons, IH, (matching_distinct _ _ Hd).
  change (map (joined ck) (p :: papers)) with (joined ck p :: map (joined ck) papers).
  generalize (map (joined ck) papers). intros rest. unfold joined.
  destruct (lookup (p_Link p) ck); reflexivity.
Qed.

Lemma assign_columns_joined (papers : list Paper) (ck : list CheckpointRow) :
  assign_columns papers (map (joined ck) papers) = map (joined ck) papers.
Proof.
  unfold assign_columns. induction papers as [| p papers IH]; [reflexivity |].
  cbn [map combine]. rewrite IH. f_equal.
  unfold joined. destruct (lookup (p_Link p) ck); reflexivity.
Qed.

(** Every record takes the abstract and the keywords of the checkpoint
    entry with its link, and missing values when there is none. *)
Lemma resume_joined (papers : list Paper) (f : csv) :
  distinct_links (read_csv f) = true ->
  fst (resume papers (Some f)) = map (joined (read_csv f)) papers.
Proof.
  intros Hd. simpl. rewrite (merge_left_distinct _ _ Hd).
  apply assign_columns_joined.
Qed.

Lemma covers_first_count (k : nat) (frame : list Row) :
  covers_first k frame = true -> count_nonempty frame = k.
Proof.
  unfold count_nonempty. revert k.
  induction frame as [| r frame IH]; intros [| k] H; simpl in *;
    try reflexivity; try discriminate.
  - apply andb_prop in H. destruct H as [Hr H].
    apply negb_true_iff in Hr. rewrite Hr. apply (IH 0 H).
  - apply andb_prop in H. destruct H as [Hr H].
    rewrite Hr. simpl. f_equal. apply (IH k H).
Qed.

End ResumeFacts.

(** ** Batch Run Controller: the loop *)

Module LoopFacts.
Import Controller Trace ExtractorFacts.

(** *** Updating one row *)

Lemma update_at_length (i : nat) (f : Row -> Row) (frame : list Row) :
  List.length (update_at i f frame) = List.length frame.
Proof.
  revert i. induction frame as [| r frame IH]; intros [| i]; simpl; try reflexivity.
  f_equal. apply IH.
Qed.

Lemma update_at_other (i j : nat) (f : Row -> Row) (frame : list Row) :
  j <> i -> nth_error (update_at i f frame) j = nth_error frame j.
Proof.
  revert i j. induction frame as [| r frame IH]; intros [| i] [| j] H; simpl;
    try reflexivity; try congruence.
  apply IH. congruence.
Qed.

Lemma update_at_same (i : nat) (f : Row -> Row) (frame : list Row) (r : Row) :
  nth_error frame i = Some r -> nth_error (update_at i f frame) i = Some (f r).
Proof.
  revert i. induction frame as [| x frame IH]; intros [| i] H; simpl in *;
    try discriminate.
  - congruence.
  - apply IH. exact H.
Qed.

Lemma update_at_links (i : nat) (f : Row -> Row) (frame : list Row) :
  (forall r, Link (f r) = Link r) ->
  map Link (update_at i f frame) = map Link frame.
Proof.
  intros Hf. revert i. induction frame as [| r frame IH]; intros [| i]; simpl;
    try reflexivity.
  - rewrite Hf. reflexivity.
  - rewrite IH. reflexivity.
Qed.

Lemma to_csv_length (frame : list Row) : List.length (to_csv frame) = List.length frame.
Proof. apply length_map. Qed.

Lemma to_csv_links (frame : list Row) :
  map (fun line => fst (fst line)) (to_csv frame) = map write_cell (map Link frame).
Proof. unfold to_csv. rewrite !map_map. reflexivity. Qed.

(** *** One turn of the loop *)

Section Body.
Variable proc : Row -> M Result.
Variable fault : nat -> option exn.


(** The four ways through the body. *)
Lemma loop_body_cases (i : nat) (st : Store) (row : Row) :
  nth_error (df st) i = Some row ->
  match proc row with
  | (t, Raise e) =>
      loop_body proc fault i st
      = {| df := df st; checkpoint_file := checkpoint_file st;
           events := events st
                     ++ EvProcess i :: t ++ [EvLog ERROR (MsgProcessingError (i + 1) e)] |}
  | (t, Ok res) =>
      let frame := written_back i res (df st) in
      let progress := progress_event i (List.length (df st)) res in
      if (i + 1) mod BATCH_SIZE =? 0 then
        match fault i with
        | Some e =>
            loop_body proc fault i st
            = {| df := frame; checkpoint_file := checkpoint_file st;
                 events := events st
                           ++ EvProcess i :: t
                           ++ [progress; EvLog ERROR (MsgProcessingError (i + 1) e)] |}
        | None =>
            loop_body proc fault i st
            = {| df := frame; checkpoint_file := Some (to_csv frame);
                 events := events st
                           ++ EvProcess i :: t
                           ++ [progress; EvToCsv i (to_csv frame);
                               EvLog INFO (MsgCheckpointSaved (i + 1));
                               EvSleep rate_limit] |}
        end
      else
        loop_body proc fault i st
        = {| df := frame; checkpoint_file := checkpoint_file st;
             events := events st ++ EvProcess i :: t ++ [progress; EvSleep rate_limit] |}
  end.
Proof.
  intros Hrow. unfold loop_body. rewrite Hrow.
  destruct (proc row) as [t [res | e]].
  - unfold progress_event, written_back.
    destruct ((i + 1) mod BATCH_SIZE =? 0).
    + destruct (fault i) as [e |];
        destruct (String.prefix "Success" (status_text (r_Status res)));
        unfold on_exception, save_checkpoint, record, record_all,
          set_Keywords, set_Abstract; cbn [df checkpoint_file events];
        f_equal; rewrite <- ?app_assoc; reflexivity.
    + destruct (String.prefix "Success" (status_text (r_Status res)));
        unfold record, record_all, set_Keywords, set_Abstract;
        cbn [df checkpoint_file events];
        f_equal; rewrite <- ?app_assoc; reflexivity.
  - unfold on_exception, record, record_all. cbn [df checkpoint_file events].
    f_equal. rewrite <- ?app_assoc. reflexivity.
Qed.

Lemma written_back_length (i : nat) (res : Result) (frame : list Row) :
  List.length (written_back i res frame) = List.length frame.
Proof. unfold written_back. simpl. rewrite !update_at_length. reflexivity. Qed.

Lemma written_back_other (i j : nat) (res : Result) (frame : list Row) :
  j <> i -> nth_error (written_back i res frame) j = nth_error frame j.
Proof.
  intros H. unfold written_back. simpl. rewrite !update_at_other by exact H.
  reflexivity.
Qed.

Lemma written_back_same (i : nat) (res : Result) (frame : list Row) (row : Row) :
  nth_error frame i = Some row ->
  nth_error (written_back i res frame) i = Some (filled row res).
Proof.
  intros H. unfold written_back. simpl.
  rewrite (update_at_same i _ _ _ (update_at_same i _ _ _ H)). reflexivity.
Qed.

Lemma written_back_links (i : nat) (res : Result) (frame : list Row) :
  map Link (written_back i res frame) = map Link frame.
Proof.
  unfold written_back. simpl.
  rewrite !update_at_links by (intros r; reflexivity). reflexivity.
Qed.

(** What every turn preserves, and what it adds to the trace. *)
Lemma loop_body_frame (i : nat) (st : Store) :
  List.length (df (loop_body proc fault i st)) = List.length (df st)
  /\ map Link (df (loop_body proc fault i st)) = map Link (df st)
  /\ (forall j, j <> i ->
                nth_error (df (loop_body proc fault i st)) j = nth_error (df st) j)
  /\ exists added, events (loop_body proc fault i st) = events st ++ added.
Proof.
  destruct (nth_error (df st) i) as [row |] eqn:Hrow.
  - pose proof (loop_body_cases i st row Hrow) as Hc.
    destruct (proc row) as [t [res | e]].
    + cbv zeta in Hc.
      destruct ((i + 1) mod BATCH_SIZE =? 0); [destruct (fault i) |];
        rewrite Hc; cbn [df checkpoint_file events];
        (split; [apply written_back_length |]);
        (split; [apply written_back_links |]);
        (split; [intros j Hj; apply written_back_other; exact Hj |]);
        eexists; reflexivity.
    + rewrite Hc. cbn [df checkpoint_file events].
      repeat split. eexists; reflexivity.
  - unfold loop_body. rewrite Hrow. unfold on_exception, record.
    cbn [df checkpoint_file events]. repeat split. eexists; reflexivity.
Qed.

(** A record whose processing raises keeps its row; the error is
    logged. *)
Lemma loop_body_raise (i : nat) (st : Store) (row : Row) (t : list event) (e : exn) :
  nth_error (df st) i = Some row ->
  proc row = (t, Raise e) ->
  df (loop_body proc fault i st) = df st
  /\ In (EvLog ERROR (MsgProcessingError (i + 1) e)) (events (loop_body proc fault i st)).
Proof.
  intros Hrow Hp. pose proof (loop_body_cases i st row Hrow) as Hc.
  rewrite Hp in Hc. rewrite Hc. cbn [df events]. split; [reflexivity |].
  apply in_or_app. right. right. apply in_or_app. right. left. reflexivity.
Qed.

Lemma loop_body_processes (i : nat) (st : Store) :
  i < List.length (df st) ->
  In (EvProcess i) (events (loop_body proc fault i st)).
Proof.
  intros Hi. destruct (nth_error (df st) i) as [row |] eqn:Hrow.
  - pose proof (loop_body_cases i st row Hrow) as Hc.
    destruct (proc row) as [t [res | e]].
    + cbv zeta in Hc.
      destruct ((i + 1) mod BATCH_SIZE =? 0); [destruct (fault i) |];
        rewrite Hc; cbn [events]; apply in_or_app; right; left; reflexivity.
    + rewrite Hc. cbn [events]. apply in_or_app. right. left. reflexivity.
  - apply nth_error_None in Hrow. lia.
Qed.

(** *** The whole loop *)

Lemma run_over_cons (i : nat) (idxs : list nat) (st : Store) :
  run_over proc fault (i :: idxs) st = run_over proc fault idxs (loop_body proc fault i st).
Proof. reflexivity. Qed.

Lemma run_over_frame (idxs : list nat) (st : Store) :
  List.length (df (run_over proc fault idxs st)) = List.length (df st)
  /\ map Link (df (run_over proc fault idxs st)) = map Link (df st)
  /\ (forall j, ~ In j idxs ->
                nth_error (df (run_over proc fault idxs st)) j = nth_error (df st) j)
  /\ exists added, events (run_over proc fault idxs st) = events st ++ added.
Proof.
  revert st. induction idxs as [| i idxs IH]; intros st.
  - simpl. repeat split. exists []. rewrite app_nil_r. reflexivity.
  - rewrite run_over_cons.
    destruct (IH (loop_body proc fault i st)) as (Hl & Hk & Ho & (a2 & He)).
    destruct (loop_body_frame i st) as (Hl1 & Hk1 & Ho1 & (a1 & He1)).
    split; [congruence |]. split; [congruence |]. split.
    + intros j Hj. rewrite Ho by (simpl in Hj; tauto).
      apply Ho1. intros ->. simpl in Hj. tauto.
    + exists (a1 ++ a2). rewrite He, He1, app_assoc. reflexivity.
Qed.

Lemma run_over_keeps_events (idxs : list nat) (st : Store) (ev : event) :
  In ev (events st) -> In ev (events (run_over proc fault idxs st)).
Proof.
  intros H. destruct (run_over_frame idxs st) as (_ & _ & _ & (a & ->)).
  apply in_or_app. left. exact H.
Qed.

Lemma run_over_app (xs ys : list nat) (st : Store) :
  run_over proc fault (xs ++ ys) st = run_over proc fault ys (run_over proc fault xs st).
Proof. apply fold_left_app. Qed.

Lemma run_over_processes (idxs : list nat) (st : Store) (j : nat) :
  In j idxs ->
  (forall i, In i idxs -> i < List.length (df st)) ->
  In (EvProcess j) (events (run_over proc fault idxs st)).
Proof.
  revert st. induction idxs as [| i idxs IH]; intros st Hj Hb; [destruct Hj |].
  rewrite run_over_cons. destruct Hj as [-> | Hj].
  - apply run_over_keeps_events, loop_body_processes, Hb. left. reflexivity.
  - apply IH; [exact Hj |]. intros k Hk.
    destruct (loop_body_frame i st) as (-> & _). apply Hb. right. exact Hk.
Qed.

(** The turn for the record at [i] in a run over [lo], ..., [lo + m - 1]:
    it finds the row the run started with, and what it leaves at [i] and
    in the trace stays to the end of the run. *)
Lemma run_over_at (lo m i : nat) (st : Store) (row : Row) :
  lo <= i < lo + m ->
  nth_error (df st) i = Some row ->
  exists st1,
    nth_error (df st1) i = Some row
    /\ nth_error (df (run_over proc fault (seq lo m) st)) i
       = nth_error (df (loop_body proc fault i st1)) i
    /\ (forall ev, In ev (events (loop_body proc fault i st1)) ->
                   In ev (events (run_over proc fault (seq lo m) st))).
Proof.
  intros Hi Hrow.
  replace m with ((i - lo) + S (lo + m - S i)) by lia.
  rewrite seq_app, run_over_app.
  replace (lo + (i - lo)) with i by lia.
  exists (run_over proc fault (seq lo (i - lo)) st).
  split; [| split].
  - destruct (run_over_frame (seq lo (i - lo)) st) as (_ & _ & Ho & _).
    rewrite Ho; [exact Hrow |]. rewrite in_seq. lia.
  - cbn [seq]. rewrite run_over_cons.
    destruct (run_over_frame (seq (S i) (lo + m - S i))
                (loop_body proc fault i (run_over proc fault (seq lo (i - lo)) st)))
      as (_ & _ & Ho & _).
    apply Ho. rewrite in_seq. lia.
  - intros ev Hev. cbn [seq]. rewrite run_over_cons.
    apply run_over_keeps_events. exact Hev.
Qed.

(** The record at [i] whose processing raises: its row is in the end what
    it was at the start, and the error is in the trace. *)
Lemma run_over_raise (lo m i : nat) (st : Store) (row : Row)
      (t : list event) (e : exn) :
  lo <= i < lo + m ->
  nth_error (df st) i = Some row ->
  proc row = (t, Raise e) ->
  nth_error (df (run_over proc fault (seq lo m) st)) i = Some row
  /\ In (EvLog ERROR (MsgProcessingError (i + 1) e)) (events (run_over proc fault (seq lo m) st)).
Proof.
  intros Hi Hrow Hp.
  destruct (run_over_at lo m i st row Hi Hrow) as (st1 & H1 & Hend & Hev).
  destruct (loop_body_raise i st1 row t e H1 Hp) as [Hdf Hlog].
  split; [rewrite Hend, Hdf; exact H1 | apply Hev, Hlog].
Qed.

(** The record at [i] after which the checkpoint cannot be written: the
    error is in the trace and the row holds the result. *)
Lemma run_over_csv_fault (lo m i : nat) (st : Store) (row : Row)
      (t : list event) (res : Result) (e : exn) :
  lo <= i < lo + m ->
  nth_error (df st) i = Some row ->
  proc row = (t, Ok res) ->
  ((i + 1) mod BATCH_SIZE =? 0) = true ->
  fault i = Some e ->
  nth_error (df (run_over proc fault (seq lo m) st)) i = Some (filled row res)
  /\ In (EvLog ERROR (MsgProcessingError (i + 1) e)) (events (run_over proc fault (seq lo m) st)).
Proof.
  intros Hi Hrow Hp Hdue Hf.
  destruct (run_over_at lo m i st row Hi Hrow) as (st1 & H1 & Hend & Hev).
  pose proof (loop_body_cases i st1 row H1) as Hc.
  rewrite Hp in Hc. cbv zeta in Hc. rewrite Hdue, Hf in Hc.
  split.
  - rewrite Hend, Hc. cbn [df]. apply written_back_same. exact H1.
  - apply Hev. rewrite Hc. cbn [events].
    apply in_or_app. right. right. apply in_or_app. right. right. left. reflexivity.
Qed.

End Body.

(** *** The milestones of a run whose processor never raises *)

Lemma milestones_app (a b : list event) :
  milestones (a ++ b) = milestones a ++ milestones b.
Proof. apply flat_map_app. Qed.

Lemma milestones_extractor (t : list event) :
  Forall extractor_event t -> milestones t = [].
Proof.
  induction 1 as [| ev t Hev _ IH]; [reflexivity |].
  unfold milestones in *. simpl. rewrite IH.
  destruct ev; simpl in *; try reflexivity; contradiction.
Qed.

Lemma whole_frame_extractor (n : nat) (links : list string) (t : list event) :
  Forall extractor_event t -> Forall (whole_frame n links) t.
Proof.
  apply Forall_impl. intros ev. destruct ev; simpl; tauto.
Qed.

Section Total.
Variable proc : Row -> M Result.
Variable fault : nat -> option exn.
Hypothesis proc_total :
  forall row, exists t res, proc row = (t, Ok res) /\ Forall extractor_event t.

Lemma progress_event_marks (i total : nat) (res : Result) (rest : list event) :
  milestones (progress_event i total res :: rest) = milestones rest.
Proof.
  unfold progress_event.
  destruct (String.prefix "Success" (status_text (r_Status res))); reflexivity.
Qed.

Lemma progress_event_whole (n : nat) (links : list string) (i total : nat) (res : Result) :
  whole_frame n links (progress_event i total res).
Proof.
  unfold progress_event.
  destruct (String.prefix "Success" (status_text (r_Status res))); exact I.
Qed.

Lemma loop_body_milestones (i : nat) (st : Store) :
  i < List.length (df st) ->
  milestones (events (loop_body proc fault i st))
  = milestones (events st) ++ step_marks fault i.
Proof.
  intros Hi. destruct (nth_error (df st) i) as [row |] eqn:Hrow.
  2:{ apply nth_error_None in Hrow. lia. }
  pose proof (loop_body_cases proc fault i st row Hrow) as Hc.
  destruct (proc_total row) as (t & res & Hp & Ht). rewrite Hp in Hc.
  cbv zeta in Hc. unfold step_marks, writes_at, no_fault.
  destruct ((i + 1) mod BATCH_SIZE =? 0); [destruct (fault i) |];
    rewrite Hc; cbn [events andb];
    rewrite milestones_app; f_equal;
    change (EvProcess i :: ?l) with ([EvProcess i] ++ l);
    rewrite !milestones_app, (milestones_extractor t Ht), progress_event_marks;
    reflexivity.
Qed.

Lemma run_over_milestones (idxs : list nat) (st : Store) :
  (forall i, In i idxs -> i < List.length (df st)) ->
  milestones (events (run_over proc fault idxs st))
  = milestones (events st) ++ flat_map (step_marks fault) idxs.
Proof.
  revert st. induction idxs as [| i idxs IH]; intros st Hb.
  - simpl. rewrite app_nil_r. reflexivity.
  - rewrite run_over_cons, IH.
    + rewrite loop_body_milestones by (apply Hb; left; reflexivity).
      rewrite <- app_assoc. reflexivity.
    + intros k Hk. destruct (loop_body_frame proc fault i st) as (-> & _).
      apply Hb. right. exact Hk.
Qed.

(** Every checkpoint written holds the whole frame. *)
Lemma loop_body_whole (n : nat) (links : list string) (i : nat) (st : Store) :
  List.length (df st) = n ->
  map write_cell (map Link (df st)) = links ->
  Forall (whole_frame n links) (events st) ->
  Forall (whole_frame n links) (events (loop_body proc fault i st)).
Proof.
  intros Hn Hl Hev. destruct (nth_error (df st) i) as [row |] eqn:Hrow.
  - pose proof (loop_body_cases proc fault i st row Hrow) as Hc.
    destruct (proc_total row) as (t & res & Hp & Ht). rewrite Hp in Hc.
    cbv zeta in Hc.
    assert (Hsnap : whole_frame n links
                      (EvToCsv i (to_csv (written_back i res (df st))))).
    { simpl. rewrite to_csv_length, written_back_length, to_csv_links,
        written_back_links. split; assumption. }
    pose proof (whole_frame_extractor n links t Ht) as Ht'.
    pose proof (progress_event_whole n links i (List.length (df st)) res) as Hpr.
    destruct ((i + 1) mod BATCH_SIZE =? 0); [destruct (fault i) |];
      rewrite Hc; cbn [events];
      apply Forall_app; (split; [exact Hev |]);
      constructor; try exact I;
      apply Forall_app; (split; [exact Ht' |]);
      repeat (constructor; try exact I; try assumption).
  - unfold loop_body. rewrite Hrow. unfold on_exception, record. cbn [events].
    apply Forall_app. split; [exact Hev | repeat constructor].
Qed.

Lemma run_over_whole (n : nat) (links : list string) (idxs : list nat) (st : Store) :
  List.length (df st) = n ->
  map write_cell (map Link (df st)) = links ->
  Forall (whole_frame n links) (events st) ->
  Forall (whole_frame n links) (events (run_over proc fault idxs st)).
Proof.
  revert st. induction idxs as [| i idxs IH]; intros st Hn Hl Hev; [exact Hev |].
  rewrite run_over_cons.
  destruct (loop_body_frame proc fault i st) as (Hn1 & Hl1 & _).
  apply IH.
  - congruence.
  - rewrite Hl1. exact Hl.
  - apply loop_body_whole; assumption.
Qed.

End Total.

(** *** Counting on the milestones *)

Lemma processed_of_marks (fault : nat -> option exn) (idxs : list nat) :
  flat_map (fun m => match m with Processed i => [i] | Written _ => [] end)
           (flat_map (step_marks fault) idxs)
  = idxs.
Proof.
  induction idxs as [| i idxs IH]; [reflexivity |].
  cbn [flat_map]. rewrite flat_map_app, IH. unfold step_marks.
  destruct (writes_at fault i); reflexivity.
Qed.

Lemma writes_of_marks (fault : nat -> option exn) (idxs : list nat) :
  flat_map (fun m => match m with Written i => [i] | Processed _ => [] end)
           (flat_map (step_marks fault) idxs)
  = filter (writes_at fault) idxs.
Proof.
  induction idxs as [| i idxs IH]; [reflexivity |].
  cbn [flat_map filter]. rewrite flat_map_app, IH. unfold step_marks.
  destruct (writes_at fault i); reflexivity.
Qed.

(** When the first write of a run over [lo, lo+1, ...] is due after the
    record at [lo + j], it comes after [j + 1] records. *)
Lemma count_until_first_write (fault : nat -> option exn) (j lo m : nat) :
  j < m ->
  (forall i, lo <= i < lo + j -> writes_at fault i = false) ->
  writes_at fault (lo + j) = true ->
  count_until_write (flat_map (step_marks fault) (seq lo m)) = Some (S j).
Proof.
  revert lo m. induction j as [| j IH]; intros lo m Hm Hno Hyes.
  - destruct m as [| m]; [lia |]. cbn [seq flat_map]. unfold step_marks at 1.
    rewrite Nat.add_0_r in Hyes. rewrite Hyes. reflexivity.
  - destruct m as [| m]; [lia |]. cbn [seq flat_map]. unfold step_marks at 1.
    rewrite (Hno lo) by lia. cbn [app count_until_write].
    rewrite (IH (S lo) m); [reflexivity | lia | |].
    + intros i Hi. apply Hno. lia.
    + replace (S lo + j) with (lo + S j) by lia. exact Hyes.
Qed.

(** The next multiple of the batch size after [r] records. *)
Lemma next_batch_position (r i : nat) :
  r <= i < r + (BATCH_SIZE - r mod BATCH_SIZE) - 1 ->
  ((i + 1) mod BATCH_SIZE =? 0) = false.
Proof.
  unfold BATCH_SIZE. intros Hi. apply Nat.eqb_neq.
  pose proof (Nat.div_mod_eq r 50) as Hr.
  pose proof (Nat.mod_upper_bound r 50 ltac:(lia)) as Hm.
  rewrite <- (Nat.mod_unique (i + 1) 50 (r / 50) (r mod 50 + (i - r) + 1)); lia.
Qed.

Lemma batch_position_due (r : nat) :
  ((r + (BATCH_SIZE - r mod BATCH_SIZE - 1) + 1) mod BATCH_SIZE =? 0) = true.
Proof.
  unfold BATCH_SIZE. apply Nat.eqb_eq.
  pose proof (Nat.div_mod_eq r 50) as Hr.
  pose proof (Nat.mod_upper_bound r 50 ltac:(lia)) as Hm.
  symmetry. apply (Nat.mod_unique _ 50 (S (r / 50)) 0); lia.
Qed.

(** *** The run as a whole *)


Lemma main_with_run (proc : Row -> M Result) (fault : nat -> option exn)
      (papers : list Paper) (file : option csv) :
  let final :=
    run_over proc fault
             (seq (snd (resume papers file))
                  (List.length papers - snd (resume papers file)))
             (initial papers file) in
  run_trace (main_with proc fault papers file) = events final
  /\ output (main_with proc fault papers file) = df final
  /\ printed_success_count (main_with proc fault papers file) = success_count (df final)
  /\ printed_total (main_with proc fault papers file) = List.length papers.
Proof.
  unfold main_with, iterate, initial.
  pose proof (ResumeFacts.resume_length papers file) as Hl.
  destruct (resume papers file) as [frame start]. cbn [fst snd df] in *.
  rewrite Hl. cbn [run_trace output printed_success_count printed_total].
  pose proof (run_over_frame proc fault (seq start (List.length papers - start))
                {| df := frame; checkpoint_file := file; events := [] |}) as (Hn & _).
  unfold run_over in *. cbn [df] in Hn.
  repeat split. congruence.
Qed.

Lemma range_in_frame (papers : list Paper) (file : option csv) (i : nat) :
  In i (seq (snd (resume papers file)) (List.length papers - snd (resume papers file))) ->
  i < List.length (df (initial papers file)).
Proof.
  rewrite in_seq. unfold initial. cbn [df].
  rewrite ResumeFacts.resume_length. lia.
Qed.

Lemma process_paper_proc_total (w : World) (row : Row) :
  exists t res,
    PaperProcessor.process_paper w row = (t, Ok res) /\ Forall extractor_event t.
Proof.
  destruct (ProcessorFacts.process_paper_total w row) as (t & r & H & Ht & _).
  exists t, r. split; assumption.
Qed.

(** *** Runs without a checkpoint *)

Lemma update_at_Forall (P : Row -> Prop) (i : nat) (f : Row -> Row) (frame : list Row) :
  (forall r, P r -> P (f r)) -> Forall P frame -> Forall P (update_at i f frame).
Proof.
  intros Hf H. revert i. induction H as [| r frame Hr Hrest IH]; intros [| i]; simpl;
    try constructor; auto.
Qed.


Lemma loop_body_holds_text (proc : Row -> M Result) (fault : nat -> option exn)
      (i : nat) (st : Store) :
  Forall holds_text (df st) -> Forall holds_text (df (loop_body proc fault i st)).
Proof.
  intros H. destruct (nth_error (df st) i) as [row |] eqn:Hrow.
  - pose proof (loop_body_cases proc fault i st row Hrow) as Hc.
    assert (Hw : forall res, Forall holds_text (written_back i res (df st))).
    { intros res. unfold written_back. simpl.
      apply update_at_Forall; [intros r Hr; exact Hr |].
      apply update_at_Forall; [intros r _; reflexivity | exact H]. }
    destruct (proc row) as [t [res | e]].
    + cbv zeta in Hc.
      destruct ((i + 1) mod BATCH_SIZE =? 0); [destruct (fault i) |];
        rewrite Hc; cbn [df]; apply Hw.
    + rewrite Hc. exact H.
  - unfold loop_body. rewrite Hrow. exact H.
Qed.

Lemma run_over_holds_text (proc : Row -> M Result) (fault : nat -> option exn)
      (idxs : list nat) (st : Store) :
  Forall holds_text (df st) -> Forall holds_text (df (run_over proc fault idxs st)).
Proof.
  revert st. induction idxs as [| i idxs IH]; intros st H; [exact H |].
  rewrite run_over_cons. apply IH, loop_body_holds_text, H.
Qed.

Lemma success_count_holds_text (frame : list Row) :
  Forall holds_text frame -> success_count frame = count_nonempty frame.
Proof.
  unfold success_count, count_nonempty.
  induction 1 as [| r frame Hr _ IH]; [reflexivity |].
  simpl. unfold holds_text in Hr.
  destruct (Abstract r) as [| [| c s]]; simpl in *; try discriminate; congruence.
Qed.

(** Without a checkpoint the printed count is the number of records with
    a non-empty abstract. *)
Lemma success_count_without_checkpoint
      (proc : Row -> M Result) (fault : nat -> option exn) (papers : list Paper) :
  printed_success_count (main_with proc fault papers None)
  = count_nonempty (output (main_with proc fault papers None)).
Proof.
  destruct (main_with_run proc fault papers None) as (_ & -> & -> & _).
  apply success_count_holds_text, run_over_holds_text.
  unfold initial. simpl. apply Forall_forall. intros r Hr.
  apply in_map_iff in Hr. destruct Hr as (p & <- & _). reflexivity.
Qed.

End LoopFacts.

(** ** The claims on the normalizer, the extractors and the processor *)

Import Normalizer NormalizerFacts FieldExtractor FallbackClient PaperProcessor.
Import Trace ExtractorFacts ProcessorFacts Failure.

(** C8.  The Text Normalizer returns the empty string on absent and on
    empty input, returns ["A b"] on ["<b>A  b</b>!!"], and is defined on
    every input: its result holds characters of the allow-set only and has
    no white space at either end. *)
Theorem clean_text_contract :
  clean_text None = ""
  /\ clean_text (Some "") = ""
  /\ clean_text (Some "<b>A  b</b>!!") = "A b"
  /\ forall text, exists r,
       clean_text text = r
       /\ Forall (fun c => Chars.allowed c = true) (list_ascii_of_string r)
       /\ strip (list_ascii_of_string r) = list_ascii_of_string r.
Proof.
  split; [reflexivity |]. split; [reflexivity |]. split; [reflexivity |].
  intros text. eexists. split; [reflexivity |].
  assert (H : exists s, clean_text text = clean_text (Some s)).
  { destruct text as [s |]; [exists s | exists ""]; reflexivity. }
  destruct H as [s ->]. rewrite chars_of_clean_text.
  destruct (clean_chars_normal_form (list_ascii_of_string s)) as [Ha _ Hh Ht].
  split; [exact Ha |].
  unfold strip. rewrite lstrip_fixed by exact Hh. exact Ht.
Qed.

(** C10 at the failing input ["a ! b"].  The step under the comment
    [# Remove extra whitespace] (line 48) runs before the step that removes
    the characters outside the allow-set (line 50), so the removal of [!]
    brings two blanks together: the result ["a  b"] still has extra white
    space, and a second application changes it to ["a b"]. *)
Lemma clean_text_not_idempotent :
  clean_text (Some "a ! b") = "a  b"
  /\ no_double_space (list_ascii_of_string (clean_text (Some "a ! b"))) = false
  /\ clean_text (Some (clean_text (Some "a ! b"))) = "a b"
  /\ clean_text (Some (clean_text (Some "a ! b"))) <> clean_text (Some "a ! b").
Proof.
  split; [reflexivity |]. split; [reflexivity |]. split; [reflexivity |].
  discriminate.
Qed.

(** X25.  What the code does on a second application of the Text
    Normalizer: it changes nothing exactly when the result of the first
    application has no two neighbouring blanks, and the result of the
    second application is always a fixed point. *)
Theorem clean_text_idempotent_iff (text : option string) :
  (clean_text (Some (clean_text text)) = clean_text text
   <-> no_double_space (list_ascii_of_string (clean_text text)) = true)
  /\ clean_text (Some (clean_text (Some (clean_text text))))
     = clean_text (Some (clean_text text)).
Proof.
  assert (H : exists s, clean_text text = clean_text (Some s)).
  { destruct text as [s |]; [exists s | exists ""]; reflexivity. }
  destruct H as [s ->]. split.
  - rewrite chars_of_clean_text.
    rewrite (clean_text_chars (clean_text (Some s))), chars_of_clean_text.
    rewrite (clean_text_chars s).
    rewrite <- clean_chars_fixed_iff. split.
    + apply string_of_chars_inj.
    + intros ->. reflexivity.
  - rewrite (clean_text_chars (clean_text (Some (clean_text (Some s))))).
    rewrite !chars_of_clean_text.
    rewrite clean_chars_thrice.
    rewrite (clean_text_chars (clean_text (Some s))), chars_of_clean_text.
    reflexivity.
Qed.

(** C6.  On every parsed document the Field Extractor tries the abstract
    strategies in the order (a), (b), (c) and stops at the first one that
    yields a text: (b) is tried only when (a) yields none, (c) only when
    (a) and (b) yield none, and the abstract is that of the first
    successful strategy.  The keyword lookup is made in every case and its
    result does not depend on the abstract.  For a fetched page this is the
    answer of [extract_from_scopus]. *)
Theorem scan_strategy_order (soup : list node) :
  (exists t abstract,
      scan soup = (t, Ok (abstract, keyword_lookup soup))
      /\ success abstract
         = first_success [strategy_a soup; strategy_b soup; strategy_c soup]
      /\ strategies_tried t = prescribed_order (strategy_a soup) (strategy_b soup))
  /\ (forall w url response,
         session_get w url 15 = Ok response ->
         http_error response = false ->
         soup_of response = Ok soup ->
         Eff.result (extract_from_scopus w url) = Eff.result (scan soup)).
Proof.
  split.
  - destruct (scan_spec soup) as (t & a & H1 & H2 & H3 & _).
    exists t, a. auto.
  - intros w url response Hg Hs Hp.
    pose proof (scopus_try_cases w url) as Hc. rewrite Hg, Hs, Hp in Hc.
    destruct (extract_from_scopus_total w url) as (t & r & He & _ & _ & Hok).
    destruct (scan_spec soup) as (t' & a & Hscan & _).
    rewrite Hscan in Hc. cbn in Hc.
    rewrite He, Hscan. cbn. f_equal. apply Hok. exact Hc.
Qed.

(** The page of the scenario, fetched from its link. *)
Lemma scan_strategy_order_witness :
  Eff.result (extract_from_scopus Scenario.world3 "http://a")
  = Eff.result (scan Scenario.page_a).
Proof.
  destruct (scan_strategy_order Scenario.page_a) as [_ H].
  apply (H Scenario.world3 "http://a"
           {| status_code := 200; soup_of := Ok Scenario.page_a;
              json_of := Raise JSONDecodeError |});
    reflexivity.
Defined.

(** C4, as stated, fails on two of the cases it names.  A missing field
    raises nothing and nothing is logged: for a record of the metadata API
    without an abstract the call returns [(None, None)] and its trace holds
    the call and the request only.  And a response whose status is not a
    2xx status is an exception only from 400 to 599: a page answered with
    the status 300 is read like any other, the call returns its abstract
    and its keywords and logs nothing. *)
Lemma unlogged_field_and_status_300 :
  extract_from_doi Scenario.world_gaps "10.1/t"
  = ([EvDoi "10.1/t"; EvGet (api_url "10.1/t") 10], Ok (None, None))
  /\ extract_from_scopus Scenario.world_gaps "http://m"
     = ([EvScopus "http://m"; EvGet "http://m" 15;
         EvFind InDocument Soup.sel_abstract_section;
         EvFind InSection Soup.sel_abstract_div;
         EvFind InDocument Soup.sel_keyword_span],
        Ok (Some "Deep learning works", Some "AI; ML")).
Proof. split; reflexivity. Qed.

(** C4, amended.  For every URL and every DOI the two extractors return a
    pair and raise nothing.  The exceptions of the fetch and of the parse
    (the request itself, a status from 400 to 599, a body that cannot be
    parsed, data of an unexpected shape) are logged, at error level by the
    Field Extractor and at debug level by the Fallback Metadata Client, and
    answered by [(None, None)]; nothing else is logged.  A missing field
    is answered by [(None, None)] without a log entry, and a page with any
    other status is read. *)
Theorem extractors_never_raise (w : World) (url doi : string) :
  (exists t r,
      extract_from_scopus w url = (t, Ok r)
      /\ (forall e, scopus_failure w url e ->
                    r = (None, None) /\ In (EvLog ERROR (MsgScopusError url e)) t)
      /\ (forall lvl msg, In (EvLog lvl msg) t ->
             exists e, scopus_failure w url e
                       /\ lvl = ERROR /\ msg = MsgScopusError url e)
      /\ (forall response soup,
             session_get w url 15 = Ok response ->
             status_code response < 400 \/ 600 <= status_code response ->
             soup_of response = Ok soup ->
             Ok r = Eff.result (scan soup)))
  /\ (exists t r,
         extract_from_doi w doi = (t, Ok r)
         /\ (forall e, doi_failure w doi e ->
                       r = (None, None) /\ In (EvLog DEBUG (MsgCrossRefFailed doi e)) t)
         /\ (forall lvl msg, In (EvLog lvl msg) t ->
                exists e, doi_failure w doi e
                          /\ lvl = DEBUG /\ msg = MsgCrossRefFailed doi e)
         /\ (doi_field_missing w doi ->
             r = (None, None) /\ t = [EvDoi doi; EvGet (api_url doi) 10])).
Proof.
  split.
  - destruct (extract_from_scopus_total w url) as (t & r & He & _ & Hraise & Hok).
    exists t, r. split; [exact He |].
    pose proof (scopus_try_cases w url) as Hc.
    split; [| split].
    + intros e Hf. apply Hraise.
      destruct Hf as [e Hg | response Hg Hs | response e Hg Hs Hp].
      * rewrite Hg in Hc. exact Hc.
      * rewrite Hg, Hs in Hc. exact Hc.
      * rewrite Hg, Hs, Hp in Hc. exact Hc.
    + intros lvl msg Hin.
      replace t with (Eff.trace (extract_from_scopus w url)) in Hin
        by (rewrite He; reflexivity).
      destruct (extract_from_scopus_log _ _ _ _ Hin) as (e & Hr & -> & ->).
      exists e. split; [apply scopus_try_raises; exact Hr | auto].
    + intros response soup Hg Hs Hp.
      assert (Hh : http_error response = false).
      { unfold http_error. apply andb_false_iff.
        destruct Hs as [Hs | Hs]; [left; apply Nat.leb_gt | right; apply Nat.ltb_ge]; lia. }
      rewrite Hg, Hh, Hp in Hc.
      destruct (scan_spec soup) as (t' & a & Hscan & _).
      rewrite Hscan in Hc |- *. cbn in Hc |- *. f_equal. apply Hok. exact Hc.
  - destruct (extract_from_doi_total w doi) as (t & r & He & _ & _ & Hraise & Hnone & _).
    exists t, r. split; [exact He |].
    pose proof (doi_try_cases w doi) as Hc.
    split; [| split].
    + intros e Hf. apply Hraise.
      destruct Hf as [e Hg | response Hg Hs | response e Hg Hs Hp
                     | data (response & Hg & Hs & Hp) Hd
                     | fields message (response & Hg & Hs & Hp) Hm Hd
                     | fields inner abstract (response & Hg & Hs & Hp) Hm Ha Ht Hd].
      * rewrite Hg in Hc. exact Hc.
      * rewrite Hg, Hs in Hc. exact Hc.
      * rewrite Hg, Hs, Hp in Hc. exact Hc.
      * rewrite Hg, Hs, Hp in Hc.
        destruct data; try exact Hc. exfalso. eapply Hd. reflexivity.
      * rewrite Hg, Hs, Hp, Hm in Hc.
        destruct message; try exact Hc. exfalso. eapply Hd. reflexivity.
      * rewrite Hg, Hs, Hp, Hm, Ha in Hc.
        destruct abstract; try (rewrite Ht in Hc; exact Hc).
        exfalso. eapply Hd. reflexivity.
    + intros lvl msg Hin.
      replace t with (Eff.trace (extract_from_doi w doi)) in Hin
        by (rewrite He; reflexivity).
      destruct (extract_from_doi_log _ _ _ _ Hin) as (e & Hr & -> & ->).
      exists e. split; [apply doi_try_raises; exact Hr | auto].
    + intros Hmiss.
      assert (Hr : Eff.result (doi_try w doi) = Ok None).
      { destruct Hmiss as [fields (response & Hg & Hs & Hp) Hm
                          | fields inner (response & Hg & Hs & Hp) Hm Ha].
        * rewrite Hg, Hs, Hp, Hm in Hc. exact Hc.
        * rewrite Hg, Hs, Hp, Hm, Ha in Hc. exact Hc. }
      split; [apply Hnone; exact Hr |].
      pose proof (doi_try_trace w doi) as Ht.
      unfold extract_from_doi in He.
      destruct (doi_try w doi) as [t' [[v |] | e]]; cbn in Hr, Ht; try discriminate.
      subst t'. cbn in He. injection He as <- _. reflexivity.
Qed.

(** A link that cannot be reached, a page answered with the status 300 and
    a record of the metadata API without an abstract. *)
Lemma extractors_never_raise_witness :
  (exists t,
      extract_from_scopus Scenario.world3 "http://bad-b" = (t, Ok (None, None))
      /\ In (EvLog ERROR (MsgScopusError "http://bad-b" (RequestException "unreachable"))) t)
  /\ Eff.result (extract_from_scopus Scenario.world_gaps "http://m")
     = Eff.result (scan Scenario.page_a)
  /\ extract_from_doi Scenario.world_gaps "10.1/t"
     = ([EvDoi "10.1/t"; EvGet (api_url "10.1/t") 10], Ok (None, None)).
Proof.
  split; [| split].
  - destruct (extractors_never_raise Scenario.world3 "http://bad-b" "10.1/none")
      as [(t & r & He & Hf & _) _].
    destruct (Hf (RequestException "unreachable")) as [-> Hlog].
    + apply ScopusRequest. reflexivity.
    + exists t. split; [exact He | exact Hlog].
  - destruct (extractors_never_raise Scenario.world_gaps "http://m" "10.1/t")
      as [(t & r & He & _ & _ & Hread) _].
    rewrite He. cbn [Eff.result snd].
    apply (Hread {| status_code := 300; soup_of := Ok Scenario.page_a;
                    json_of := Raise JSONDecodeError |} Scenario.page_a);
      [reflexivity | left; cbn; lia | reflexivity].
  - destruct (extractors_never_raise Scenario.world_gaps "http://m" "10.1/t")
      as [_ (t & r & He & _ & _ & Hmiss)].
    destruct Hmiss as [-> ->]; [| exact He].
    apply (NoAbstract _ _ [("status", JStr "ok");
                           ("message", JObj [("title", JArr [JStr "A title"])])]
                      [("title", JArr [JStr "A title"])]);
      [| reflexivity | reflexivity].
    exists {| status_code := 200; soup_of := Ok []; json_of := Ok Scenario.api_answer_bare |}.
    split; [reflexivity |]. split; reflexivity.
Defined.

(** C3.  When the record has a link and the Field Extractor returns an
    abstract that is present and not empty, the Paper Processor returns
    the Success-Primary outcome with that abstract and the extracted
    keywords (or the empty text), and its trace holds no call of the
    Fallback Metadata Client and no request to the metadata API, whatever
    the DOI of the record and whatever the API would answer. *)
Theorem primary_success_takes_precedence
        (w : World) (row : Row) (abstract keywords : option string) :
  Cell.truthy (Link row) = true ->
  Eff.result (extract_from_scopus w (Cell.to_str (Link row))) = Ok (abstract, keywords) ->
  opt_truthy abstract = true ->
  exists t,
    process_paper w row
    = (t, Ok {| r_Abstract := text_value abstract;
                r_Keywords := or_empty keywords;
                r_Status := SuccessScopus |})
    /\ (forall d, ~ In (EvDoi d) t)
    /\ (forall u, ~ In (EvGet u 10) t).
Proof.
  intros Hl He Ha.
  destruct (extract_from_scopus_total w (Cell.to_str (Link row)))
    as (t & r & Ht & Hev & _).
  rewrite Ht in He. cbn in He. injection He as ->.
  exists t. split; [apply process_paper_primary; assumption |].
  rewrite Forall_forall in Hev.
  split; intros x Hin; apply Hev in Hin; destruct Hin as [Hin _]; exact Hin.
Qed.

(** A record whose link succeeds and whose DOI is known to the metadata
    API. *)
Lemma primary_success_takes_precedence_witness :
  Eff.result (extract_from_doi Scenario.world3 "10.1/b") = Ok (Some "Fallback text", None)
  /\ exists t,
       process_paper Scenario.world3 Scenario.row_both
       = (t, Ok {| r_Abstract := "Deep learning works";
                   r_Keywords := "AI; ML";
                   r_Status := SuccessScopus |})
       /\ (forall d, ~ In (EvDoi d) t)
       /\ (forall u, ~ In (EvGet u 10) t).
Proof.
  split; [reflexivity |].
  apply (primary_success_takes_precedence Scenario.world3 Scenario.row_both
           (Some "Deep learning works") (Some "AI; ML"));
    reflexivity.
Defined.


(** X24.  The Paper Processor always returns an outcome; its status is
    Failed if and only if its abstract is empty; and a record whose link
    and DOI are both false for the tests of the code (the empty text)
    yields the outcome with empty abstract, empty keywords and status
    Failed, without any request. *)
Theorem failed_iff_empty_abstract (w : World) (row : Row) :
  exists t r,
    process_paper w row = (t, Ok r)
    /\ (r_Status r = Failed <-> r_Abstract r = "")
    /\ (Cell.truthy (Link row) = false ->
        Cell.truthy (DOI row) = false ->
        t = [] /\ r = {| r_Abstract := ""; r_Keywords := ""; r_Status := Failed |}).
Proof.
  destruct (process_paper_total w row) as (t & r & Hp & _ & Hiff).
  exists t, r. split; [exact Hp |]. split; [exact Hiff |].
  intros Hl Hd. rewrite (process_paper_nothing_to_try w row Hl Hd) in Hp.
  injection Hp as <- <-. split; reflexivity.
Qed.

(** A record with the empty text for its link and for its DOI. *)
Lemma failed_iff_empty_abstract_witness :
  process_paper Scenario.world3 Scenario.row_bare
  = ([], Ok {| r_Abstract := ""; r_Keywords := ""; r_Status := Failed |}).
Proof.
  destruct (failed_iff_empty_abstract Scenario.world3 Scenario.row_bare)
    as (t & r & Hp & _ & Hbare).
  destruct Hbare as [-> ->]; [reflexivity | reflexivity |]. exact Hp.
Defined.

(** ** The claims on the Batch Run Controller *)

Import Controller ResumeFacts LoopFacts.

(** C2, as stated, fails: the checkpoint is due by the position of the
    record in the frame, not by the number of records of the current run.
    A run of 100 records resumed at index 30 writes its first checkpoint
    after record 49, that is after 20 records of that run. *)
Lemma first_checkpoint_after_20_records :
  snd (resume (Scenario.papers_upto 100) (Some (Scenario.checkpoint_upto 30 100))) = 30
  /\ processed_before_first_write
       (run_trace (main Scenario.world_ok (Scenario.papers_upto 100)
                        (Some (Scenario.checkpoint_upto 30 100))))
     = Some 20
  /\ processed_before_first_write
       (run_trace (main Scenario.world_ok (Scenario.papers_upto 100)
                        (Some (Scenario.checkpoint_upto 30 100))))
     <> Some 50.
Proof.
  assert (H : processed_before_first_write
                (run_trace (main Scenario.world_ok (Scenario.papers_upto 100)
                                 (Some (Scenario.checkpoint_upto 30 100))))
              = Some 20) by (vm_compute; reflexivity).
  split; [vm_compute; reflexivity |]. split; [exact H |].
  rewrite H. discriminate.
Qed.

(** C2, amended.  The controller writes the checkpoint after the record at
    index [i] exactly when [i + 1] is a multiple of 50 and the write does
    not fail.  The snapshot written holds the link, the abstract and the
    keywords of every record of the frame from index 0 and replaces the
    checkpoint file, whatever it held.  In a run resumed at index [r] the
    first checkpoint is therefore written after [50 - r mod 50] records of
    that run. *)
Theorem checkpoint_at_batch_positions (w : World) (papers : list Paper) (file : option csv) :
  checkpoint_writes (run_trace (main w papers file))
  = filter (writes_at (to_csv_fault w))
           (seq (snd (resume papers file)) (List.length papers - snd (resume papers file)))
  /\ Forall (whole_frame (List.length papers) (map write_cell (map p_Link papers)))
            (run_trace (main w papers file))
  /\ (forall i st,
         i < List.length (df st) ->
         writes_at (to_csv_fault w) i = true ->
         checkpoint_file (loop_body (PaperProcessor.process_paper w) (to_csv_fault w) i st)
         = Some (to_csv (df (loop_body (PaperProcessor.process_paper w) (to_csv_fault w) i st)))
         /\ In (EvToCsv i (to_csv (df (loop_body (PaperProcessor.process_paper w)
                                                 (to_csv_fault w) i st))))
               (events (loop_body (PaperProcessor.process_paper w) (to_csv_fault w) i st)))
  /\ (snd (resume papers file) + (BATCH_SIZE - snd (resume papers file) mod BATCH_SIZE)
      <= List.length papers ->
      to_csv_fault w (snd (resume papers file)
                      + (BATCH_SIZE - snd (resume papers file) mod BATCH_SIZE) - 1) = None ->
      processed_before_first_write (run_trace (main w papers file))
      = Some (BATCH_SIZE - snd (resume papers file) mod BATCH_SIZE)).
Proof.
  set (r := snd (resume papers file)).
  assert (Hm : milestones (run_trace (main w papers file))
               = flat_map (step_marks (to_csv_fault w)) (seq r (List.length papers - r))).
  { unfold main.
    destruct (main_with_run (PaperProcessor.process_paper w) (to_csv_fault w)
                papers file) as (-> & _).
    rewrite (run_over_milestones _ _ (process_paper_proc_total w))
      by apply range_in_frame.
    reflexivity. }
  split; [| split; [| split]].
  - unfold checkpoint_writes. rewrite Hm. apply writes_of_marks.
  - unfold main.
    destruct (main_with_run (PaperProcessor.process_paper w) (to_csv_fault w)
                papers file) as (-> & _).
    apply (run_over_whole _ _ (process_paper_proc_total w)).
    + unfold initial. cbn [df]. apply resume_length.
    + unfold initial. cbn [df]. rewrite resume_links. reflexivity.
    + constructor.
  - intros i st Hi Hw. unfold writes_at, no_fault in Hw.
    apply andb_prop in Hw. destruct Hw as [Hdue Hok].
    destruct (nth_error (df st) i) as [row |] eqn:Hrow.
    2:{ apply nth_error_None in Hrow. lia. }
    pose proof (loop_body_cases (PaperProcessor.process_paper w) (to_csv_fault w)
                  i st row Hrow) as Hc.
    destruct (process_paper_proc_total w row) as (t & res & Hp & _).
    rewrite Hp in Hc. cbv zeta in Hc. rewrite Hdue in Hc.
    destruct (to_csv_fault w i); [discriminate |].
    rewrite Hc. cbn [df checkpoint_file events]. split; [reflexivity |].
    apply in_or_app. right. right. apply in_or_app. right. right. left. reflexivity.
  - intros Hle Hok. unfold processed_before_first_write. rewrite Hm.
    pose proof (Nat.mod_upper_bound r BATCH_SIZE) as Hb.
    unfold BATCH_SIZE in Hb at 1. specialize (Hb ltac:(lia)).
    assert (Hpos : 1 <= BATCH_SIZE - r mod BATCH_SIZE) by lia.
    rewrite (count_until_first_write (to_csv_fault w)
               (BATCH_SIZE - r mod BATCH_SIZE - 1) r (List.length papers - r)).
    + f_equal. lia.
    + lia.
    + intros i Hi. unfold writes_at.
      rewrite (next_batch_position r i) by lia. reflexivity.
    + unfold writes_at, no_fault. rewrite batch_position_due.
      replace (r + (BATCH_SIZE - r mod BATCH_SIZE - 1))
        with (r + (BATCH_SIZE - r mod BATCH_SIZE) - 1) by lia.
      rewrite Hok. reflexivity.
Qed.

(** 100 records resumed at index 30: the first checkpoint comes after
    50 - 30 mod 50 = 20 records. *)
Lemma checkpoint_at_batch_positions_witness :
  processed_before_first_write
    (run_trace (main Scenario.world_ok (Scenario.papers_upto 100)
                     (Some (Scenario.checkpoint_upto 30 100))))
  = Some 20.
Proof.
  destruct (checkpoint_at_batch_positions Scenario.world_ok (Scenario.papers_upto 100)
              (Some (Scenario.checkpoint_upto 30 100))) as (_ & _ & _ & Hfirst).
  exact (Hfirst ltac:(vm_compute; lia) ltac:(reflexivity)).
Defined.

(** C5, as stated, fails: an exception raised after the result has been
    written back leaves the record with its fields filled.  In a run of 50
    records in which the checkpoint file cannot be written, the error is
    logged for paper 50 and the record at index 49 holds its abstract and
    its keywords in the output. *)
Lemma error_after_write_back :
  filter is_error_log
         (run_trace (main Scenario.world_locked (Scenario.papers_upto 50) None))
  = [EvLog ERROR (MsgProcessingError 50 (OSError "Permission denied"))]
  /\ nth_error (output (main Scenario.world_locked (Scenario.papers_upto 50) None)) 49
     = Some {| Link := Str "http://scopus/49"; DOI := Str "";
               Abstract := Str "Deep learning works"; Keywords := Str "AI; ML" |}
  /\ option_map fields_empty
       (nth_error (output (main Scenario.world_locked (Scenario.papers_upto 50) None)) 49)
     = Some false.
Proof. vm_compute. repeat split. Qed.

(** C5, amended.  Whatever is raised in the loop, every position from the
    resume index on is handed to the Paper Processor.  An exception of the
    Paper Processor for a record is logged as an error and the record has
    in the output the row it had when the loop started: empty abstract and
    keywords in a run without checkpoint, and empty fields in any run in
    which they were empty at the start.  An exception of the checkpoint
    write after a record is logged as an error as well, and that record
    holds the abstract and the keywords written back before. *)
Theorem exception_keeps_record
        (proc : Row -> M Result) (fault : nat -> option exn)
        (papers : list Paper) (file : option csv) :
  (forall j, snd (resume papers file) <= j < List.length papers ->
             In (EvProcess j) (run_trace (main_with proc fault papers file)))
  /\ (forall i row t e,
         snd (resume papers file) <= i ->
         nth_error (fst (resume papers file)) i = Some row ->
         proc row = (t, Raise e) ->
         In (EvLog ERROR (MsgProcessingError (i + 1) e))
            (run_trace (main_with proc fault papers file))
         /\ nth_error (output (main_with proc fault papers file)) i = Some row
         /\ (file = None -> Abstract row = Str "" /\ Keywords row = Str "")
         /\ (fields_empty row = true ->
             option_map fields_empty
                        (nth_error (output (main_with proc fault papers file)) i)
             = Some true))
  /\ (forall i row t res e,
         snd (resume papers file) <= i ->
         nth_error (fst (resume papers file)) i = Some row ->
         proc row = (t, Ok res) ->
         ((i + 1) mod BATCH_SIZE =? 0) = true ->
         fault i = Some e ->
         In (EvLog ERROR (MsgProcessingError (i + 1) e))
            (run_trace (main_with proc fault papers file))
         /\ nth_error (output (main_with proc fault papers file)) i
            = Some (filled row res)).
Proof.
  destruct (main_with_run proc fault papers file) as (-> & -> & _).
  assert (Hin : forall i row,
             nth_error (fst (resume papers file)) i = Some row ->
             i < List.length papers).
  { intros i row Hrow. rewrite <- (resume_length papers file).
    apply nth_error_Some. congruence. }
  split; [| split].
  - intros j Hj. apply run_over_processes.
    + rewrite in_seq. lia.
    + apply range_in_frame.
  - intros i row t e Hstart Hrow Hp. pose proof (Hin i row Hrow) as Hi.
    destruct (run_over_raise proc fault (snd (resume papers file))
                (List.length papers - snd (resume papers file)) i
                (initial papers file) row t e) as [Hkeep Hlog];
      [lia | exact Hrow | exact Hp |].
    split; [exact Hlog |]. split; [exact Hkeep |]. split.
    + intros ->. apply (resume_fresh papers i row Hrow).
    + intros He. rewrite Hkeep. simpl. rewrite He. reflexivity.
  - intros i row t res e Hstart Hrow Hp Hdue Hf. pose proof (Hin i row Hrow) as Hi.
    destruct (run_over_csv_fault proc fault (snd (resume papers file))
                (List.length papers - snd (resume papers file)) i
                (initial papers file) row t res e) as [Hrowi Hlog];
      [lia | exact Hrow | exact Hp | exact Hdue | exact Hf |].
    split; [exact Hlog | exact Hrowi].
Qed.

(** Three records without checkpoint, the processor raising for the
    second. *)
Lemma exception_keeps_record_witness :
  In (EvLog ERROR (MsgProcessingError 2 (OtherException "boom")))
     (run_trace (main_with Scenario.proc_flaky (fun _ => None) (Scenario.papers_upto 3) None))
  /\ nth_error (output (main_with Scenario.proc_flaky (fun _ => None)
                                  (Scenario.papers_upto 3) None)) 1
     = Some {| Link := Str "http://scopus/1"; DOI := Str "";
               Abstract := Str ""; Keywords := Str "" |}.
Proof.
  destruct (exception_keeps_record Scenario.proc_flaky (fun _ => None)
              (Scenario.papers_upto 3) None) as (_ & Hraise & _).
  destruct (Hraise 1
              {| Link := Str "http://scopus/1"; DOI := Str "";
                 Abstract := Str ""; Keywords := Str "" |}
              [] (OtherException "boom"))
    as (Hlog & Hkeep & _).
  - simpl. lia.
  - reflexivity.
  - reflexivity.
  - split; [exact Hlog | exact Hkeep].
Defined.

(** The end-to-end scenario of three records, run without a checkpoint:
    two abstracts, success count 2, success rate 66.67. *)
Lemma end_to_end_scenario :
  map Abstract (output (main Scenario.world3 Scenario.papers3 None))
  = [Str "Deep learning works"; Str "Fallback text"; Str ""]
  /\ printed_success_count (main Scenario.world3 Scenario.papers3 None) = 2
  /\ printed_success_rate (main Scenario.world3 Scenario.papers3 None) = "66.67".
Proof. vm_compute. repeat split. Qed.

(** C9 at the failing input: the three records with a checkpoint in which
    the first has no abstract and the second has one.  The run resumes at
    index 1, the first record keeps the missing value, and the count
    [astype(bool).sum()] takes the missing value for a success: the output
    holds one non-empty abstract, and the run prints the count 2 and the
    rate 66.67 where one record of three gives 33.33. *)
Theorem success_count_counts_missing_values :
  map Abstract (output (main Scenario.world3 Scenario.papers3 (Some Scenario.checkpoint_gap)))
  = [NaN; Str "Fallback text"; Str ""]
  /\ count_nonempty
       (output (main Scenario.world3 Scenario.papers3 (Some Scenario.checkpoint_gap))) = 1
  /\ printed_success_count
       (main Scenario.world3 Scenario.papers3 (Some Scenario.checkpoint_gap)) = 2
  /\ printed_success_rate
       (main Scenario.world3 Scenario.papers3 (Some Scenario.checkpoint_gap)) = "66.67"
  /\ format_rate 1 3 = "33.33".
Proof. vm_compute. repeat split. Qed.

(** ** Further properties of the Text Normalizer *)

Module NormalizerMore.
Import Chars Normalizer NormalizerFacts Notions.

Lemma remove_tags_from_length (k : nat) (l : list ascii) :
  List.length (remove_tags_from k l) <= List.length l.
Proof.
  revert k. induction l as [| c l IH]; intros k; [apply Nat.le_refl |].
  cbn [remove_tags_from]. destruct k as [| k].
  - destruct (Ascii.eqb c lt_sign).
    + destruct (index_gt l) as [[| j] |]; simpl;
        try (specialize (IH 0); lia).
      specialize (IH (S (S j))). lia.
    + simpl. specialize (IH 0). lia.
  - specialize (IH k). simpl. lia.
Qed.

Lemma lstrip_length (l : list ascii) : List.length (lstrip l) <= List.length l.
Proof.
  induction l as [| c l IH]; simpl; [lia |].
  destruct (is_space c); simpl; lia.
Qed.

Lemma rstrip_length (l : list ascii) : List.length (rstrip l) <= List.length l.
Proof.
  induction l as [| c l IH]; simpl; [lia |].
  destruct (rstrip l); [destruct (is_space c) |]; simpl in *; lia.
Qed.

Lemma clean_chars_length (l : list ascii) :
  List.length (clean_chars l) <= List.length l.
Proof.
  unfold clean_chars, strip, remove_special, collapse_ws, remove_tags.
  pose proof (rstrip_length (lstrip (filter allowed (collapse_from false
                (remove_tags_from 0 l))))).
  pose proof (lstrip_length (filter allowed (collapse_from false
                (remove_tags_from 0 l)))).
  pose proof (filter_length_le allowed (collapse_from false (remove_tags_from 0 l))).
  pose proof (collapse_length false (remove_tags_from 0 l)).
  pose proof (remove_tags_from_length 0 l).
  lia.
Qed.

Lemma string_length_chars (s : string) :
  String.length s = List.length (list_ascii_of_string s).
Proof. induction s as [| c s IH]; simpl; congruence. Qed.

(** *** Tags *)

Lemma index_gt_none (l : list ascii) :
  forallb (fun c => negb (is_gt c)) l = true -> index_gt l = None.
Proof.
  unfold is_gt. induction l as [| c l IH]; simpl; [reflexivity |].
  intros H. apply andb_prop in H. destruct H as [Hc Hl].
  apply negb_true_iff in Hc. rewrite Hc, (IH Hl). reflexivity.
Qed.

Lemma index_gt_at (body post : list ascii) :
  forallb (fun c => negb (is_gt c)) body = true ->
  index_gt (body ++ gt_sign :: post) = Some (List.length body).
Proof.
  unfold is_gt. induction body as [| c body IH]; simpl.
  - reflexivity.
  - intros H. apply andb_prop in H. destruct H as [Hc Hl].
    apply negb_true_iff in Hc. rewrite Hc, (IH Hl). reflexivity.
Qed.

Lemma remove_tags_skip (a b : list ascii) :
  remove_tags_from (List.length a) (a ++ b) = remove_tags_from 0 b.
Proof. induction a as [| c a IH]; [reflexivity | exact IH]. Qed.

Lemma remove_tags_prefix (pre rest : list ascii) :
  forallb (fun c => negb (is_lt c)) pre = true ->
  remove_tags (pre ++ rest) = pre ++ remove_tags rest.
Proof.
  unfold remove_tags, is_lt. induction pre as [| c pre IH]; simpl; [reflexivity |].
  intros H. apply andb_prop in H. destruct H as [Hc Hl].
  apply negb_true_iff in Hc. rewrite Hc, (IH Hl). reflexivity.
Qed.

Lemma remove_tags_from_Forall (P : ascii -> Prop) (k : nat) (l : list ascii) :
  Forall P l -> Forall P (remove_tags_from k l).
Proof.
  intros H. revert k. induction H as [| c l Hc _ IH]; intros k; [constructor |].
  cbn [remove_tags_from]. destruct k as [| k]; [| apply IH].
  destruct (Ascii.eqb c lt_sign).
  - destruct (index_gt l) as [[| j] |]; try (constructor; [exact Hc | apply IH]).
    apply IH.
  - constructor; [exact Hc | apply IH].
Qed.

Lemma collapse_vanishing (b : bool) (l : list ascii) :
  Forall (fun c => vanishing c = true) l ->
  Forall (fun c => vanishing c = true) (collapse_from b l).
Proof.
  intros H. revert b. induction H as [| c l Hc _ IH]; intros b; simpl; [constructor |].
  destruct (is_space c).
  - destruct b; [apply IH |]. constructor; [reflexivity | apply IH].
  - constructor; [exact Hc | apply IH].
Qed.

Lemma filter_vanishing (l : list ascii) :
  Forall (fun c => vanishing c = true) l ->
  forallb is_space (remove_special l) = true.
Proof.
  unfold remove_special, vanishing.
  induction 1 as [| c l Hc _ IH]; simpl; [reflexivity |].
  destruct (allowed c) eqn:Ea; [| exact IH].
  simpl. rewrite IH, andb_true_r.
  destruct (is_space c); [reflexivity | discriminate].
Qed.

Lemma lstrip_all_space (l : list ascii) :
  forallb is_space l = true -> lstrip l = [].
Proof.
  induction l as [| c l IH]; simpl; [reflexivity |].
  intros H. apply andb_prop in H. destruct H as [-> Hl]. apply IH, Hl.
Qed.

End NormalizerMore.

Import Notions NormalizerMore.

(** X1.  The Text Normalizer never lengthens a text: it only removes
    characters and replaces a run of white space by one blank. *)
Theorem clean_text_never_longer (s : string) :
  String.length (clean_text (Some s)) <= String.length s.
Proof.
  rewrite !string_length_chars, chars_of_clean_text. apply clean_chars_length.
Qed.

(** X2.  The texts the Text Normalizer leaves unchanged are exactly those
    that hold characters of the allow-set only, whose white space is
    single blanks, and that neither start nor end with white space. *)
Theorem clean_text_fixed_points (s : string) :
  clean_text (Some s) = s
  <-> normal_form (list_ascii_of_string s)
      /\ no_double_space (list_ascii_of_string s) = true.
Proof.
  rewrite clean_text_chars. split.
  - intros H. apply (f_equal list_ascii_of_string) in H.
    rewrite list_ascii_of_string_of_list_ascii in H.
    assert (Hn : normal_form (list_ascii_of_string s)).
    { rewrite <- H. apply clean_chars_normal_form. }
    split; [exact Hn |].
    rewrite (clean_chars_on_normal_form _ Hn) in H.
    apply (collapse_fixed_inv false). exact H.
  - intros [Hn Hd]. rewrite (clean_chars_on_normal_form _ Hn).
    unfold collapse_ws. rewrite collapse_fixed.
    + apply string_of_list_ascii_of_string.
    + apply Hn.
    + exact Hd.
    + discriminate.
Qed.

(** X3.  The first substitution removes a tag as a whole and nothing
    around it: in a text that has no [<] before the tag, whose tag body is
    not empty and holds no [>], the text before the tag is kept and the
    scan goes on behind the closing [>]. *)
Theorem remove_tags_drops_tag (pre body post : list ascii) :
  forallb (fun c => negb (is_lt c)) pre = true ->
  body <> [] ->
  forallb (fun c => negb (is_gt c)) body = true ->
  remove_tags (pre ++ Chars.lt_sign :: body ++ Chars.gt_sign :: post) = pre ++ remove_tags post.
Proof.
  intros Hpre Hne Hbody. rewrite (remove_tags_prefix _ _ Hpre). f_equal.
  unfold remove_tags. cbn [remove_tags_from].
  change (Ascii.eqb Chars.lt_sign Chars.lt_sign) with true. cbv iota.
  rewrite (index_gt_at body post Hbody).
  destruct body as [| c body]; [congruence |].
  cbn [List.length].
  change (c :: body) with ([c] ++ body). rewrite <- app_assoc.
  replace (S (S (List.length body)))
    with (List.length ((c :: body) ++ [Chars.gt_sign]))
    by (rewrite length_app; simpl; lia).
  change ([c] ++ body ++ Chars.gt_sign :: post) with ((c :: body) ++ [Chars.gt_sign] ++ post).
  rewrite app_assoc. apply remove_tags_skip.
Qed.

Lemma remove_tags_drops_tag_witness :
  remove_tags (list_ascii_of_string "a <b class=x> c")
  = list_ascii_of_string "a " ++ remove_tags (list_ascii_of_string " c").
Proof.
  apply (remove_tags_drops_tag (list_ascii_of_string "a ")
           (list_ascii_of_string "b class=x") (list_ascii_of_string " c"));
    [reflexivity | discriminate | reflexivity].
Defined.

(** X4.  A [<] that no [>] follows removes nothing: on a text without [>]
    the first substitution is the identity. *)
Theorem remove_tags_without_gt (l : list ascii) :
  forallb (fun c => negb (is_gt c)) l = true -> remove_tags l = l.
Proof.
  unfold remove_tags. induction l as [| c l IH]; [reflexivity |].
  intros H. cbn [forallb] in H. apply andb_prop in H. destruct H as [_ Hl].
  cbn [remove_tags_from]. rewrite (index_gt_none l Hl), (IH Hl).
  destruct (Ascii.eqb c Chars.lt_sign); reflexivity.
Qed.

Lemma remove_tags_without_gt_witness :
  remove_tags (list_ascii_of_string "a < b") = list_ascii_of_string "a < b".
Proof. apply remove_tags_without_gt. reflexivity. Defined.

(** X5.  A text made of white space and of characters outside the
    allow-set only is normalized to the empty text. *)
Theorem clean_chars_vanishing (l : list ascii) :
  forallb vanishing l = true -> clean_chars l = [].
Proof.
  intros H. unfold clean_chars, strip.
  rewrite lstrip_all_space; [reflexivity |].
  apply filter_vanishing, collapse_vanishing, remove_tags_from_Forall.
  apply Forall_forall. intros c Hc.
  rewrite forallb_forall in H. apply H, Hc.
Qed.

Lemma clean_chars_vanishing_witness :
  clean_chars (list_ascii_of_string " !? # ") = [].
Proof. apply clean_chars_vanishing. reflexivity. Defined.

(** ** Further properties of the extractors and of the Paper Processor *)

Module ProcessorMore.
Import Soup FieldExtractor FallbackClient PaperProcessor Trace.
Import ExtractorFacts ProcessorFacts Notions.

#[local] Arguments scan : simpl never.

Lemma requests_app (a b : list event) : requests (a ++ b) = requests a ++ requests b.
Proof. apply flat_map_app. Qed.

Lemma requests_finds (t : list event) : Forall is_find t -> requests t = [].
Proof.
  induction 1 as [| ev t Hev _ IH]; [reflexivity |].
  unfold requests in *. simpl. rewrite IH.
  destruct ev; simpl in *; try reflexivity; contradiction.
Qed.

Lemma scopus_try_requests (w : World) (url : string) :
  requests (Eff.trace (scopus_try w url)) = [(url, 15)].
Proof.
  unfold scopus_try, raise_for_status.
  destruct (session_get w url 15) as [response | e]; [| reflexivity].
  cbn. destruct (http_error response); [reflexivity |].
  cbn. destruct (soup_of response) as [soup | e]; [| reflexivity].
  cbn -[scan]. destruct (scan_spec soup) as (t & a & -> & _ & _ & Ht).
  cbn -[requests]. change (EvGet url 15 :: t) with ([EvGet url 15] ++ t).
  rewrite requests_app, (requests_finds t Ht). reflexivity.
Qed.

Lemma extract_from_scopus_requests (w : World) (url : string) :
  requests (Eff.trace (extract_from_scopus w url)) = [(url, 15)].
Proof.
  unfold extract_from_scopus.
  pose proof (scopus_try_requests w url) as H.
  destruct (scopus_try w url) as [t [v | e]]; cbn -[requests] in *.
  - change (EvScopus url :: t) with ([EvScopus url] ++ t).
    rewrite requests_app, H. reflexivity.
  - change (EvScopus url :: ?x) with ([EvScopus url] ++ x).
    rewrite !requests_app, H. reflexivity.
Qed.

Lemma extract_from_doi_requests (w : World) (doi : string) :
  requests (Eff.trace (extract_from_doi w doi)) = [(api_url doi, 10)].
Proof.
  unfold extract_from_doi.
  pose proof (doi_try_trace w doi) as H.
  destruct (doi_try w doi) as [t [[v |] | e]]; cbn in *; subst t; reflexivity.
Qed.

(** What the first block does: one request when there is a link, and a
    result only with the status of a success by the link. *)
Lemma try_scopus_requests (w : World) (link : cell) :
  exists t o,
    try_scopus w link = (t, Ok o)
    /\ requests t = (if Cell.truthy link then [(Cell.to_str link, 15)] else [])
    /\ (forall r, o = Some r -> r_Status r = SuccessScopus).
Proof.
  unfold try_scopus. destruct (Cell.truthy link).
  - pose proof (extract_from_scopus_requests w (Cell.to_str link)) as Hr.
    destruct (extract_from_scopus_total w (Cell.to_str link))
      as (t & [a k] & He & _).
    rewrite He in *. cbn in Hr.
    cbn. destruct (opt_truthy a); cbn; rewrite app_nil_r;
      eexists; eexists; (split; [reflexivity |]); (split; [exact Hr |]).
    + intros r [= <-]. reflexivity.
    + discriminate.
  - eexists; eexists. split; [reflexivity |]. split; [reflexivity | discriminate].
Qed.

(** What the second block does: one request when there is a DOI, and a
    result only with the status of a success by the DOI and with empty
    keywords. *)
Lemma try_doi_requests (w : World) (doi : cell) :
  exists t o,
    try_doi w doi = (t, Ok o)
    /\ requests t
       = (if Cell.truthy doi then [(api_url (Cell.to_str doi), 10)] else [])
    /\ (forall r, o = Some r -> r_Status r = SuccessDOI /\ r_Keywords r = "").
Proof.
  unfold try_doi. destruct (Cell.truthy doi).
  - pose proof (extract_from_doi_requests w (Cell.to_str doi)) as Hr.
    destruct (extract_from_doi_total w (Cell.to_str doi))
      as (t & [a k] & He & _ & Hk & _).
    rewrite He in *. cbn in Hr, Hk. subst k.
    cbn. destruct (opt_truthy a); cbn; rewrite app_nil_r;
      eexists; eexists; (split; [reflexivity |]); (split; [exact Hr |]).
    + intros r [= <-]. split; reflexivity.
    + discriminate.
  - eexists; eexists. split; [reflexivity |]. split; [reflexivity | discriminate].
Qed.

(** [process_paper] in terms of its two blocks. *)
Lemma process_paper_blocks (w : World) (row : Row) :
  exists t1 o1 t2 o2,
    try_scopus w (Link row) = (t1, Ok o1)
    /\ try_doi w (DOI row) = (t2, Ok o2)
    /\ process_paper w row
       = match o1 with
         | Some r => (t1, Ok r)
         | None =>
             (t1 ++ t2,
              Ok match o2 with
                 | Some r => r
                 | None => {| r_Abstract := ""; r_Keywords := ""; r_Status := Failed |}
                 end)
         end.
Proof.
  destruct (try_scopus_total w (Link row)) as (t1 & o1 & H1 & _).
  destruct (try_doi_total w (DOI row)) as (t2 & o2 & H2 & _).
  exists t1, o1, t2, o2. split; [exact H1 |]. split; [exact H2 |].
  unfold process_paper. rewrite H1. destruct o1 as [r1 |]; cbn.
  - rewrite app_nil_r. reflexivity.
  - rewrite H2. destruct o2; cbn; rewrite app_nil_r; reflexivity.
Qed.

(** *** Results of the normalizer *)

Lemma normalized_empty : normalized (Some "").
Proof. exists "". reflexivity. Qed.

Lemma normalized_text_value (a : option string) :
  normalized a -> normalized (Some (text_value a)).
Proof. destruct a; simpl; [trivial | intros _; exists ""; reflexivity]. Qed.

Lemma normalized_or_empty (a : option string) :
  normalized a -> normalized (Some (or_empty a)).
Proof.
  unfold or_empty. destruct (opt_truthy a); [| intros _; exists ""; reflexivity].
  apply normalized_text_value.
Qed.

Lemma scan_normalized (soup : list node) :
  exists t a k, scan soup = (t, Ok (a, k)) /\ normalized a /\ normalized k.
Proof.
  destruct (scan_spec soup) as (t & a & Hs & Hfirst & _).
  exists t, a, (keyword_lookup soup). split; [exact Hs |]. split.
  - unfold success in Hfirst. destruct (opt_truthy a) eqn:Ea.
    + rewrite Hfirst. cbn [first_success].
      unfold strategy_a, strategy_b, strategy_c, text_of.
      repeat match goal with
             | |- context [find ?s ?n] => destruct (find s n); cbn [option_map]
             | |- context [opt_truthy ?x] => destruct (opt_truthy x)
             end;
        try exact I; eexists; reflexivity.
    + destruct a as [[| c s] |]; [apply normalized_empty | discriminate | exact I].
  - unfold keyword_lookup, text_of.
    destruct (find sel_keyword_span soup); [eexists; reflexivity | exact I].
Qed.

Lemma extract_from_scopus_normalized (w : World) (url : string) :
  exists t a k,
    extract_from_scopus w url = (t, Ok (a, k)) /\ normalized a /\ normalized k.
Proof.
  destruct (extract_from_scopus_total w url) as (t & [a k] & He & _ & Hraise & Hok).
  exists t, a, k. split; [exact He |].
  pose proof (scopus_try_cases w url) as Hc.
  destruct (Eff.result (scopus_try w url)) as [v | e] eqn:Er.
  - specialize (Hok v eq_refl).
    destruct (session_get w url 15) as [response | e]; [| discriminate].
    destruct (http_error response); [discriminate |].
    destruct (soup_of response) as [soup | e]; [| discriminate].
    destruct (scan_normalized soup) as (t' & a' & k' & Hs & Ha & Hk).
    rewrite Hs in Hc. cbn in Hc. injection Hc as ->. injection Hok as -> ->.
    split; assumption.
  - destruct (Hraise e eq_refl) as [[= -> ->] _]. split; exact I.
Qed.

Lemma extract_from_doi_normalized (w : World) (doi : string) :
  exists t a,
    extract_from_doi w doi = (t, Ok (a, None)) /\ normalized a.
Proof.
  destruct (extract_from_doi_total w doi)
    as (t & [a k] & He & _ & Hk & Hraise & Hnone & Hsome).
  cbn in Hk. subst k. exists t, a. split; [exact He |].
  pose proof (doi_try_cases w doi) as Hc.
  destruct (Eff.result (doi_try w doi)) as [[v |] | e] eqn:Er.
  - specialize (Hsome v eq_refl). subst v.
    destruct (session_get w (api_url doi) 10) as [response | e]; [| discriminate].
    destruct (http_error response); [discriminate |].
    destruct (json_of response) as [[| b | z | s | items | fields] | e];
      try discriminate.
    destruct (fields_get fields "message") as [[| b | z | s | items | inner] |];
      try discriminate.
    destruct (fields_get inner "abstract") as [[| b | z | s | items | inner'] |];
      try discriminate;
      try (destruct (json_truthy _); discriminate).
    destruct (String.eqb s ""); [discriminate |].
    injection Hc as Ha. subst a. exists s. reflexivity.
  - pose proof (Hnone eq_refl) as Hn. injection Hn as ->. exact I.
  - destruct (Hraise e eq_refl) as [Hn _]. injection Hn as ->. exact I.
Qed.

(** The requests of [process_paper]. *)
Lemma process_paper_requests (w : World) (row : Row) :
  requests (Eff.trace (process_paper w row)) = tier_requests w row.
Proof.
  unfold tier_requests, outcome_of.
  destruct (process_paper_blocks w row) as (t1 & o1 & t2 & o2 & H1 & H2 & ->).
  destruct (try_scopus_requests w (Link row)) as (t1' & o1' & H1' & Hr1 & Hs1).
  destruct (try_doi_requests w (DOI row)) as (t2' & o2' & H2' & Hr2 & Hs2).
  rewrite H1 in H1'. injection H1' as <- <-.
  rewrite H2 in H2'. injection H2' as <- <-.
  destruct o1 as [r1 |]; cbn -[requests].
  - rewrite (Hs1 r1 eq_refl), Hr1, app_nil_r. reflexivity.
  - rewrite requests_app, Hr1, Hr2. f_equal.
    destruct o2 as [r2 |]; [destruct (Hs2 r2 eq_refl) as [-> _] |]; reflexivity.
Qed.

End ProcessorMore.

Import ProcessorMore.

(** X6.  When the metadata API answers with an object whose [message]
    holds a non-empty text under [abstract], the Fallback Metadata Client
    returns that text normalized, with absent keywords, after its one
    request and without a log entry. *)
Theorem doi_returns_normalized_abstract
        (w : World) (doi : string) (response : Response)
        (fields inner : list (string * json)) (s : string) :
  session_get w (api_url doi) 10 = Ok response ->
  http_error response = false ->
  json_of response = Ok (JObj fields) ->
  fields_get fields "message" = Some (JObj inner) ->
  fields_get inner "abstract" = Some (JStr s) ->
  s <> "" ->
  extract_from_doi w doi
  = ([EvDoi doi; EvGet (api_url doi) 10], Ok (Some (clean_text (Some s)), None)).
Proof.
  intros Hg Hs Hj Hm Ha Hne.
  pose proof (doi_try_cases w doi) as Hc. rewrite Hg, Hs, Hj, Hm, Ha in Hc.
  pose proof (doi_try_trace w doi) as Ht.
  unfold extract_from_doi.
  destruct (doi_try w doi) as [t r]. cbn in Hc, Ht. subst t r.
  destruct (String.eqb s "") eqn:E; [apply String.eqb_eq in E; contradiction |].
  reflexivity.
Qed.

(** The DOI of the scenario. *)
Lemma doi_returns_normalized_abstract_witness :
  extract_from_doi Scenario.world3 "10.1/b"
  = ([EvDoi "10.1/b"; EvGet (api_url "10.1/b") 10], Ok (Some "Fallback text", None)).
Proof.
  apply (doi_returns_normalized_abstract Scenario.world3 "10.1/b"
           {| status_code := 200; soup_of := Ok []; json_of := Ok Scenario.api_answer |}
           [("status", JStr "ok");
            ("message", JObj [("abstract", JStr "<jats:p>Fallback text</jats:p>")])]
           [("abstract", JStr "<jats:p>Fallback text</jats:p>")]
           "<jats:p>Fallback text</jats:p>");
    try reflexivity.
  discriminate.
Defined.

(** X7.  For every record the Paper Processor makes at most one request
    per tier and never repeats one: one request to the link, with the
    timeout 15, when the record has a link; then one request to the
    metadata API for the DOI, with the timeout 10, only when the first
    tier has not succeeded and the record has a DOI. *)
Theorem one_request_per_tier (w : World) (row : Row) :
  requests (Eff.trace (process_paper w row)) = tier_requests w row.
Proof. apply process_paper_requests. Qed.

(** X8.  When the first tier yields no result and the record has a DOI
    for which the Fallback Metadata Client returns a non-empty abstract,
    the Paper Processor returns that abstract with empty keywords and the
    status Success-Fallback. *)
Theorem fallback_success (w : World) (row : Row) (abstract keywords : option string) :
  Eff.result (try_scopus w (Link row)) = Ok None ->
  Cell.truthy (DOI row) = true ->
  Eff.result (extract_from_doi w (Cell.to_str (DOI row))) = Ok (abstract, keywords) ->
  opt_truthy abstract = true ->
  Eff.result (process_paper w row)
  = Ok {| r_Abstract := text_value abstract; r_Keywords := ""; r_Status := SuccessDOI |}.
Proof.
  intros Hp Hd He Ha.
  destruct (process_paper_blocks w row) as (t1 & o1 & t2 & o2 & H1 & H2 & ->).
  rewrite H1 in Hp. cbn in Hp. injection Hp as ->. cbn. f_equal.
  unfold try_doi in H2. rewrite Hd in H2.
  destruct (extract_from_doi_total w (Cell.to_str (DOI row)))
    as (t & [a k] & Hx & _ & Hk & _).
  rewrite Hx in He, H2. cbn in He, Hk. injection He as -> ->. subst keywords.
  cbn in H2. rewrite Ha in H2. cbn in H2. injection H2 as _ <-. reflexivity.
Qed.

(** The second record of the scenario: its link fails, its DOI is
    known. *)
Lemma fallback_success_witness :
  Eff.result (process_paper Scenario.world3 Scenario.row_fallback)
  = Ok {| r_Abstract := "Fallback text"; r_Keywords := ""; r_Status := SuccessDOI |}.
Proof.
  apply (fallback_success Scenario.world3 Scenario.row_fallback
           (Some "Fallback text") None);
    reflexivity.
Defined.

(** X9.  Keywords are returned with a success of the first tier only:
    whenever the status of the outcome is not Success-Primary its keywords
    are empty, also when the page of the link held a keyword element. *)
Theorem keywords_only_with_primary_success (w : World) (row : Row) :
  r_Status (outcome_of w row) <> SuccessScopus ->
  r_Keywords (outcome_of w row) = "".
Proof.
  unfold outcome_of.
  destruct (process_paper_blocks w row) as (t1 & o1 & t2 & o2 & H1 & H2 & ->).
  destruct (try_scopus_requests w (Link row)) as (t1' & o1' & H1' & _ & Hs1).
  destruct (try_doi_requests w (DOI row)) as (t2' & o2' & H2' & _ & Hs2).
  rewrite H1 in H1'. injection H1' as <- <-.
  rewrite H2 in H2'. injection H2' as <- <-.
  destruct o1 as [r1 |]; cbn.
  - intros H. exfalso. apply H, Hs1. reflexivity.
  - intros _. destruct o2 as [r2 |]; [apply (Hs2 r2 eq_refl) | reflexivity].
Qed.

(** A page with keywords and no abstract, and a DOI that is known. *)
Lemma keywords_only_with_primary_success_witness :
  Eff.result (extract_from_scopus Scenario.world_keywords "http://k")
  = Ok (None, Some "AI; ML")
  /\ r_Status (outcome_of Scenario.world_keywords Scenario.row_keywords) = SuccessDOI
  /\ r_Keywords (outcome_of Scenario.world_keywords Scenario.row_keywords) = "".
Proof.
  split; [reflexivity |]. split; [reflexivity |].
  apply (keywords_only_with_primary_success Scenario.world_keywords Scenario.row_keywords).
  vm_compute. discriminate.
Defined.

(** X10.  The abstract and the keywords of every outcome of the Paper
    Processor are results of the Text Normalizer: they hold characters of
    the allow-set only and neither start nor end with white space. *)
Theorem outcome_is_normalized (w : World) (row : Row) :
  normal_form (list_ascii_of_string (r_Abstract (outcome_of w row)))
  /\ normal_form (list_ascii_of_string (r_Keywords (outcome_of w row))).
Proof.
  assert (H : normalized (Some (r_Abstract (outcome_of w row)))
              /\ normalized (Some (r_Keywords (outcome_of w row)))).
  { unfold outcome_of.
    destruct (process_paper_blocks w row) as (t1 & o1 & t2 & o2 & H1 & H2 & ->).
    unfold try_scopus in H1. unfold try_doi in H2.
    destruct o1 as [r1 |]; cbn.
    - destruct (Cell.truthy (Link row)); [| discriminate].
      destruct (extract_from_scopus_normalized w (Cell.to_str (Link row)))
        as (t & a & k & He & Ha & Hk).
      rewrite He in H1. cbn in H1. destruct (opt_truthy a); [| discriminate].
      cbn in H1. injection H1 as _ <-. cbn.
      split; [apply normalized_text_value, Ha | apply normalized_or_empty, Hk].
    - destruct o2 as [r2 |]; [| split; apply normalized_empty].
      destruct (Cell.truthy (DOI row)); [| discriminate].
      destruct (extract_from_doi_normalized w (Cell.to_str (DOI row)))
        as (t & a & He & Ha).
      rewrite He in H2. cbn in H2. destruct (opt_truthy a); [| discriminate].
      cbn in H2. injection H2 as _ <-. cbn.
      split; [apply normalized_text_value, Ha | apply normalized_empty]. }
  destruct H as [[s1 ->] [s2 ->]].
  rewrite !chars_of_clean_text. split; apply clean_chars_normal_form.
Qed.

(** ** Further properties of the Batch Run Controller *)

Module ControllerMore.
Import Controller Trace ExtractorFacts ProcessorFacts ResumeFacts LoopFacts Notions.

(** *** Columns the loop never writes *)

Lemma update_at_column {B : Type} (g : Row -> B) (i : nat) (f : Row -> Row)
      (frame : list Row) :
  (forall r, g (f r) = g r) -> map g (update_at i f frame) = map g frame.
Proof.
  intros Hf. revert i. induction frame as [| r frame IH]; intros [| i]; simpl;
    try reflexivity.
  - rewrite Hf. reflexivity.
  - rewrite IH. reflexivity.
Qed.

Lemma written_back_DOI (i : nat) (res : Result) (frame : list Row) :
  map DOI (written_back i res frame) = map DOI frame.
Proof.
  unfold written_back. simpl.
  rewrite !update_at_column by (intros r; reflexivity). reflexivity.
Qed.

Lemma loop_body_DOI (proc : Row -> M Result) (fault : nat -> option exn)
      (i : nat) (st : Store) :
  map DOI (df (loop_body proc fault i st)) = map DOI (df st).
Proof.
  destruct (nth_error (df st) i) as [row |] eqn:Hrow.
  - pose proof (loop_body_cases proc fault i st row Hrow) as Hc.
    destruct (proc row) as [t [res | e]].
    + cbv zeta in Hc.
      destruct ((i + 1) mod BATCH_SIZE =? 0); [destruct (fault i) |];
        rewrite Hc; cbn [df]; apply written_back_DOI.
    + rewrite Hc. reflexivity.
  - unfold loop_body. rewrite Hrow. reflexivity.
Qed.

Lemma run_over_DOI (proc : Row -> M Result) (fault : nat -> option exn)
      (idxs : list nat) (st : Store) :
  map DOI (df (run_over proc fault idxs st)) = map DOI (df st).
Proof.
  revert st. induction idxs as [| i idxs IH]; intros st; [reflexivity |].
  rewrite run_over_cons, IH. apply loop_body_DOI.
Qed.

Lemma assign_columns_DOI (papers : list Paper) (merged : list Row) :
  List.length papers <= List.length merged ->
  map DOI (assign_columns papers merged) = map p_DOI papers.
Proof.
  unfold assign_columns. revert merged.
  induction papers as [| p papers IH]; intros [| m merged] H; simpl in *;
    try reflexivity; try lia.
  f_equal. apply IH. lia.
Qed.

Lemma resume_DOI (papers : list Paper) (file : option csv) :
  map DOI (fst (resume papers file)) = map p_DOI papers.
Proof.
  destruct file as [f |]; simpl.
  - apply assign_columns_DOI, merge_left_length.
  - rewrite map_map. reflexivity.
Qed.

(** *** The frame between two positions *)

Lemma nth_error_combine_seq {A : Type} (a : nat) (l : list A) (i : nat) :
  nth_error (combine (seq a (List.length l)) l) i
  = option_map (fun r => (a + i, r)) (nth_error l i).
Proof.
  revert a i. induction l as [| x l IH]; intros a [| i]; simpl; try reflexivity.
  - rewrite Nat.add_0_r. reflexivity.
  - rewrite IH. replace (S a + i) with (a + S i) by lia. reflexivity.
Qed.

Lemma processed_between_nth (w : World) (lo hi : nat) (frame : list Row) (i : nat) :
  nth_error (processed_between w lo hi frame) i
  = option_map (fun row => if (lo <=? i) && (i <? hi)
                           then filled row (outcome_of w row) else row)
               (nth_error frame i).
Proof.
  unfold processed_between. rewrite nth_error_map, nth_error_combine_seq.
  destruct (nth_error frame i); reflexivity.
Qed.

Lemma processed_between_length (w : World) (lo hi : nat) (frame : list Row) :
  List.length (processed_between w lo hi frame) = List.length frame.
Proof.
  unfold processed_between. rewrite length_map, length_combine, length_seq. lia.
Qed.

Lemma processed_between_none (w : World) (s : nat) (frame : list Row) :
  processed_between w s s frame = frame.
Proof.
  apply nth_error_ext. intros i. rewrite processed_between_nth.
  replace ((s <=? i) && (i <? s)) with false.
  - destruct (nth_error frame i); reflexivity.
  - symmetry. apply andb_false_iff.
    destruct (Nat.leb_spec s i); [right; apply Nat.ltb_ge; lia | left; reflexivity].
Qed.

Lemma processed_between_all (w : World) (frame : list Row) :
  processed_between w 0 (List.length frame) frame
  = map (fun row => filled row (outcome_of w row)) frame.
Proof.
  apply nth_error_ext. intros i. rewrite processed_between_nth, nth_error_map.
  destruct (nth_error frame i) as [row |] eqn:E; [| reflexivity].
  assert (Hi : i < List.length frame) by (apply nth_error_Some; congruence).
  apply Nat.ltb_lt in Hi. rewrite Hi. reflexivity.
Qed.

Lemma outcome_of_result (w : World) (row : Row) (t : list event) (res : Result) :
  PaperProcessor.process_paper w row = (t, Ok res) -> outcome_of w row = res.
Proof. unfold outcome_of. intros ->. reflexivity. Qed.

Lemma processed_between_step (w : World) (s i : nat) (frame : list Row) (row : Row) :
  s <= i ->
  nth_error frame i = Some row ->
  written_back i (outcome_of w row) (processed_between w s i frame)
  = processed_between w s (S i) frame.
Proof.
  intros Hs Hrow. apply nth_error_ext. intros j.
  destruct (Nat.eq_dec j i) as [-> | Hj].
  - rewrite (written_back_same i _ _ row).
    + rewrite processed_between_nth, Hrow. cbn [option_map].
      replace ((s <=? i) && (i <? S i)) with true; [reflexivity |].
      symmetry. apply andb_true_iff. split; [apply Nat.leb_le | apply Nat.ltb_lt]; lia.
    + rewrite processed_between_nth, Hrow. cbn [option_map].
      rewrite Nat.ltb_irrefl, andb_false_r. reflexivity.
  - rewrite written_back_other by exact Hj.
    rewrite !processed_between_nth.
    replace (j <? S i) with (j <? i); [reflexivity |].
    destruct (Nat.ltb_spec j i), (Nat.ltb_spec j (S i)); try reflexivity; lia.
Qed.

(** *** The loop, turn by turn *)

Lemma loop_body_turn (w : World) (s i : nat) (frame : list Row) (st : Store) :
  s <= i ->
  i < List.length frame ->
  df st = processed_between w s i frame ->
  df (loop_body (PaperProcessor.process_paper w) (to_csv_fault w) i st)
  = processed_between w s (S i) frame
  /\ events (loop_body (PaperProcessor.process_paper w) (to_csv_fault w) i st)
     = events st ++ turn_events w s frame i.
Proof.
  intros Hs Hi Hdf.
  destruct (nth_error frame i) as [row |] eqn:Hrow.
  2:{ apply nth_error_None in Hrow. lia. }
  assert (Hrow' : nth_error (df st) i = Some row).
  { rewrite Hdf, processed_between_nth, Hrow. cbn [option_map].
    rewrite Nat.ltb_irrefl, andb_false_r. reflexivity. }
  pose proof (loop_body_cases (PaperProcessor.process_paper w) (to_csv_fault w)
                i st row Hrow') as Hc.
  unfold turn_events. rewrite Hrow.
  destruct (process_paper_proc_total w row) as (t & res & Hp & _).
  rewrite (outcome_of_result w row t res Hp).
  pose proof (processed_between_step w s i frame row Hs Hrow) as Hstep.
  rewrite (outcome_of_result w row t res Hp) in Hstep.
  rewrite Hp in Hc. cbv zeta in Hc. rewrite Hdf in Hc.
  rewrite processed_between_length, Hstep in Hc.
  unfold progress_event in *. rewrite Hp.
  destruct ((i + 1) mod BATCH_SIZE =? 0); [destruct (to_csv_fault w i) |];
    rewrite Hc; cbn [df events Eff.trace fst]; split; reflexivity.
Qed.

(** The state after the turns for [lo], ..., [lo + m - 1]. *)
Lemma run_over_turns (w : World) (s : nat) (frame : list Row) (m lo : nat) (st : Store) :
  s <= lo ->
  lo + m <= List.length frame ->
  df st = processed_between w s lo frame ->
  df (run_over (PaperProcessor.process_paper w) (to_csv_fault w) (seq lo m) st)
  = processed_between w s (lo + m) frame
  /\ events (run_over (PaperProcessor.process_paper w) (to_csv_fault w) (seq lo m) st)
     = events st ++ flat_map (turn_events w s frame) (seq lo m).
Proof.
  revert lo st. induction m as [| m IH]; intros lo st Hs Hm Hdf.
  - cbn [seq flat_map]. rewrite Nat.add_0_r, app_nil_r.
    split; [exact Hdf | reflexivity].
  - cbn [seq flat_map]. rewrite run_over_cons.
    destruct (loop_body_turn w s lo frame st Hs ltac:(lia) Hdf) as [Hd He].
    destruct (IH (S lo) _ ltac:(lia) ltac:(lia) Hd) as [Hd' He'].
    split.
    + rewrite Hd'. f_equal. lia.
    + rewrite He', He, <- app_assoc. reflexivity.
Qed.

(** The run as a whole, for [main]. *)
Lemma main_turns (w : World) (papers : list Paper) (file : option csv) :
  output (main w papers file)
  = processed_between w (snd (resume papers file)) (List.length papers)
                      (fst (resume papers file))
  /\ run_trace (main w papers file)
     = flat_map (turn_events w (snd (resume papers file)) (fst (resume papers file)))
                (seq (snd (resume papers file))
                     (List.length papers - snd (resume papers file))).
Proof.
  unfold main.
  destruct (main_with_run (PaperProcessor.process_paper w) (to_csv_fault w) papers file)
    as (-> & -> & _).
  pose proof (resume_start_le papers file) as Hle.
  pose proof (resume_length papers file) as Hlen.
  destruct (run_over_turns w (snd (resume papers file)) (fst (resume papers file))
              (List.length papers - snd (resume papers file))
              (snd (resume papers file)) (initial papers file)) as [Hd He].
  - apply Nat.le_refl.
  - rewrite Hlen. lia.
  - unfold initial. cbn [df]. symmetry. apply processed_between_none.
  - split.
    + rewrite Hd. f_equal. lia.
    + rewrite He. reflexivity.
Qed.

Lemma turn_events_checkpoint (w : World) (s : nat) (frame : list Row) (i j : nat)
      (rows : list (string * string * string)) :
  In (EvToCsv j rows) (turn_events w s frame i) ->
  j = i /\ rows = to_csv (processed_between w s (S i) frame)
  /\ writes_at (to_csv_fault w) i = true.
Proof.
  unfold turn_events, writes_at, no_fault.
  destruct (nth_error frame i) as [row |]; [| intros []].
  destruct (process_paper_proc_total w row) as (t & res & Hp & Ht).
  rewrite Hp. cbn [Eff.trace fst].
  intros [H | H]; [discriminate |].
  apply in_app_or in H. destruct H as [H | H].
  - rewrite Forall_forall in Ht. apply Ht in H. destruct H.
  - destruct H as [H | H].
    + unfold progress_event in H.
      destruct (String.prefix "Success" (status_text (r_Status (outcome_of w row))));
        discriminate.
    + destruct ((i + 1) mod BATCH_SIZE =? 0).
      * destruct (to_csv_fault w i).
        -- destruct H as [H | []]. discriminate.
        -- destruct H as [H | [H | [H | []]]]; try discriminate.
           injection H as <- <-. repeat split.
      * destruct H as [H | []]. discriminate.
Qed.

End ControllerMore.

Import ControllerMore.

(** X11.  Whatever the Paper Processor and the checkpoint write do, the
    output holds the records of the input in their order: as many rows,
    with the same links and the same DOIs. *)
Theorem output_keeps_records
        (proc : Row -> M Result) (fault : nat -> option exn)
        (papers : list Paper) (file : option csv) :
  List.length (output (main_with proc fault papers file)) = List.length papers
  /\ map Link (output (main_with proc fault papers file)) = map p_Link papers
  /\ map DOI (output (main_with proc fault papers file)) = map p_DOI papers.
Proof.
  destruct (main_with_run proc fault papers file) as (_ & -> & _).
  destruct (run_over_frame proc fault
              (seq (snd (resume papers file))
                   (List.length papers - snd (resume papers file)))
              (initial papers file)) as (Hl & Hk & _).
  unfold initial in *. cbn [df] in *.
  split; [rewrite Hl; apply resume_length |].
  split; [rewrite Hk; apply resume_links |].
  rewrite run_over_DOI. cbn [df]. apply resume_DOI.
Qed.

(** X12.  The output of a run is the frame the loop started with, in
    which every record from the resume index on has the abstract and the
    keywords of its outcome, and every record before the resume index is
    as the checkpoint left it.  This holds also when checkpoint writes
    fail. *)
Theorem output_is_outcomes (w : World) (papers : list Paper) (file : option csv) :
  output (main w papers file)
  = processed_between w (snd (resume papers file)) (List.length papers)
                      (fst (resume papers file)).
Proof. apply main_turns. Qed.

(** X13.  Without a checkpoint every record is handed to the Paper
    Processor exactly once, in the order of the input, and the output row
    of each record holds the abstract and the keywords of its outcome. *)
Theorem fresh_run_processes_all (w : World) (papers : list Paper) :
  processed_indices (run_trace (main w papers None)) = seq 0 (List.length papers)
  /\ output (main w papers None)
     = map (fun p => filled (with_columns p (Str "") (Str ""))
                            (outcome_of w (with_columns p (Str "") (Str ""))))
           papers.
Proof.
  split.
  - unfold main.
    destruct (main_with_run (PaperProcessor.process_paper w) (to_csv_fault w)
                papers None) as (-> & _).
    unfold processed_indices.
    rewrite (run_over_milestones _ _ (process_paper_proc_total w))
      by apply range_in_frame.
    cbn [resume snd]. rewrite Nat.sub_0_r. apply processed_of_marks.
  - rewrite (proj1 (main_turns w papers None)). cbn [resume fst snd].
    rewrite <- (length_map (fun p => with_columns p (Str "") (Str "")) papers).
    rewrite processed_between_all, map_map. reflexivity.
Qed.

(** X14.  Every checkpoint the loop writes, after the record at index
    [i], holds the frame in which the records from the resume index to
    [i] have their outcomes and the later records are as they were when
    the loop started; and it is written only at a position where it is
    due. *)
Theorem checkpoint_holds_progress
        (w : World) (papers : list Paper) (file : option csv)
        (i : nat) (rows : list (string * string * string)) :
  In (EvToCsv i rows) (run_trace (main w papers file)) ->
  rows = to_csv (processed_between w (snd (resume papers file)) (S i)
                                   (fst (resume papers file)))
  /\ snd (resume papers file) <= i < List.length papers
  /\ (i + 1) mod BATCH_SIZE = 0.
Proof.
  destruct (main_turns w papers file) as [_ ->].
  intros H. apply in_flat_map in H. destruct H as (k & Hk & H).
  apply turn_events_checkpoint in H. destruct H as (-> & -> & Hw).
  split; [reflexivity |].
  apply in_seq in Hk. pose proof (resume_start_le papers file).
  split; [lia |].
  unfold writes_at in Hw. apply andb_prop in Hw. destruct Hw as [Hw _].
  apply Nat.eqb_eq. exact Hw.
Qed.

(** 100 records resumed at index 30: the checkpoint after the record at
    index 49. *)
Lemma checkpoint_holds_progress_witness :
  In (EvToCsv 49 (to_csv (processed_between Scenario.world_ok 30 50
                            (fst (resume (Scenario.papers_upto 100)
                                         (Some (Scenario.checkpoint_upto 30 100)))))))
     (run_trace (main Scenario.world_ok (Scenario.papers_upto 100)
                      (Some (Scenario.checkpoint_upto 30 100))))
  /\ (49 + 1) mod BATCH_SIZE = 0.
Proof.
  assert (H : exists rows,
             List.find (fun ev => match ev with EvToCsv 49 _ => true | _ => false end)
                       (run_trace (main Scenario.world_ok (Scenario.papers_upto 100)
                                        (Some (Scenario.checkpoint_upto 30 100))))
             = Some (EvToCsv 49 rows)).
  { vm_compute. eexists. reflexivity. }
  destruct H as [rows H]. apply find_some in H. destruct H as [H _].
  destruct (checkpoint_holds_progress Scenario.world_ok (Scenario.papers_upto 100)
              (Some (Scenario.checkpoint_upto 30 100)) 49 rows H) as (Hrows & _ & Hdue).
  split; [| exact Hdue].
  rewrite Hrows in H.
  replace (snd (resume (Scenario.papers_upto 100)
                       (Some (Scenario.checkpoint_upto 30 100)))) with 30 in H
    by (vm_compute; reflexivity).
  exact H.
Defined.

(** ** Further properties of the run as a whole *)

Module RunMore.
Import Controller Trace ExtractorFacts ProcessorFacts ResumeFacts LoopFacts.
Import Notions ProcessorMore ControllerMore.

#[local] Arguments requests : simpl never.
#[local] Arguments sleeps : simpl never.

Lemma sleeps_app (a b : list event) : sleeps (a ++ b) = sleeps a ++ sleeps b.
Proof. apply flat_map_app. Qed.

Lemma sleeps_extractor (t : list event) : Forall extractor_event t -> sleeps t = [].
Proof.
  induction 1 as [| ev t Hev _ IH]; [reflexivity |].
  change (ev :: t) with ([ev] ++ t). rewrite sleeps_app, IH, app_nil_r.
  destruct ev; simpl in *; try reflexivity; contradiction.
Qed.

Lemma requests_loop_event (ev : event) :
  (forall u s, ev <> EvGet u s) -> requests [ev] = [].
Proof. destruct ev; intros H; try reflexivity. exfalso. eapply H. reflexivity. Qed.

Lemma progress_event_quiet (i total : nat) (res : Result) :
  requests [progress_event i total res] = []
  /\ sleeps [progress_event i total res] = [].
Proof.
  unfold progress_event.
  destruct (String.prefix "Success" (status_text (r_Status res))); split; reflexivity.
Qed.

(** The pauses of one turn. *)
Lemma turn_events_sleeps (w : World) (s : nat) (frame : list Row) (i : nat) :
  i < List.length frame ->
  sleeps (turn_events w s frame i)
  = if write_fails (to_csv_fault w) i then [] else [rate_limit].
Proof.
  intros Hi. unfold turn_events, write_fails, no_fault.
  destruct (nth_error frame i) as [row |] eqn:Hrow.
  2:{ apply nth_error_None in Hrow. lia. }
  destruct (process_paper_proc_total w row) as (t & res & Hp & Ht).
  rewrite Hp. cbn [Eff.trace fst].
  change (EvProcess i :: ?x) with ([EvProcess i] ++ x).
  change (progress_event ?a ?b ?c :: ?x) with ([progress_event a b c] ++ x).
  rewrite !sleeps_app, (sleeps_extractor t Ht).
  rewrite (proj2 (progress_event_quiet _ _ _)).
  destruct ((i + 1) mod BATCH_SIZE =? 0); [destruct (to_csv_fault w i) |];
    reflexivity.
Qed.

(** The requests of one turn are those of the Paper Processor. *)
Lemma turn_events_requests (w : World) (s : nat) (frame : list Row) (i : nat) (row : Row) :
  nth_error frame i = Some row ->
  requests (turn_events w s frame i) = tier_requests w row.
Proof.
  intros Hrow. unfold turn_events. rewrite Hrow.
  change (EvProcess i :: ?x) with ([EvProcess i] ++ x).
  change (progress_event ?a ?b ?c :: ?x) with ([progress_event a b c] ++ x).
  rewrite !requests_app, process_paper_requests.
  rewrite (proj1 (progress_event_quiet _ _ _)).
  destruct ((i + 1) mod BATCH_SIZE =? 0); [destruct (to_csv_fault w i) |];
    cbn; rewrite app_nil_r; reflexivity.
Qed.

Lemma skipn_nth_error {A : Type} (l : list A) (n : nat) (x : A) :
  nth_error l n = Some x -> skipn n l = x :: skipn (S n) l.
Proof.
  revert n. induction l as [| y l IH]; intros [| n] H; simpl in *; try discriminate.
  - congruence.
  - apply IH. exact H.
Qed.

Lemma turns_requests (w : World) (s : nat) (frame : list Row) (m lo : nat) :
  lo + m = List.length frame ->
  requests (flat_map (turn_events w s frame) (seq lo m))
  = flat_map (tier_requests w) (skipn lo frame).
Proof.
  revert lo. induction m as [| m IH]; intros lo Hm.
  - rewrite skipn_all2 by lia. reflexivity.
  - destruct (nth_error frame lo) as [row |] eqn:Hrow.
    2:{ apply nth_error_None in Hrow. lia. }
    cbn [seq flat_map]. rewrite requests_app, (skipn_nth_error _ _ _ Hrow).
    cbn [flat_map]. rewrite (turn_events_requests w s frame lo row Hrow).
    f_equal. apply IH. lia.
Qed.

Lemma turns_sleeps (w : World) (s : nat) (frame : list Row) (idxs : list nat) :
  (forall i, In i idxs -> i < List.length frame) ->
  sleeps (flat_map (turn_events w s frame) idxs)
  = map (fun _ => rate_limit)
        (filter (fun i => negb (write_fails (to_csv_fault w) i)) idxs).
Proof.
  induction idxs as [| i idxs IH]; intros Hb; [reflexivity |].
  cbn [flat_map filter]. rewrite sleeps_app, IH by (intros k Hk; apply Hb; right; exact Hk).
  rewrite turn_events_sleeps by (apply Hb; left; reflexivity).
  destruct (write_fails (to_csv_fault w) i); reflexivity.
Qed.

(** *** The checkpoint read back *)

Lemma read_write_cell (c : cell) : roundtrips c = true -> read_cell (write_cell c) = c.
Proof.
  destruct c as [| s]; [reflexivity |]. unfold roundtrips, write_cell, read_cell.
  intros H. apply negb_true_iff in H. rewrite H. reflexivity.
Qed.

Lemma read_csv_to_csv (frame : list Row) :
  read_csv (to_csv frame) = map reread_entry frame.
Proof. unfold read_csv, to_csv. rewrite map_map. reflexivity. Qed.

Lemma cell_eqb_refl (c : cell) : Cell.eqb c c = true.
Proof. apply cell_eqb_eq. reflexivity. Qed.

Lemma lookup_distinct (ck : list CheckpointRow) (c : CheckpointRow) :
  distinct_links ck = true -> In c ck -> lookup (c_Link c) ck = Some c.
Proof.
  unfold lookup. induction ck as [| c0 ck IH]; intros Hd Hin; [destruct Hin |].
  cbn [distinct_links] in Hd. apply andb_prop in Hd. destruct Hd as [Hc0 Hd].
  cbn [List.find]. destruct Hin as [-> | Hin].
  - rewrite cell_eqb_refl. reflexivity.
  - destruct (Cell.eqb (c_Link c0) (c_Link c)) eqn:E.
    + exfalso. apply negb_true_iff in Hc0.
      assert (Hex : existsb (fun c' => Cell.eqb (c_Link c') (c_Link c0)) ck = true).
      { apply existsb_exists. exists c. split; [exact Hin |].
        apply cell_eqb_eq in E. rewrite E. apply cell_eqb_refl. }
      congruence.
    + apply IH; assumption.
Qed.

Lemma joined_rows (ck : list CheckpointRow) (papers : list Paper) (frame : list Row) :
  distinct_links ck = true ->
  map Link frame = map p_Link papers ->
  map DOI frame = map p_DOI papers ->
  forallb (fun r => roundtrips (Link r)) frame = true ->
  (forall r, In r frame -> In (reread_entry r) ck) ->
  map (joined ck) papers = map reread frame.
Proof.
  intros Hd. revert papers.
  induction frame as [| r frame IH]; intros [| p papers] Hl Hdoi Hrt Hin;
    try discriminate; [reflexivity |].
  cbn [map] in *. injection Hl as Hl1 Hl. injection Hdoi as Hd1 Hdoi.
  cbn [forallb] in Hrt. apply andb_prop in Hrt. destruct Hrt as [Hr Hrt].
  f_equal.
  - unfold joined.
    assert (Hk : p_Link p = c_Link (reread_entry r)).
    { unfold reread_entry. cbn [c_Link]. rewrite (read_write_cell _ Hr). congruence. }
    rewrite Hk, (lookup_distinct ck (reread_entry r) Hd (Hin r (or_introl eq_refl))).
    unfold with_columns, reread, reread_entry. cbn [c_Abstract c_Keywords].
    f_equal; congruence.
  - apply IH; try assumption. intros x Hx. apply Hin. right. exact Hx.
Qed.

Lemma count_nonempty_reread (frame : list Row) :
  forallb (fun r => roundtrips (Abstract r) || negb (Cell.nonempty (Abstract r)))
          frame = true ->
  count_nonempty (map reread frame) = count_nonempty frame.
Proof.
  unfold count_nonempty. induction frame as [| r frame IH]; [reflexivity |].
  cbn [forallb map filter]. intros H. apply andb_prop in H. destruct H as [Hr H].
  assert (E : Cell.nonempty (Abstract (reread r)) = Cell.nonempty (Abstract r)).
  { unfold reread. cbn [Abstract]. destruct (roundtrips (Abstract r)) eqn:Er.
    - rewrite (read_write_cell _ Er). reflexivity.
    - cbn [orb] in Hr. apply negb_true_iff in Hr. rewrite Hr.
      destruct (Abstract r) as [| [| c s]]; try discriminate; reflexivity. }
  rewrite E. destruct (Cell.nonempty (Abstract r)); cbn [List.length];
    rewrite (IH H); reflexivity.
Qed.

(** *** Without a matching entry *)

Lemma merge_left_unrelated (papers : list Paper) (ck : list CheckpointRow) :
  unrelated papers ck = true ->
  merge_left papers ck = map (fun p => with_columns p NaN NaN) papers.
Proof.
  unfold unrelated. induction papers as [| p papers IH]; [reflexivity |].
  cbn [forallb]. intros H. apply andb_prop in H. destruct H as [Hp H].
  rewrite merge_left_cons, (IH H).
  apply negb_true_iff in Hp. rewrite (matching_none _ _ Hp). reflexivity.
Qed.

Lemma assign_columns_self (papers : list Paper) (a k : cell) :
  assign_columns papers (map (fun p => with_columns p a k) papers)
  = map (fun p => with_columns p a k) papers.
Proof.
  unfold assign_columns. induction papers as [| p papers IH]; [reflexivity |].
  cbn [map combine]. rewrite IH. reflexivity.
Qed.

Lemma count_notna_missing (papers : list Paper) :
  count_notna (map (fun p => with_columns p NaN NaN) papers) = 0.
Proof.
  unfold count_notna. induction papers as [| p papers IH]; [reflexivity | exact IH].
Qed.

(** *** The statistics *)

Lemma success_count_split (frame : list Row) :
  success_count frame = count_nonempty frame + count_missing frame.
Proof.
  unfold success_count, count_nonempty, count_missing.
  induction frame as [| r frame IH]; [reflexivity |].
  cbn [filter]. destruct (Abstract r) as [| [| c s]]; cbn; lia.
Qed.

Lemma to_float64_one (n : Z) : (0 < n)%Z -> to_float64 n n = (2 ^ 52, - 52)%Z.
Proof.
  intros Hn. unfold to_float64.
  replace (n =? 0)%Z with false by (symmetry; apply Z.eqb_neq; lia).
  rewrite Z.sub_diag. cbn [Z.leb Z.compare].
  replace (n * 2 ^ 0 <=? n)%Z with true by (symmetry; apply Z.leb_le; lia).
  change (0 - 52)%Z with (- 52)%Z.
  change (Z.max 0 (- - 52)) with 52%Z. change (Z.max 0 (- 52)) with 0%Z.
  unfold round_half_even.
  replace (n * 2 ^ 0)%Z with n by lia.
  rewrite (Z.mul_comm n), (Z.div_mul _ n), Z.mod_mul by lia.
  replace (2 * 0 <? n)%Z with true by (symmetry; apply Z.ltb_lt; lia).
  reflexivity.
Qed.

Lemma format_rate_all (n : nat) : 0 < n -> format_rate n n = "100.00".
Proof.
  intros Hn. unfold format_rate, float_div. destruct n as [| n]; [lia |].
  rewrite to_float64_one by lia. vm_compute. reflexivity.
Qed.

Lemma format_rate_none (n : nat) : 0 < n -> format_rate 0 n = "0.00".
Proof.
  intros Hn. unfold format_rate, float_div. destruct n as [| n]; [lia |].
  reflexivity.
Qed.

Lemma printed_rate (proc : Row -> M Result) (fault : nat -> option exn)
      (papers : list Paper) (file : option csv) :
  printed_success_rate (main_with proc fault papers file)
  = format_rate (printed_success_count (main_with proc fault papers file))
                (printed_total (main_with proc fault papers file)).
Proof. unfold main_with. destruct (resume papers file). reflexivity. Qed.

(** The positions the loop processes. *)
Lemma processed_range (w : World) (papers : list Paper) (file : option csv) :
  processed_indices (run_trace (main w papers file))
  = seq (snd (resume papers file)) (List.length papers - snd (resume papers file)).
Proof.
  unfold main.
  destruct (main_with_run (PaperProcessor.process_paper w) (to_csv_fault w)
              papers file) as (-> & _).
  unfold processed_indices.
  rewrite (run_over_milestones _ _ (process_paper_proc_total w))
    by apply range_in_frame.
  apply processed_of_marks.
Qed.

End RunMore.

Import RunMore.

(** X15.  The loop pauses for the fixed delay of two seconds once after
    every record it processes, whether the record succeeded or failed,
    except after a record whose checkpoint write raised: the handler of the
    exception skips the pause. *)
Theorem one_pause_per_record (w : World) (papers : list Paper) (file : option csv) :
  sleeps (run_trace (main w papers file))
  = map (fun _ => rate_limit)
        (filter (fun i => negb (write_fails (to_csv_fault w) i))
                (seq (snd (resume papers file))
                     (List.length papers - snd (resume papers file)))).
Proof.
  destruct (main_turns w papers file) as [_ ->].
  apply turns_sleeps. intros i Hi. apply in_seq in Hi.
  pose proof (resume_start_le papers file). rewrite resume_length. lia.
Qed.

(** X16.  A run sends requests for the records from the resume index on
    only, in the order of the records, and for each of them those of the
    two tiers: no request is made for a record before the resume index. *)
Theorem requests_from_resume_index (w : World) (papers : list Paper) (file : option csv) :
  requests (run_trace (main w papers file))
  = flat_map (tier_requests w) (skipn (snd (resume papers file)) (fst (resume papers file))).
Proof.
  destruct (main_turns w papers file) as [_ ->].
  apply turns_requests. pose proof (resume_start_le papers file).
  rewrite resume_length. lia.
Qed.

(** X18.  A run that resumes from the checkpoint written for a frame with
    the links and DOIs of its records, pairwise different links that come
    back unchanged, starts with that frame as read back: every abstract
    and keyword that is a text comes back, and the empty ones come back as
    missing values.  Its resume index is then the number of non-empty
    abstracts of the frame, provided no abstract is a text that is read
    as a missing value. *)
Theorem resume_after_snapshot (papers : list Paper) (frame : list Row) :
  map Link frame = map p_Link papers ->
  map DOI frame = map p_DOI papers ->
  forallb (fun r => roundtrips (Link r)) frame = true ->
  distinct_links (read_csv (to_csv frame)) = true ->
  fst (resume papers (Some (to_csv frame))) = map reread frame
  /\ (forallb (fun r => roundtrips (Abstract r) || negb (Cell.nonempty (Abstract r)))
              frame = true ->
      snd (resume papers (Some (to_csv frame))) = count_nonempty frame).
Proof.
  intros Hl Hdoi Hrt Hd.
  assert (Hf : fst (resume papers (Some (to_csv frame))) = map reread frame).
  { rewrite (resume_joined _ _ Hd). apply joined_rows; try assumption.
    intros r Hr. rewrite read_csv_to_csv. apply in_map. exact Hr. }
  split; [exact Hf |].
  intros Ha. rewrite resume_start_counts, Hf. apply count_nonempty_reread, Ha.
Qed.

(** Three records of which the second failed. *)
Lemma resume_after_snapshot_witness :
  resume Scenario.papers_of_frame3 (Some (to_csv Scenario.frame3))
  = ([ {| Link := Str "http://a"; DOI := NaN;
          Abstract := Str "Deep learning works"; Keywords := Str "AI; ML" |};
       {| Link := Str "http://bad-c"; DOI := NaN; Abstract := NaN; Keywords := NaN |};
       {| Link := Str "http://bad-b"; DOI := Str "10.1/b";
          Abstract := Str "Fallback text"; Keywords := NaN |} ],
     2).
Proof.
  destruct (resume_after_snapshot Scenario.papers_of_frame3 Scenario.frame3)
    as [Hf Hs]; [reflexivity | reflexivity | reflexivity | reflexivity |].
  rewrite (surjective_pairing (resume _ _)), Hf, (Hs eq_refl). reflexivity.
Defined.

(** X19.  A checkpoint none of whose links is the link of a record (an
    empty one, or one left by a run over other records) restores nothing:
    every record starts with missing values, the resume index is 0 and
    every record is processed. *)
Theorem unrelated_checkpoint (w : World) (papers : list Paper) (f : csv) :
  unrelated papers (read_csv f) = true ->
  resume papers (Some f) = (map (fun p => with_columns p NaN NaN) papers, 0)
  /\ processed_indices (run_trace (main w papers (Some f))) = seq 0 (List.length papers).
Proof.
  intros Hu.
  assert (Hr : resume papers (Some f)
               = (map (fun p => with_columns p NaN NaN) papers, 0)).
  { cbn [resume]. rewrite (merge_left_unrelated _ _ Hu), assign_columns_self,
      count_notna_missing. reflexivity. }
  split; [exact Hr |].
  rewrite processed_range, Hr. cbn [snd]. rewrite Nat.sub_0_r. reflexivity.
Qed.

(** The three records of the scenario and a checkpoint of other records. *)
Lemma unrelated_checkpoint_witness :
  processed_indices
    (run_trace (main Scenario.world3 Scenario.papers3 (Some Scenario.checkpoint_stale)))
  = [0; 1; 2].
Proof.
  destruct (unrelated_checkpoint Scenario.world3 Scenario.papers3
              Scenario.checkpoint_stale) as [_ H]; [reflexivity |].
  exact H.
Defined.

(** X20.  The count the run prints is the number of records of the output
    whose abstract is not empty plus the number of those whose abstract is
    the missing value, in every run; and it is at most the total. *)
Theorem printed_count_includes_missing
        (proc : Row -> M Result) (fault : nat -> option exn)
        (papers : list Paper) (file : option csv) :
  printed_success_count (main_with proc fault papers file)
  = count_nonempty (output (main_with proc fault papers file))
    + count_missing (output (main_with proc fault papers file))
  /\ printed_success_count (main_with proc fault papers file)
     <= printed_total (main_with proc fault papers file).
Proof.
  destruct (main_with_run proc fault papers file) as (_ & Ho & Hc & Ht).
  rewrite Hc, Ho, Ht. split; [apply success_count_split |].
  destruct (run_over_frame proc fault
              (seq (snd (resume papers file))
                   (List.length papers - snd (resume papers file)))
              (initial papers file)) as (Hl & _).
  change (df (initial papers file)) with (fst (resume papers file)) in Hl.
  rewrite resume_length in Hl.
  unfold success_count.
  eapply Nat.le_trans; [apply filter_length_le | rewrite Hl; apply Nat.le_refl].
Qed.

(** X21.  For a record set that is not empty the run prints the rate
    100.00 when its count is the total and the rate 0.00 when its count is
    zero. *)
Theorem rate_at_the_ends
        (proc : Row -> M Result) (fault : nat -> option exn)
        (papers : list Paper) (file : option csv) :
  papers <> [] ->
  (printed_success_count (main_with proc fault papers file) = List.length papers ->
   printed_success_rate (main_with proc fault papers file) = "100.00")
  /\ (printed_success_count (main_with proc fault papers file) = 0 ->
      printed_success_rate (main_with proc fault papers file) = "0.00").
Proof.
  intros Hne. rewrite printed_rate.
  destruct (main_with_run proc fault papers file) as (_ & _ & _ & ->).
  assert (Hn : 0 < List.length papers) by (destruct papers; [congruence | simpl; lia]).
  split; intros ->; [apply format_rate_all | apply format_rate_none]; exact Hn.
Qed.

(** Three records that all succeed. *)
Lemma rate_at_the_ends_witness :
  printed_success_rate (main Scenario.world_ok (Scenario.papers_upto 3) None) = "100.00".
Proof.
  destruct (rate_at_the_ends (PaperProcessor.process_paper Scenario.world_ok)
              (to_csv_fault Scenario.world_ok) (Scenario.papers_upto 3) None)
    as [H _]; [discriminate |].
  apply H. reflexivity.
Defined.

(** ** Further properties of the Field Extractor *)

Module ScanMore.
Import Soup FieldExtractor Notions.

(** An element found inside a tree in which a selector finds nothing holds
    nothing for that selector either. *)
Lemma found_inside (sel' sel : selector) :
  forall n r,
    find_node sel' n = Some r -> find_node sel n = None -> find_node sel r = None.
Proof.
  fix IH 1. intros [s | tag attrs children] r.
  - discriminate.
  - cbn [find_node]. destruct (matches sel' tag attrs).
    + intros [= <-]. cbn [find_node]. trivial.
    + destruct (matches sel tag attrs); [discriminate |].
      revert children. fix IHl 1. intros [| x l]; [discriminate |].
      destruct (find_node sel' x) as [r' |] eqn:Ex.
      * intros [= ->] H. apply (IH x r Ex).
        destruct (find_node sel x); [discriminate | reflexivity].
      * intros Hr H. apply (IHl l Hr).
        destruct (find_node sel x); [discriminate | exact H].
Qed.

Lemma found_inside_list (sel' sel : selector) (nodes : list node) (r : node) :
  find sel' nodes = Some r -> find sel nodes = None -> find_node sel r = None.
Proof.
  induction nodes as [| x l IH]; [discriminate |].
  cbn [find]. destruct (find_node sel' x) as [r' |] eqn:Ex.
  - intros [= ->] H. apply (found_inside sel' sel x r Ex).
    destruct (find_node sel x); [discriminate | reflexivity].
  - intros Hr H. apply IH; [exact Hr |].
    destruct (find_node sel x); [discriminate | exact H].
Qed.

Lemma find_children (sel : selector) (n : node) :
  find_node sel n = None -> find sel (children_of n) = None.
Proof.
  destruct n as [s | tag attrs children]; [reflexivity |].
  cbn [find_node children_of]. destruct (matches sel tag attrs); [discriminate |].
  induction children as [| x l IH]; [reflexivity |].
  cbn [find]. destruct (find_node sel x); [discriminate | exact IH].
Qed.

(** Strategy (a) looks inside the document: where strategy (b) finds no
    element, strategy (a) finds none. *)
Lemma strategy_a_needs_div (soup : list node) :
  find sel_abstract_div soup = None -> strategy_a soup = None.
Proof.
  intros H. unfold strategy_a.
  destruct (find sel_abstract_section soup) as [section |] eqn:Es; [| reflexivity].
  rewrite (find_children _ _ (found_inside_list _ _ _ _ Es H)). reflexivity.
Qed.

End ScanMore.

Import ScanMore.

(** X22.  On a document without any [div] of class [abstract] the first
    two strategies find nothing, also when the abstract section is there,
    and the abstract is that of the description metadata tag: its content
    normalized (the empty text when the tag has no content), or absent
    when there is no such tag.  The keywords are looked up as ever. *)
Theorem meta_description_fallback (soup : list node) :
  Soup.find Soup.sel_abstract_div soup = None ->
  Eff.result (scan soup) = Ok (strategy_c soup, keyword_lookup soup).
Proof.
  intros H. unfold scan, find_in, strategy_c, keyword_lookup.
  destruct (Soup.find Soup.sel_abstract_section soup) as [section |] eqn:Es.
  - pose proof (find_children _ _ (found_inside_list _ _ _ _ Es H)) as Hin.
    cbn -[clean_text Soup.find]. rewrite Hin.
    cbn -[clean_text Soup.find]. rewrite H.
    destruct (Soup.find Soup.sel_meta_description soup);
      destruct (Soup.find Soup.sel_keyword_span soup); reflexivity.
  - cbn -[clean_text Soup.find]. rewrite H.
    destruct (Soup.find Soup.sel_meta_description soup);
      destruct (Soup.find Soup.sel_keyword_span soup); reflexivity.
Qed.

(** A page with an abstract section that holds no abstract element and
    with a description. *)
Lemma meta_description_fallback_witness :
  Eff.result (scan Scenario.page_meta_only) = Ok (Some "A short summary", None).
Proof.
  apply (meta_description_fallback Scenario.page_meta_only). reflexivity.
Defined.



(** ** The claim on resuming *)

(** C1, as stated, fails when a link occurs twice in the checkpoint.  The
    left join then yields a row for every pair of equal links, the merged
    frame is longer than the record set, and the two columns are taken
    from it by position.  With the sheet that lists [http://a] twice and
    the checkpoint written for it, the record [http://bad-c], whose own
    entry holds no abstract, takes the abstract and the keywords of
    [http://a]; the resume index is 3 and not 2, the loop processes
    nothing, and the output gives the failed record the abstract of
    another work.  The same happens with a checkpoint the program has
    written itself: a run over 51 records that lists [http://a] twice
    writes its checkpoint after the record at index 49; a run restarted
    with that file gives the records at 2 and 3, which had failed, the
    abstract of [http://a] and resumes at 4. *)
Lemma resume_with_repeated_link :
  (Scenario.checkpoint_twice = to_csv Scenario.frame_twice
   /\ lookup (Str "http://bad-c") (read_csv Scenario.checkpoint_twice)
      = Some {| c_Link := Str "http://bad-c"; c_Abstract := NaN; c_Keywords := NaN |}
   /\ nth_error (fst (resume Scenario.papers_twice (Some Scenario.checkpoint_twice))) 2
      = Some {| Link := Str "http://bad-c"; DOI := NaN;
                Abstract := Str "Deep learning works"; Keywords := Str "AI; ML" |}
   /\ fst (resume Scenario.papers_twice (Some Scenario.checkpoint_twice))
      <> map (joined (read_csv Scenario.checkpoint_twice)) Scenario.papers_twice
   /\ snd (resume Scenario.papers_twice (Some Scenario.checkpoint_twice)) = 3
   /\ processed_indices
        (run_trace (main Scenario.world3 Scenario.papers_twice
                         (Some Scenario.checkpoint_twice)))
      = []
   /\ nth_error
        (output (main Scenario.world3 Scenario.papers_twice
                      (Some Scenario.checkpoint_twice))) 2
      = Some {| Link := Str "http://bad-c"; DOI := NaN;
                Abstract := Str "Deep learning works"; Keywords := Str "AI; ML" |})
  /\ (written_files (run_trace (main Scenario.world3 Scenario.papers_51 None))
      = [(49, Scenario.checkpoint_51)]
      /\ lookup (Str (Scenario.link_of 3)) (read_csv Scenario.checkpoint_51)
         = Some {| c_Link := Str (Scenario.link_of 3);
                   c_Abstract := NaN; c_Keywords := NaN |}
      /\ nth_error (fst (resume Scenario.papers_51 (Some Scenario.checkpoint_51))) 3
         = Some {| Link := Str (Scenario.link_of 3); DOI := Str "";
                   Abstract := Str "Deep learning works"; Keywords := Str "AI; ML" |}
      /\ snd (resume Scenario.papers_51 (Some Scenario.checkpoint_51)) = 4
      /\ processed_indices
           (run_trace (main Scenario.world3 Scenario.papers_51
                            (Some Scenario.checkpoint_51)))
         = seq 4 47).
Proof.
  split.
  - split; [reflexivity |]. split; [reflexivity |]. split; [reflexivity |].
    split; [vm_compute; discriminate |].
    split; [reflexivity |]. split; [vm_compute; reflexivity |].
    vm_compute. reflexivity.
  - split; [vm_compute; reflexivity |]. split; [vm_compute; reflexivity |].
    split; [vm_compute; reflexivity |]. split; [vm_compute; reflexivity |].
    vm_compute. reflexivity.
Qed.

(** C1, amended.  In a run that finds a checkpoint file, the checkpoint is
    joined to the records by their link: when no link occurs twice in the
    checkpoint, every record takes the abstract and the keywords of the
    entry with its link, and missing values when there is none.  The
    resume index is the number of records whose abstract is not empty after
    the merge, and the loop processes exactly the positions from the resume
    index to the last one: these are handed to the Paper Processor, in
    their order; the requests of the run are those of the two tiers for
    these records; and the output holds the outcome of the Paper Processor
    for each of them and leaves every earlier record as the merge made it.
    When the abstracts present after the merge are those of the first [k]
    records, the loop processes the positions [k], ..., [n - 1] only. *)
Theorem resume_from_checkpoint (w : World) (papers : list Paper) (f : csv) :
  (distinct_links (read_csv f) = true ->
   fst (resume papers (Some f)) = map (joined (read_csv f)) papers)
  /\ snd (resume papers (Some f)) = count_nonempty (fst (resume papers (Some f)))
  /\ processed_indices (run_trace (main w papers (Some f)))
     = seq (snd (resume papers (Some f)))
           (List.length papers - snd (resume papers (Some f)))
  /\ requests (run_trace (main w papers (Some f)))
     = flat_map (tier_requests w)
                (skipn (snd (resume papers (Some f))) (fst (resume papers (Some f))))
  /\ output (main w papers (Some f))
     = processed_between w (snd (resume papers (Some f))) (List.length papers)
                         (fst (resume papers (Some f)))
  /\ (forall k,
         covers_first k (fst (resume papers (Some f))) = true ->
         processed_indices (run_trace (main w papers (Some f)))
         = seq k (List.length papers - k)
         /\ output (main w papers (Some f))
            = processed_between w k (List.length papers)
                                (fst (resume papers (Some f)))).
Proof.
  pose proof (main_turns w papers (Some f)) as [Hout Htrace].
  split; [apply resume_joined |].
  split; [apply resume_start_counts |].
  split; [apply processed_range |].
  split.
  { rewrite Htrace. apply turns_requests.
    pose proof (resume_start_le papers (Some f)).
    rewrite resume_length. lia. }
  split; [exact Hout |].
  intros k Hk. rewrite processed_range, Hout, resume_start_counts.
  rewrite (covers_first_count k _ Hk). split; reflexivity.
Qed.

(** 200 records and a checkpoint that covers the first 50: the positions
    50, ..., 199 are processed, and all 200 records of the output hold an
    abstract. *)
Lemma resume_from_checkpoint_witness :
  fst (resume (Scenario.papers_upto 200) (Some (Scenario.checkpoint_upto 50 200)))
  = map (joined (read_csv (Scenario.checkpoint_upto 50 200))) (Scenario.papers_upto 200)
  /\ processed_indices
       (run_trace (main Scenario.world_ok (Scenario.papers_upto 200)
                        (Some (Scenario.checkpoint_upto 50 200))))
     = seq 50 150
  /\ output (main Scenario.world_ok (Scenario.papers_upto 200)
                  (Some (Scenario.checkpoint_upto 50 200)))
     = processed_between Scenario.world_ok 50 200
         (fst (resume (Scenario.papers_upto 200)
                      (Some (Scenario.checkpoint_upto 50 200))))
  /\ count_nonempty
       (output (main Scenario.world_ok (Scenario.papers_upto 200)
                     (Some (Scenario.checkpoint_upto 50 200))))
     = 200.
Proof.
  destruct (resume_from_checkpoint Scenario.world_ok (Scenario.papers_upto 200)
              (Scenario.checkpoint_upto 50 200)) as (Hjoin & _ & _ & _ & _ & Hfirst).
  split; [apply Hjoin; vm_compute; reflexivity |].
  destruct (Hfirst 50) as [Hp Ho]; [vm_compute; reflexivity |].
  split; [exact Hp |]. split; [exact Ho |].
  vm_compute. reflexivity.
Defined.
